(** * RAMCloud: key fingerprints and the two-level log cleaner

    A shallow embedding of [src/Key.cc] and of the log cleaner whose code
    is the second half of [src/Log.h] ([LogCleaner::...]), with the
    properties of the cleaner's selection policies, of the relocation
    loops and of [Key] proved over it.

    Conventions.
    - A C++ unsigned integer of [w] bits is a [Z] in [[0, 2^w)]; every
      operation that can leave the range is followed by its wrap-around
      ([u32], [u64], [u128]).  Arguments and members are values of their
      C++ types; properties that need the range say so.
    - A pointer to a [LogSegment] is an address into a [Store]; [NULL] is
      [None].  A pointer to key bytes is the list of the bytes found there.
    - A C++ exception or a failed [assert] ends the computation with
      [Throw].
    - Code that the cleaner and [Key] call but that is not among the
      sources at hand (LogCleaner.h, LogSegment, Segment, SegmentManager,
      MurmurHash3, Object, WallTime, std::sort) is a field of a class of
      collaborators; an instance that follows the specification's text is
      given at the end of the definitions and used to run examples. *)

From Stdlib Require Import ZArith List Bool Lia String Permutation Sorted.
From Stdlib Require Import Strings.Byte.
From stdpp Require Import base list.
Import ListNotations.
Local Open Scope Z_scope.

(** ** Machine integers *)

Module Machine.

Definition wrap (bits z : Z) : Z := z mod 2 ^ bits.

Definition u32 : Z -> Z := wrap 32.
Definition u64 : Z -> Z := wrap 64.
Definition u128 : Z -> Z := wrap 128.

(** [-1UL] *)
Definition UINT64_MAX : Z := 2 ^ 64 - 1.

Definition inRange (bits z : Z) : Prop := 0 <= z < 2 ^ bits.

End Machine.
Import Machine.

(** ** Exceptions *)

Inductive Exception : Type :=
| FatalError (message : string)
| AssertionFailed (condition : string).

Inductive Result (A : Type) : Type :=
| Ok (a : A)
| Throw (e : Exception).
Arguments Ok {A} a.
Arguments Throw {A} e.

(** ** Log entry types and buffers *)

(** Modelled from the spec: the enumeration [LogEntryType] is declared in a
    header that is not among the sources.  The specification's data model
    names the types an entry has "at minimum" and stores the type in one
    byte; every other value of that byte is [LOG_ENTRY_TYPE_OTHER]. *)
Inductive LogEntryType : Type :=
| LOG_ENTRY_TYPE_OBJ
| LOG_ENTRY_TYPE_OBJTOMB
| LOG_ENTRY_TYPE_SEGHEADER
| LOG_ENTRY_TYPE_SEGFOOTER
| LOG_ENTRY_TYPE_OTHER (code : Z).

Definition LogEntryType_eqb (a b : LogEntryType) : bool :=
  match a, b with
  | LOG_ENTRY_TYPE_OBJ, LOG_ENTRY_TYPE_OBJ => true
  | LOG_ENTRY_TYPE_OBJTOMB, LOG_ENTRY_TYPE_OBJTOMB => true
  | LOG_ENTRY_TYPE_SEGHEADER, LOG_ENTRY_TYPE_SEGHEADER => true
  | LOG_ENTRY_TYPE_SEGFOOTER, LOG_ENTRY_TYPE_SEGFOOTER => true
  | LOG_ENTRY_TYPE_OTHER x, LOG_ENTRY_TYPE_OTHER y => x =? y
  | _, _ => false
  end.

(** A [Buffer] is the sequence of its bytes. *)
Definition Buffer : Type := list Byte.byte.

(** ** Key.cc *)

Module Key.

(** What [Key.cc] calls and the sources do not contain. *)
Class Collaborators : Type := {
  (** [MurmurHash3_x64_128(key, len, seed, out)]: from the [len] bytes at
      [key] and a 32-bit seed to the two 64-bit words [out[0]], [out[1]]. *)
  MurmurHash3_x64_128 : list Byte.byte -> Z -> Z -> Z * Z;
  (** [Object(buffer)] and its accessors. *)
  Object_getTableId : Buffer -> Z;
  Object_getKeyLength : Buffer -> Z;
  Object_getKey : Buffer -> list Byte.byte;
  (** [ObjectTombstone(buffer)] and its accessors. *)
  ObjectTombstone_getTableId : Buffer -> Z;
  ObjectTombstone_getKeyLength : Buffer -> Z;
  ObjectTombstone_getKey : Buffer -> list Byte.byte
}.

(** The object [Key]: [stringKey] points to the key's bytes, [hash] is the
    [Tub<KeyHash>] that caches the fingerprint once it was computed. *)
Record t : Type := mk {
  tableId : Z;
  stringKey : list Byte.byte;
  stringKeyLength : Z;
  hash : option Z
}.

(** The bytes a key of length [n] at a pointer denotes. *)
Definition keyBytes (p : list Byte.byte) (n : Z) : list Byte.byte :=
  firstn (Z.to_nat n) p.

Fixpoint bytes_eqb (a b : list Byte.byte) : bool :=
  match a, b with
  | [], [] => true
  | x :: a', y :: b' => Byte.eqb x y && bytes_eqb a' b'
  | _, _ => false
  end.

(** libc's [bcmp]: zero exactly when the first [n] bytes agree. *)
Definition bcmp (a b : list Byte.byte) (n : Z) : Z :=
  if bytes_eqb (keyBytes a n) (keyBytes b n) then 0 else 1.

Section WithCollaborators.
Context `{Collaborators}.

(** [Key::Key(LogEntryType type, Buffer& buffer)] *)
Definition fromLogEntry (type : LogEntryType) (buffer : Buffer) : Result t :=
  if LogEntryType_eqb type LOG_ENTRY_TYPE_OBJ then
    Ok {| tableId := Object_getTableId buffer;
          stringKey := Object_getKey buffer;
          stringKeyLength := Object_getKeyLength buffer;
          hash := None |}
  else if LogEntryType_eqb type LOG_ENTRY_TYPE_OBJTOMB then
    Ok {| tableId := ObjectTombstone_getTableId buffer;
          stringKey := ObjectTombstone_getKey buffer;
          stringKeyLength := ObjectTombstone_getKeyLength buffer;
          hash := None |}
  else Throw (FatalError "unknown Log::Entry type").

(** [Key::Key(uint64_t tableId, const void* stringKey,
    uint16_t stringKeyLength)] *)
Definition fromString (tableId : Z) (stringKey : list Byte.byte)
    (stringKeyLength : Z) : t :=
  {| tableId := tableId; stringKey := stringKey;
     stringKeyLength := stringKeyLength; hash := None |}.

(** [Key::Key(uint64_t tableId, Buffer& buffer, uint32_t stringKeyOffset,
    uint16_t stringKeyLength)]: [buffer.getRange] yields a pointer to the
    bytes from [stringKeyOffset] on. *)
Definition fromBuffer (tableId : Z) (buffer : Buffer)
    (stringKeyOffset stringKeyLength : Z) : t :=
  {| tableId := tableId;
     stringKey := skipn (Z.to_nat stringKeyOffset) buffer;
     stringKeyLength := stringKeyLength; hash := None |}.

(** The static [Key::getHash(tableId, stringKey, stringKeyLength)]. *)
Definition getHash (tableId : Z) (stringKey : list Byte.byte)
    (stringKeyLength : Z) : Z :=
  let tableIdSeed := u32 tableId in
  let out :=
    MurmurHash3_x64_128 (keyBytes stringKey stringKeyLength)
      stringKeyLength tableIdSeed in
  fst out.

(** The member [Key::getHash()]: the value and the key with its cache
    filled. *)
Definition getHashCached (k : t) : Z * t :=
  match hash k with
  | Some h => (h, k)
  | None =>
      let h := getHash (tableId k) (stringKey k) (stringKeyLength k) in
      (h, {| tableId := tableId k; stringKey := stringKey k;
             stringKeyLength := stringKeyLength k; hash := Some h |})
  end.

(** [Key::operator==] *)
Definition eqb (k other : t) : bool :=
  if match hash k, hash other with
     | Some h, Some h' => negb (h =? h')
     | _, _ => false
     end
  then false
  else if negb (tableId k =? tableId other) then false
  else if negb (stringKeyLength k =? stringKeyLength other) then false
  else bcmp (stringKey k) (stringKey other) (stringKeyLength k) =? 0.

(** [Key::operator!=] *)
Definition neqb (k other : t) : bool := negb (eqb k other).

(** The keys a program can hold: [hash] is private, the constructors leave
    it empty and only [getHash()] fills it. *)
Inductive reachable : t -> Prop :=
| reach_fromString tableId stringKey stringKeyLength :
    reachable (fromString tableId stringKey stringKeyLength)
| reach_fromBuffer tableId buffer off len :
    reachable (fromBuffer tableId buffer off len)
| reach_fromLogEntry type buffer k :
    fromLogEntry type buffer = Ok k -> reachable k
| reach_getHash k :
    reachable k -> reachable (snd (getHashCached k)).

(** The three components the specification compares keys by. *)
Definition sameKey (a b : t) : Prop :=
  tableId a = tableId b /\
  stringKeyLength a = stringKeyLength b /\
  keyBytes (stringKey a) (stringKeyLength a) =
    keyBytes (stringKey b) (stringKeyLength b).

(** The cache of a key, once filled, holds the fingerprint of that key. *)
Definition cacheValid (k : t) : Prop :=
  forall h, hash k = Some h ->
    h = getHash (tableId k) (stringKey k) (stringKeyLength k).

End WithCollaborators.
End Key.

(** ** Segments and the store they live in *)

Module LogSegment.

(** Modelled from the spec: the class [LogSegment] is not among the
    sources.  The record holds the segment's "ordered sequence of typed
    entries", the counters of the specification's data model ("a vector
    of seglet handles, an append cursor, a closed flag, and counters") and
    the members the cleaner reads and writes by name: [liveBytes],
    [creationTimestamp], [lastCompactionTimestamp], [costBenefit] and
    [costBenefitVersion]. *)
Record t : Type := mk {
  contents : list (LogEntryType * Buffer);
  closed : bool;
  appendedLength : Z;
  segletsAllocated : Z;
  liveBytes : Z;
  entryCounts : LogEntryType -> Z;
  creationTimestamp : Z;
  lastCompactionTimestamp : Z;
  costBenefit : Z;
  costBenefitVersion : Z
}.

Definition getSegletsAllocated (s : t) : Z := segletsAllocated s.
Definition getAppendedLength (s : t) : Z := appendedLength s.
Definition getEntryCount (s : t) (type : LogEntryType) : Z :=
  entryCounts s type.

Definition set_liveBytes (v : Z) (s : t) : t :=
  mk (contents s) (closed s) (appendedLength s) (segletsAllocated s) v
     (entryCounts s) (creationTimestamp s) (lastCompactionTimestamp s)
     (costBenefit s) (costBenefitVersion s).

Definition set_costBenefit (v version : Z) (s : t) : t :=
  mk (contents s) (closed s) (appendedLength s) (segletsAllocated s)
     (liveBytes s) (entryCounts s) (creationTimestamp s)
     (lastCompactionTimestamp s) v version.

End LogSegment.

(** [LogSegment*]: an address, [NULL] being [None] where a pointer may be
    null. *)
Definition ptr : Type := nat.

Definition Store : Type := ptr -> LogSegment.t.

Definition update (h : Store) (p : ptr) (s : LogSegment.t) : Store :=
  fun q => if Nat.eqb q p then s else h q.

(** [std::vector]: [v.back()], [v.pop_back()], and the idiom
    [v[i] = v.back(); v.pop_back();] that removes slot [i]. *)
Definition back (v : list ptr) : ptr := v !!! (length v - 1)%nat.
Definition pop_back (v : list ptr) : list ptr := take (length v - 1)%nat v.
Definition swapRemove (i : nat) (v : list ptr) : list ptr :=
  pop_back (<[i := back v]> v).

(** ** The log cleaner *)

Inductive RelocStatus : Type :=
| RELOCATED
| NOT_NEEDED
| RELOCATION_FAILED.

Definition RelocStatus_eqb (a b : RelocStatus) : bool :=
  match a, b with
  | RELOCATED, RELOCATED => true
  | NOT_NEEDED, NOT_NEEDED => true
  | RELOCATION_FAILED, RELOCATION_FAILED => true
  | _, _ => false
  end.

(** [Log::Reference], what [segment->getReference(offset)] returns. *)
Definition Reference : Type := ptr * Z.

(** The element of [EntryVector]: [Entry(segment, offset, timestamp)]. *)
Record Entry : Type := mkEntry {
  segment : ptr;
  offset : Z;
  timestamp : Z
}.

(** The state a cleaning pass runs in: the segments, the cleaner's
    [candidates] vector, and whatever the segment manager, the replica
    manager and the entry handlers keep. *)
Record World (External : Type) : Type := mkWorld {
  store : Store;
  candidates : list ptr;
  external : External
}.
Arguments mkWorld {External}.
Arguments store {External}.
Arguments candidates {External}.
Arguments external {External}.

(** The members of [LogCleaner] that are set once from the configuration. *)
Record Config : Type := mkConfig {
  segletSize : Z;
  segmentSize : Z;
  disableInMemoryCleaning : bool
}.

(** The requirement of [std::sort] on its comparison. *)
Definition StrictWeakOrder {A : Type} (comp : A -> A -> bool) : Prop :=
  (forall x, comp x x = false) /\
  (forall x y z, comp x y = true -> comp y z = true -> comp x z = true) /\
  (forall x y z, comp x y = false -> comp y z = false -> comp x z = false).

(** No element is ordered before one that precedes it. *)
Definition SortedBy {A : Type} (comp : A -> A -> bool) : list A -> Prop :=
  StronglySorted (fun x y => comp y x = false).

(** What the cleaner calls and the sources do not contain. *)
Class Collaborators : Type := {
  (** Constants of LogCleaner.h. *)
  MAX_CLEANABLE_MEMORY_UTILIZATION : Z;
  MAX_LIVE_SEGMENTS_PER_DISK_PASS : Z;
  (** Methods of [LogSegment]. *)
  getMemoryUtilization : LogSegment.t -> Z;
  getDiskUtilization : LogSegment.t -> Z;
  getSegletsInUse : LogSegment.t -> Z;
  close : LogSegment.t -> LogSegment.t;
  freeUnusedSeglets : Z -> LogSegment.t -> bool * LogSegment.t;
  (** [SegmentIterator]: type, offset and contents of every entry. *)
  segmentEntries : LogSegment.t -> list (LogEntryType * Z * Buffer);
  getEntry : LogSegment.t -> Z -> LogEntryType * Buffer;
  (** [std::sort]; its contract is [StdSortContract] below. *)
  std_sort : forall A : Type, (A -> A -> bool) -> list A -> list A;
  (** [TimestampComparer] of LogCleaner.h. *)
  TimestampComparer : Entry -> Entry -> bool;
  (** State of SegmentManager, ReplicaManager and LogEntryHandlers. *)
  External : Type;
  allocSideSegment :
    option ptr -> World External -> option ptr * World External;
  relocateEntry :
    LogEntryType -> Buffer -> Reference -> option ptr -> Z ->
    World External -> RelocStatus * Z * World External;
  getTimestamp : LogEntryType -> Buffer -> Z;
  replicatedSegment_close : ptr -> World External -> World External;
  replicatedSegment_sync : ptr -> Z -> World External -> World External;
  compactionComplete : ptr -> ptr -> World External -> World External;
  cleaningComplete :
    list ptr -> list ptr -> World External -> World External
}.

(** What the C++ standard promises of [std::sort]: the result is a
    rearrangement of the input and, when the comparison is a strict weak
    order, it is sorted by it. *)
Definition StdSortContract `{Collaborators} : Prop :=
  forall (A : Type) (comp : A -> A -> bool) (l : list A),
    Permutation (std_sort A comp l) l /\
    (StrictWeakOrder comp -> SortedBy comp (std_sort A comp l)).

(** *** CostBenefitComparer *)

Module CostBenefitComparer.

(** The functor's members: [now] is [WallTime::secondsTimestamp()] and
    [version] is [Cycles::rdtsc()], both read by the constructor. *)
Record t : Type := mk {
  now : Z;
  version : Z
}.

Section WithCollaborators.
Context `{Collaborators}.

(** The guard [if (timestamp > now) timestamp = now;]. *)
Definition clampTimestamp (c : t) (timestamp : Z) : Z :=
  if timestamp >? now c then now c else timestamp.

(** [CostBenefitComparer::costBenefit] *)
Definition costBenefit (c : t) (s : LogSegment.t) : Z :=
  let utilization := getDiskUtilization s in
  if negb (utilization =? 0) then
    let timestamp := LogSegment.creationTimestamp s in
    let timestamp := clampTimestamp c timestamp in
    let age := u64 (now c - timestamp) in
    u64 (u64 (100 - utilization) * age) / u64 utilization
  else UINT64_MAX.

(** One half of [operator()]: recompute a segment's cached cost-benefit
    unless it was computed by this very comparer. *)
Definition refresh (c : t) (h : Store) (a : ptr) : Store :=
  if negb (LogSegment.costBenefitVersion (h a) =? version c) then
    update h a
      (LogSegment.set_costBenefit (costBenefit c (h a)) (version c) (h a))
  else h.

(** [CostBenefitComparer::operator()]: the verdict and the store with the
    two caches filled. *)
Definition call (c : t) (h : Store) (a b : ptr) : bool * Store :=
  let h := refresh c h a in
  let h := refresh c h b in
  (LogSegment.costBenefit (h a) >? LogSegment.costBenefit (h b), h).

(** The value [operator()] compares a segment by. *)
Definition sortKey (c : t) (h : Store) (a : ptr) : Z :=
  if LogSegment.costBenefitVersion (h a) =? version c
  then LogSegment.costBenefit (h a)
  else costBenefit c (h a).

End WithCollaborators.
End CostBenefitComparer.

(** *** LogCleaner *)

Module LogCleaner.

Section WithCollaborators.
Context `{Collaborators}.

(** Computations that read and write the world and may throw. *)
Definition M (A : Type) : Type :=
  World External -> Result (A * World External).

Definition ret {A} (a : A) : M A := fun w => Ok (a, w).

Definition bind {A B} (m : M A) (k : A -> M B) : M B :=
  fun w =>
    match m w with
    | Ok (a, w') => k a w'
    | Throw e => Throw e
    end.

Definition throw {A} (e : Exception) : M A := fun _ => Throw e.

(** [assert(cond)] *)
Definition assert (cond : bool) (text : string) : M unit :=
  if cond then ret tt else throw (AssertionFailed text).

Definition get : M (World External) := fun w => Ok (w, w).

Definition modify (f : World External -> World External) : M unit :=
  fun w => Ok (tt, f w).

(** A call of a collaborator that returns a value. *)
Definition invoke {A} (f : World External -> A * World External) : M A :=
  fun w => Ok (f w).

(** Reading and writing through a [LogSegment*]. *)
Definition load (p : ptr) : M LogSegment.t :=
  fun w => Ok (store w p, w).

Definition write (p : ptr) (s : LogSegment.t) : M unit :=
  modify (fun w => mkWorld (update (store w) p s) (candidates w) (external w)).

Definition setCandidates (v : list ptr) : M unit :=
  modify (fun w => mkWorld (store w) v (external w)).

End WithCollaborators.

Notation "'let*' x ':=' m 'in' k" := (bind m (fun x => k))
  (at level 10, x name, m at level 100, k at level 200, only parsing).

Section WithCollaborators.
Context `{Collaborators}.
Variable config : Config.

(** **** In-memory compaction: choosing the segment *)

(** The expression [(100 * (liveBytes + segletSize - 1)) / segletSize /
    MAX_CLEANABLE_MEMORY_UTILIZATION] on [uint32_t]. *)
Definition segletsNeeded (liveBytes : Z) : Z :=
  u32 (100 * u32 (u32 (liveBytes + segletSize config) - 1))
    / segletSize config / MAX_CLEANABLE_MEMORY_UTILIZATION.

(** [delta = segletsAllocated - segletsNeeded] on [uint32_t]. *)
Definition delta (s : LogSegment.t) : Z :=
  u32 (LogSegment.getSegletsAllocated s
       - segletsNeeded (LogSegment.liveBytes s)).

(** The first loop of [getSegmentToCompact], from index [i] on.  The index
    [static_cast<size_t>(-1)] that stands for "none yet" is [None]. *)
Fixpoint bestDeltaLoop (h : Store) (v : list ptr) (i : nat)
    (bestIndex : option nat) (bestDelta : Z) : option nat * Z :=
  match v with
  | [] => (bestIndex, bestDelta)
  | candidate :: rest =>
      let liveBytes := LogSegment.liveBytes (h candidate) in
      let segletsNeeded := segletsNeeded liveBytes in
      let segletsAllocated := LogSegment.getSegletsAllocated (h candidate) in
      let delta := u32 (segletsAllocated - segletsNeeded) in
      if (segletsNeeded <? segletsAllocated) && (delta >? bestDelta)
      then bestDeltaLoop h rest (S i) (Some i) delta
      else bestDeltaLoop h rest (S i) bestIndex bestDelta
  end.

(** [(__uint128_t)tombstoneCount * timeSinceLastCompaction], where
    [secondsTimestamp] is what [WallTime::secondsTimestamp()] returns when
    the candidate is examined; the timestamps are 32-bit and the
    difference is widened to 64 bits. *)
Definition goodness (secondsTimestamp : Z) (s : LogSegment.t) : Z :=
  let tombstoneCount := LogSegment.getEntryCount s LOG_ENTRY_TYPE_OBJTOMB in
  let timeSinceLastCompaction :=
    u32 (secondsTimestamp - LogSegment.lastCompactionTimestamp s) in
  u128 (tombstoneCount * timeSinceLastCompaction).

(** The second loop of [getSegmentToCompact]; [clock i] is the reading of
    the clock in iteration [i]. *)
Fixpoint bestGoodnessLoop (clock : nat -> Z) (h : Store) (v : list ptr)
    (i : nat) (bestIndex : option nat) (bestGoodness : Z) : option nat :=
  match v with
  | [] => bestIndex
  | candidate :: rest =>
      let goodness := goodness (clock i) (h candidate) in
      if goodness >? bestGoodness
      then bestGoodnessLoop clock h rest (S i) (Some i) goodness
      else bestGoodnessLoop clock h rest (S i) bestIndex bestGoodness
  end.

(** [LogCleaner::getSegmentToCompact]: the segment and
    [outFreeableSeglets], or [NULL]; the candidates that remain. *)
Definition getSegmentToCompact (clock : nat -> Z) (h : Store)
    (candidates : list ptr) : option (ptr * Z) * list ptr :=
  let '(bestIndex, bestDelta) := bestDeltaLoop h candidates 0 None 0 in
  let chosen :=
    match bestIndex with
    | Some i => Some (i, bestDelta)
    | None =>
        match bestGoodnessLoop clock h candidates 0 None 0 with
        | None => None
        | Some i => Some (i, 0)
        end
    end in
  match chosen with
  | None => (None, candidates)
  | Some (bestIndex, bestDelta) =>
      let best := candidates !!! bestIndex in
      (Some (best, bestDelta), swapRemove bestIndex candidates)
  end.

(** **** Disk cleaning: choosing the segments *)

(** [LogCleaner::sortSegmentsByCostBenefit].  [std::sort] calls
    [operator()] on pairs of its own choosing; each call leaves the verdict
    of every later call unchanged, so the order is that of [sortKey] in
    the store the sort starts from.  Only the two cache members of a
    segment are written, and nothing but [operator()] reads them; these
    writes are not carried into the store a pass goes on with, which
    therefore says nothing about the two members. *)
Definition sortSegmentsByCostBenefit (c : CostBenefitComparer.t)
    (h : Store) (segments : list ptr) : list ptr :=
  std_sort ptr (fun a b => fst (CostBenefitComparer.call c h a b)) segments.

(** The local variables of the selection loop. *)
Record Chosen : Type := mkChosen {
  totalSeglets : Z;
  totalLiveBytes : Z;
  outSegmentsToClean : list ptr;
  chosenIndices : list nat
}.

(** [MAX_LIVE_SEGMENTS_PER_DISK_PASS * segmentSize], a product of an [int]
    and a [uint32_t]. *)
Definition maximumLiveBytes : Z :=
  u32 (MAX_LIVE_SEGMENTS_PER_DISK_PASS * segmentSize config).

(** The loop of [getSegmentsToClean] over the sorted candidates, from
    index [i] on: [continue] past a segment that is too full in memory,
    [break] at the first one that does not fit the budget. *)
Fixpoint chooseLoop (h : Store) (v : list ptr) (i : nat) (acc : Chosen)
    : Chosen :=
  match v with
  | [] => acc
  | candidate :: rest =>
      let utilization := getMemoryUtilization (h candidate) in
      if utilization >? MAX_CLEANABLE_MEMORY_UTILIZATION
      then chooseLoop h rest (S i) acc
      else
        let liveBytes := LogSegment.liveBytes (h candidate) in
        if u64 (totalLiveBytes acc + liveBytes) >? maximumLiveBytes
        then acc
        else
          chooseLoop h rest (S i)
            {| totalSeglets :=
                 u32 (totalSeglets acc
                      + LogSegment.getSegletsAllocated (h candidate));
               totalLiveBytes := u64 (totalLiveBytes acc + liveBytes);
               outSegmentsToClean := outSegmentsToClean acc ++ [candidate];
               chosenIndices := chosenIndices acc ++ [i] |}
  end.

Definition noneChosen : Chosen :=
  {| totalSeglets := 0; totalLiveBytes := 0;
     outSegmentsToClean := []; chosenIndices := [] |}.

(** [reverse_foreach (size_t i, chosenIndices)] with the removal idiom. *)
Definition removeChosen (chosenIndices : list nat) (v : list ptr)
    : list ptr :=
  fold_left (fun v i => swapRemove i v) (rev chosenIndices) v.

(** [LogCleaner::getSegmentsToClean]: the segments chosen and the
    candidates that remain.  The histogram samples are left out. *)
Definition getSegmentsToClean (c : CostBenefitComparer.t) (h : Store)
    (candidates : list ptr) : list ptr * list ptr :=
  let candidates := sortSegmentsByCostBenefit c h candidates in
  let chosen := chooseLoop h candidates 0 noneChosen in
  (outSegmentsToClean chosen, removeChosen (chosenIndices chosen) candidates).


(** **** In-memory compaction *)

(** What a compaction did: the segment compacted, its survivor and the
    locals [segletsToFree] and [bytesFreed]. *)
Record Compaction : Type := mkCompaction {
  compacted : ptr;
  compactionSurvivor : ptr;
  segletsToFree : Z;
  bytesFreed : Z
}.

(** [survivor->liveBytes += bytesAppended] *)
Definition addLiveBytes (p : ptr) (n : Z) : M unit :=
  let* s := load p in
  write p (LogSegment.set_liveBytes (u32 (LogSegment.liveBytes s + n)) s).

(** The loop of [doMemoryCleaning] over the entries of [segment]; the
    value is the local [bytesAppended]. *)
Fixpoint compactEntries (segment survivor : ptr)
    (entries : list (LogEntryType * Z * Buffer)) (bytesAppended : Z)
    : M Z :=
  match entries with
  | [] => ret bytesAppended
  | (type, offset, buffer) :: rest =>
      let reference := (segment, offset) in
      let* r := invoke (relocateEntry type buffer reference (Some survivor)
                     bytesAppended) in
      let '(s, bytesAppended) := r in
      if RelocStatus_eqb s RELOCATION_FAILED
      then throw (FatalError "Entry didn't fit into survivor!")
      else compactEntries segment survivor rest bytesAppended
  end.

(** [LogCleaner::doMemoryCleaning]; [None] where the code returns 0
    without compacting.  The metrics counters and the rate the function
    returns are left out. *)
Definition doMemoryCleaning (clock : nat -> Z) : M (option Compaction) :=
  if disableInMemoryCleaning config then ret None
  else
    let* w := get in
    let '(found, remaining) :=
      getSegmentToCompact clock (store w) (candidates w) in
    let* _ := setCandidates remaining in
    match found with
    | None => ret None
    | Some (segment, freeableSeglets) =>
        let* survivor := invoke (allocSideSegment (Some segment)) in
        match survivor with
        | None => throw (AssertionFailed "survivor != NULL")
        | Some survivor =>
            let* seg := load segment in
            let* bytesAppended :=
              compactEntries segment survivor (segmentEntries seg) 0 in
            let* _ := addLiveBytes survivor bytesAppended in
            let* sv := load survivor in
            let* seg := load segment in
            let segletsToFree :=
              u32 (u32 (LogSegment.getSegletsAllocated sv
                        - LogSegment.getSegletsAllocated seg)
                   + freeableSeglets) in
            let* _ := write survivor (close sv) in
            let* sv := load survivor in
            let '(r, sv') := freeUnusedSeglets segletsToFree sv in
            let* _ := write survivor sv' in
            let* _ := assert r "r" in
            let bytesFreed := u32 (freeableSeglets * segletSize config) in
            let* _ := modify (compactionComplete segment survivor) in
            ret (Some {| compacted := segment;
                         compactionSurvivor := survivor;
                         segletsToFree := segletsToFree;
                         bytesFreed := bytesFreed |})
        end
    end.

(** **** Disk cleaning *)

Definition sortEntriesByTimestamp (entries : list Entry) : list Entry :=
  std_sort Entry TimestampComparer entries.

(** The inner loop of [getSortedEntries] for one segment. *)
Definition entriesOf (h : Store) (segment : ptr) : list Entry :=
  map (fun e : LogEntryType * Z * Buffer =>
         let '(type, offset, buffer) := e in
         mkEntry segment offset (getTimestamp type buffer))
      (segmentEntries (h segment)).

(** [LogCleaner::getSortedEntries] *)
Definition getSortedEntries (h : Store) (segmentsToClean : list ptr)
    : list Entry :=
  sortEntriesByTimestamp (concat (map (entriesOf h) segmentsToClean)).

(** [LogCleaner::closeSurvivor] *)
Definition closeSurvivor (survivor : ptr) : M unit :=
  let* s := load survivor in
  let* _ := write survivor (close s) in
  let* _ := modify (replicatedSegment_close survivor) in
  let* s := load survivor in
  let '(r, s') :=
    freeUnusedSeglets
      (u32 (LogSegment.getSegletsAllocated s - getSegletsInUse s)) s in
  let* _ := write survivor s' in
  assert r "r".

(** The locals of [relocateLiveEntries] that live across iterations. *)
Record Relocation : Type := mkRelocation {
  survivor : option ptr;
  currentSurvivorBytesAppended : Z;
  entryBytesAppended : Z;
  bytesAppended : Z;
  outSurvivors : list ptr
}.

(** The first statement of the branch [if (s == RELOCATION_FAILED)]:
    account for and close the survivor written so far, if there is one.
    The value is [bytesAppended] afterwards. *)
Definition retireSurvivor (survivor : option ptr) (bytesAppended : Z)
    : M Z :=
  match survivor with
  | Some p =>
      let* _ := addLiveBytes p bytesAppended in
      let* _ := closeSurvivor p in
      ret 0
  | None => ret bytesAppended
  end.

(** One iteration of the loop of [relocateLiveEntries]. *)
Definition relocateStep (entry : Entry) (l : Relocation) : M Relocation :=
  let* seg := load (segment entry) in
  let '(type, buffer) := getEntry seg (offset entry) in
  let reference := (segment entry, offset entry) in
  let* r := invoke (relocateEntry type buffer reference (survivor l)
                      (bytesAppended l)) in
  let '(s, appended) := r in
  let* l :=
    (if RelocStatus_eqb s RELOCATION_FAILED then
       let* appended := retireSurvivor (survivor l) appended in
       let* fresh := invoke (allocSideSegment None) in
       match fresh with
       | None => throw (AssertionFailed "survivor != NULL")
       | Some p =>
           let* sv := load p in
           let current := LogSegment.getAppendedLength sv in
           let* r := invoke (relocateEntry type buffer reference (Some p)
                               appended) in
           let '(s, appended) := r in
           if RelocStatus_eqb s RELOCATION_FAILED
           then throw (FatalError "Entry didn't fit into empty survivor!")
           else ret {| survivor := Some p;
                       currentSurvivorBytesAppended := current;
                       entryBytesAppended := entryBytesAppended l;
                       bytesAppended := appended;
                       outSurvivors := outSurvivors l ++ [p] |}
       end
     else ret {| survivor := survivor l;
                 currentSurvivorBytesAppended :=
                   currentSurvivorBytesAppended l;
                 entryBytesAppended := entryBytesAppended l;
                 bytesAppended := appended;
                 outSurvivors := outSurvivors l |}) in
  match survivor l with
  | Some p =>
      let* sv := load p in
      let newSurvivorBytesAppended :=
        u32 (LogSegment.getAppendedLength sv) in
      ret {| survivor := survivor l;
             currentSurvivorBytesAppended := newSurvivorBytesAppended;
             entryBytesAppended :=
               u64 (entryBytesAppended l
                    + u64 (newSurvivorBytesAppended
                           - currentSurvivorBytesAppended l));
             bytesAppended := bytesAppended l;
             outSurvivors := outSurvivors l |}
  | None => ret l
  end.

Fixpoint relocateLoop (entries : list Entry) (l : Relocation)
    : M Relocation :=
  match entries with
  | [] => ret l
  | entry :: rest =>
      let* l := relocateStep entry l in
      relocateLoop rest l
  end.

(** [foreach (survivor, outSurvivors)
    survivor->replicatedSegment->sync(survivor->getAppendedLength())] *)
Fixpoint syncSurvivors (survivors : list ptr) : M unit :=
  match survivors with
  | [] => ret tt
  | p :: rest =>
      let* s := load p in
      let* _ := modify (replicatedSegment_sync p (LogSegment.getAppendedLength s)) in
      syncSurvivors rest
  end.

Definition noRelocation : Relocation :=
  {| survivor := None; currentSurvivorBytesAppended := 0;
     entryBytesAppended := 0; bytesAppended := 0; outSurvivors := [] |}.

(** [LogCleaner::relocateLiveEntries]: the bytes appended and the
    survivors created. *)
Definition relocateLiveEntries (entries : list Entry)
    : M (Z * list ptr) :=
  let* l := relocateLoop entries noRelocation in
  let* _ :=
    match survivor l with
    | Some p =>
        let* _ := addLiveBytes p (bytesAppended l) in
        closeSurvivor p
    | None => ret tt
    end in
  let* _ := syncSurvivors (outSurvivors l) in
  ret (entryBytesAppended l, outSurvivors l).

(** The sums [doDiskCleaning] accumulates over a vector of segments. *)
Definition sumLiveBytes (h : Store) (v : list ptr) : Z :=
  fold_left (fun acc p => u64 (acc + LogSegment.liveBytes (h p))) v 0.

Definition sumSeglets (h : Store) (v : list ptr) : Z :=
  fold_left
    (fun acc p => u32 (acc + LogSegment.getSegletsAllocated (h p))) v 0.

(** What a disk-cleaning pass did: the segments cleaned, the survivors,
    and the locals the code derives its metrics from. *)
Record DiskPass : Type := mkDiskPass {
  cleaned : list ptr;
  survivors : list ptr;
  segletsBefore : Z;
  segletsAfter : Z;
  segmentsBefore : Z;
  segmentsAfter : Z;
  memoryBytesFreed : Z;
  diskBytesFreed : Z
}.

(** [LogCleaner::doDiskCleaning]; [None] where no segment was chosen and
    the code returns 0.  [c] is the comparer that
    [sortSegmentsByCostBenefit] constructs.  The metrics counters and the
    rate the function returns are left out; [downCast<uint32_t>] of a
    vector's size is the size. *)
Definition doDiskCleaning (c : CostBenefitComparer.t)
    (lowOnDiskSpace : bool) : M (option DiskPass) :=
  let* w := get in
  let '(segmentsToClean, remaining) :=
    getSegmentsToClean c (store w) (candidates w) in
  let* _ := setCandidates remaining in
  if (length segmentsToClean =? 0)%nat then ret None
  else
    let entries := getSortedEntries (store w) segmentsToClean in
    let maxLiveBytes := sumLiveBytes (store w) segmentsToClean in
    let segletsBefore := sumSeglets (store w) segmentsToClean in
    let* r := relocateLiveEntries entries in
    let '(entryBytesAppended, survivors) := r in
    let* w := get in
    let segmentsAfter := Z.of_nat (length survivors) in
    let segletsAfter := sumSeglets (store w) survivors in
    let* _ := assert (entryBytesAppended <=? maxLiveBytes)
      "entryBytesAppended <= maxLiveBytes" in
    let segmentsBefore := Z.of_nat (length segmentsToClean) in
    let* _ := assert (segletsBefore >=? segletsAfter)
      "segletsBefore >= segletsAfter" in
    let* _ := assert (segmentsBefore >=? segmentsAfter)
      "segmentsBefore >= segmentsAfter" in
    let memoryBytesFreed :=
      u32 (u32 (segletsBefore - segletsAfter) * segletSize config) in
    let diskBytesFreed :=
      u32 (u32 (segmentsBefore - segmentsAfter) * segmentSize config) in
    let* _ := modify (cleaningComplete segmentsToClean survivors) in
    ret (Some {| cleaned := segmentsToClean;
                 survivors := survivors;
                 segletsBefore := segletsBefore;
                 segletsAfter := segletsAfter;
                 segmentsBefore := segmentsBefore;
                 segmentsAfter := segmentsAfter;
                 memoryBytesFreed := memoryBytesFreed;
                 diskBytesFreed := diskBytesFreed |}).

End WithCollaborators.
End LogCleaner.

(** ** The collaborators as the specification describes them *)

Module SpecModel.

(** Modelled from the spec: the framing of an entry, "type:u8, length:u32
    (LE), payload[length]"; Segment.h is not among the sources. *)
Definition ENTRY_HEADER_LENGTH : Z := 5.

Definition entryLength (buffer : Buffer) : Z :=
  ENTRY_HEADER_LENGTH + Z.of_nat (length buffer).

(** Modelled from the spec: [iterate()] "yields (type, offset, bytes) in
    append order"; SegmentIterator is not among the sources. *)
Fixpoint entriesFrom (offset : Z) (contents : list (LogEntryType * Buffer))
    : list (LogEntryType * Z * Buffer) :=
  match contents with
  | [] => []
  | (type, buffer) :: rest =>
      (type, offset, buffer) :: entriesFrom (offset + entryLength buffer) rest
  end.

Definition segmentEntries (s : LogSegment.t)
    : list (LogEntryType * Z * Buffer) :=
  entriesFrom 0 (LogSegment.contents s).

(** Modelled from the spec: [getEntry(offset) -> (type, bytes)];
    Segment::getEntry is not among the sources. *)
Definition getEntry (s : LogSegment.t) (offset : Z)
    : LogEntryType * Buffer :=
  match
    find (fun e : LogEntryType * Z * Buffer => snd (fst e) =? offset)
         (segmentEntries s)
  with
  | Some (type, _, buffer) => (type, buffer)
  | None => (LOG_ENTRY_TYPE_OTHER 0, [])
  end.

Section WithConfig.
Variable config : Config.

(** Modelled from the spec: a segment "allocates a vector of seglets" of
    [segletSize] bytes each and [segletsInUse] are those the appended
    bytes reach into; Segment::getSegletsInUse is not among the sources. *)
Definition getSegletsInUse (s : LogSegment.t) : Z :=
  (LogSegment.appendedLength s + segletSize config - 1) / segletSize config.

(** Modelled from the spec: the memory utilization of a segment is the
    percentage of its allocated seglets' bytes that are live, the quantity
    [segletsNeeded] is "calibrated" against;
    LogSegment::getMemoryUtilization is not among the sources. *)
Definition getMemoryUtilization (s : LogSegment.t) : Z :=
  100 * LogSegment.liveBytes s
  / (LogSegment.segletsAllocated s * segletSize config).

(** Modelled from the spec: the disk utilization of a segment is the
    percentage of the segment's bytes that are live;
    LogSegment::getDiskUtilization is not among the sources. *)
Definition getDiskUtilization (s : LogSegment.t) : Z :=
  100 * LogSegment.liveBytes s / segmentSize config.

(** Modelled from the spec: [append(type, bytes) -> (offset | NO_SPACE)]
    "writes header + payload, updates cursor", and "closed segments never
    accept appends"; Segment::append is not among the sources. *)
Definition append (type : LogEntryType) (buffer : Buffer) (s : LogSegment.t)
    : option (Z * LogSegment.t) :=
  let capacity := LogSegment.segletsAllocated s * segletSize config in
  if LogSegment.closed s
     || (capacity <? LogSegment.appendedLength s + entryLength buffer)
  then None
  else
    Some (LogSegment.appendedLength s,
          LogSegment.mk
            (LogSegment.contents s ++ [(type, buffer)])
            false
            (LogSegment.appendedLength s + entryLength buffer)
            (LogSegment.segletsAllocated s)
            (LogSegment.liveBytes s)
            (fun type' =>
               if LogEntryType_eqb type' type
               then LogSegment.entryCounts s type' + 1
               else LogSegment.entryCounts s type')
            (LogSegment.creationTimestamp s)
            (LogSegment.lastCompactionTimestamp s)
            (LogSegment.costBenefit s)
            (LogSegment.costBenefitVersion s)).

(** Modelled from the spec: [close()] "marks immutable"; Segment::close is
    not among the sources. *)
Definition close (s : LogSegment.t) : LogSegment.t :=
  LogSegment.mk (LogSegment.contents s) true (LogSegment.appendedLength s)
    (LogSegment.segletsAllocated s) (LogSegment.liveBytes s)
    (LogSegment.entryCounts s) (LogSegment.creationTimestamp s)
    (LogSegment.lastCompactionTimestamp s) (LogSegment.costBenefit s)
    (LogSegment.costBenefitVersion s).

(** Modelled from the spec: [freeUnusedSeglets(n) -> bool] returns the
    trailing [n] seglets to the allocator and "MUST fail loudly if
    n > allocatedSeglets - segletsInUse"; Segment::freeUnusedSeglets is
    not among the sources. *)
Definition freeUnusedSeglets (n : Z) (s : LogSegment.t)
    : bool * LogSegment.t :=
  if n >? LogSegment.segletsAllocated s - getSegletsInUse s then (false, s)
  else
    (true,
     LogSegment.mk (LogSegment.contents s) (LogSegment.closed s)
       (LogSegment.appendedLength s) (LogSegment.segletsAllocated s - n)
       (LogSegment.liveBytes s) (LogSegment.entryCounts s)
       (LogSegment.creationTimestamp s)
       (LogSegment.lastCompactionTimestamp s) (LogSegment.costBenefit s)
       (LogSegment.costBenefitVersion s)).

(** Modelled from the spec: the external state is the key registry behind
    [EntryHandlers.liveness] and the segment manager's supply of survivor
    segments; MasterService and SegmentManager are not among the
    sources. *)
Record External : Type := mkExternal {
  liveness : Reference -> bool;
  nextSegment : ptr
}.

Definition Reference_eqb (a b : Reference) : bool :=
  Nat.eqb (fst a) (fst b) && (snd a =? snd b).

(** Modelled from the spec: a survivor is "freshly allocated" with
    [segletsPerSegment = segmentSize / segletSize] seglets and nothing
    appended; Segment's constructor is not among the sources. *)
Definition emptySegment : LogSegment.t :=
  LogSegment.mk [] false 0 (segmentSize config / segletSize config) 0
    (fun _ => 0) 0 0 0 0.

(** Modelled from the spec: [allocSideSegment(FOR_CLEANING |
    MUST_NOT_FAIL)] "allocates a survivor segment from the reserved pool"
    and with [MUST_NOT_FAIL] does not return none;
    SegmentManager::allocSideSegment is not among the sources. *)
Definition allocSideSegment (replacing : option ptr) (w : World External)
    : option ptr * World External :=
  let p := nextSegment (external w) in
  (Some p,
   mkWorld (update (store w) p emptySegment) (candidates w)
     (mkExternal (liveness (external w)) (S p))).

(** Modelled from the spec: the relocation protocol, "1. liveness ... if
    not live -> NOT_NEEDED. 2. Attempt survivor.append; on no-space ->
    RELOCATION_FAILED (nothing written). 3. On success, invoke
    EntryHandlers.relocated ... Add the appended length to bytesAppended.
    4. Return RELOCATED"; LogCleaner::relocateEntry is declared in
    LogCleaner.h, which is not among the sources.  There is no space in a
    survivor that does not exist. *)
Definition relocateEntry (type : LogEntryType) (buffer : Buffer)
    (reference : Reference) (survivor : option ptr) (bytesAppended : Z)
    (w : World External) : RelocStatus * Z * World External :=
  if negb (liveness (external w) reference)
  then (NOT_NEEDED, bytesAppended, w)
  else
    match survivor with
    | None => (RELOCATION_FAILED, bytesAppended, w)
    | Some p =>
        match append type buffer (store w p) with
        | None => (RELOCATION_FAILED, bytesAppended, w)
        | Some (offset, s) =>
            let newReference : Reference := (p, offset) in
            (RELOCATED, u32 (bytesAppended + entryLength buffer),
             mkWorld (update (store w) p s) (candidates w)
               (mkExternal
                  (fun r =>
                     if Reference_eqb r newReference then true
                     else if Reference_eqb r reference then false
                     else liveness (external w) r)
                  (nextSegment (external w))))
        end
    end.

(** Modelled from the spec: [compactionComplete(old, new)] "swaps old's
    seglets for new's (same segmentId retained), replacing the in-place
    segment"; SegmentManager::compactionComplete is not among the
    sources. *)
Definition compactionComplete (old new : ptr) (w : World External)
    : World External :=
  mkWorld (update (store w) old (store w new)) (candidates w) (external w).

(** [std::sort], here by insertion from the back. *)
Fixpoint insertSorted {A : Type} (comp : A -> A -> bool) (x : A)
    (l : list A) : list A :=
  match l with
  | [] => [x]
  | y :: rest =>
      if comp x y then x :: y :: rest else y :: insertSorted comp x rest
  end.

Definition insertionSort (A : Type) (comp : A -> A -> bool) (l : list A)
    : list A :=
  fold_right (insertSorted comp) [] l.

(** Modelled from the spec: the collaborators of the cleaner.  The two
    constants of LogCleaner.h are arguments ("tunable, with defaults");
    entries are sorted "ascending by timestamp"; the timestamp of an entry
    is not located by the specification and is 0 here; the backup and the
    segment manager's bookkeeping at the end of a disk pass are outside the
    store. *)
Definition collaborators (maxCleanableMemoryUtilization
    maxLiveSegmentsPerDiskPass : Z) : Collaborators :=
  Build_Collaborators
    maxCleanableMemoryUtilization
    maxLiveSegmentsPerDiskPass
    getMemoryUtilization
    getDiskUtilization
    getSegletsInUse
    close
    freeUnusedSeglets
    segmentEntries
    getEntry
    insertionSort
    (fun a b => timestamp a <? timestamp b)
    External
    allocSideSegment
    relocateEntry
    (fun _ _ => 0)
    (fun _ w => w)
    (fun _ _ w => w)
    compactionComplete
    (fun _ _ w => w).

End WithConfig.

(** Modelled from the spec: the collaborators of [Key]; MurmurHash3 and the
    classes [Object] and [ObjectTombstone] are not among the sources.  Both
    payloads begin with "(tableId: u64, keyLen: u16, key: bytes, ...)",
    read here as little-endian like the entry framing; the hash function
    is an argument. *)
Fixpoint littleEndian (bytes : list Byte.byte) : Z :=
  match bytes with
  | [] => 0
  | b :: rest => Z.of_N (Byte.to_N b) + 256 * littleEndian rest
  end.

Definition payloadTableId (buffer : Buffer) : Z :=
  littleEndian (firstn 8 buffer).

Definition payloadKeyLength (buffer : Buffer) : Z :=
  littleEndian (firstn 2 (skipn 8 buffer)).

Definition payloadKey (buffer : Buffer) : list Byte.byte :=
  skipn 10 buffer.

Definition keyCollaborators
    (hash : list Byte.byte -> Z -> Z -> Z * Z) : Key.Collaborators :=
  {| Key.MurmurHash3_x64_128 := hash;
     Key.Object_getTableId := payloadTableId;
     Key.Object_getKeyLength := payloadKeyLength;
     Key.Object_getKey := payloadKey;
     Key.ObjectTombstone_getTableId := payloadTableId;
     Key.ObjectTombstone_getKeyLength := payloadKeyLength;
     Key.ObjectTombstone_getKey := payloadKey |}.

End SpecModel.

(** ** Concrete segments and worlds *)

Module Scenario.

(** The defaults of the specification: seglets of 64 KiB, segments of
    8 MiB, and 90 for [MAX_CLEANABLE_MEMORY_UTILIZATION]; ten segments'
    worth of live bytes per disk pass. *)
Definition config : Config :=
  {| segletSize := 65536; segmentSize := 8388608;
     disableInMemoryCleaning := false |}.

Definition cleaner : Collaborators := SpecModel.collaborators config 90 10.

(** A closed segment of which only the counters matter. *)
Definition counters (liveBytes segletsAllocated tombstones creation
    lastCompaction : Z) : LogSegment.t :=
  LogSegment.mk [] true liveBytes segletsAllocated liveBytes
    (fun type =>
       if LogEntryType_eqb type LOG_ENTRY_TYPE_OBJTOMB then tombstones else 0)
    creation lastCompaction 0 0.

Definition storeOf (segments : list LogSegment.t) : Store :=
  fun p => nth p segments (SpecModel.emptySegment config).

(** Nine seglets' worth of live bytes in eleven seglets. *)
Definition nineOfEleven : LogSegment.t := counters 589824 11 0 40 40.

(** One seglet's worth of live bytes in ten seglets; nothing live in nine
    seglets; half a segment live in all 128 seglets. *)
Definition oneOfTen : LogSegment.t := counters 65536 10 0 40 40.
Definition noneOfNine : LogSegment.t := counters 0 9 0 40 40.
Definition halfFull : LogSegment.t := counters 4194304 128 0 40 40.

(** Half a segment live, created at second 200. *)
Definition fromTheFuture : LogSegment.t := counters 4194304 128 0 200 40.

(** Full segments with tombstones, last compacted at seconds 50, 20
    and 30. *)
Definition tombstonesNow : LogSegment.t := counters 65536 1 5 40 50.

(** A quarter of a segment live, packed into 32 seglets that are full. *)
Definition packed : LogSegment.t := counters 2097152 32 0 40 40.

(** A cleaner that takes one segment's worth of live bytes per pass. *)
Definition tightCleaner : Collaborators := SpecModel.collaborators config 90 1.

(** The comparer constructed at second 100. *)
Definition comparer : CostBenefitComparer.t :=
  {| CostBenefitComparer.now := 100; CostBenefitComparer.version := 7 |}.

(** The clock reads second 50 whenever it is asked. *)
Definition clock : nat -> Z := fun _ => 50.

(** The first end-to-end scenario of the specification: segments of
    64 KiB in seglets of 8 KiB. *)
Definition smallConfig : Config :=
  {| segletSize := 8192; segmentSize := 65536;
     disableInMemoryCleaning := false |}.

Definition smallCleaner : Collaborators :=
  SpecModel.collaborators smallConfig 90 10.

(** A closed segment holding one object of 100 bytes, which is live. *)
Definition oneObject : LogSegment.t :=
  LogSegment.mk [(LOG_ENTRY_TYPE_OBJ, repeat Byte.x00 100)] true 105 8 105
    (fun type => if LogEntryType_eqb type LOG_ENTRY_TYPE_OBJ then 1 else 0)
    40 40 0 0.

Definition oneObjectWorld : World SpecModel.External :=
  {| store := fun p =>
       match p with
       | O => oneObject
       | _ => SpecModel.emptySegment smallConfig
       end;
     candidates := [0%nat];
     external :=
       {| SpecModel.liveness := fun _ => true;
          SpecModel.nextSegment := 1%nat |} |}.

(** Segments of 16 bytes in seglets of 8 bytes, and a segment that holds
    a live object of 20 bytes in six such seglets. *)
Definition tinyConfig : Config :=
  {| segletSize := 8; segmentSize := 16; disableInMemoryCleaning := false |}.

Definition tinyCleaner : Collaborators :=
  SpecModel.collaborators tinyConfig 90 10.

Definition bigObject : LogSegment.t :=
  LogSegment.mk [(LOG_ENTRY_TYPE_OBJ, repeat Byte.x00 20)] true 25 6 25
    (fun type => if LogEntryType_eqb type LOG_ENTRY_TYPE_OBJ then 1 else 0)
    40 40 0 0.

Definition bigObjectWorld : World SpecModel.External :=
  {| store := fun p =>
       match p with
       | O => bigObject
       | _ => SpecModel.emptySegment tinyConfig
       end;
     candidates := [0%nat];
     external :=
       {| SpecModel.liveness := fun _ => true;
          SpecModel.nextSegment := 1%nat |} |}.

(** A stand-in for the hash function, and keys of table 7. *)
Definition toyHash (bytes : list Byte.byte) (len seed : Z) : Z * Z :=
  (seed * 65536 + len * 256 + SpecModel.littleEndian (firstn 1 bytes), 0).

Definition keys : Key.Collaborators := SpecModel.keyCollaborators toyHash.

Definition keyK : Key.t := Key.fromString 7 [Byte.x6b] 1.

(** A disk-cleaning pass over the world with the one object: the pass it
    reports and the world it leaves. *)
Definition diskRun
    : Result (option LogCleaner.DiskPass * World SpecModel.External) :=
  @LogCleaner.doDiskCleaning smallCleaner smallConfig comparer true
    oneObjectWorld.

Definition diskPass : LogCleaner.DiskPass :=
  match diskRun with
  | Ok (Some pass, _) => pass
  | _ => LogCleaner.mkDiskPass [] [] 0 0 0 0 0 0
  end.

Definition diskWorld : World SpecModel.External :=
  match diskRun with
  | Ok (_, w) => w
  | Throw _ => oneObjectWorld
  end.

(** The world with the big object once a survivor has been allocated, for
    disk cleaning and for compaction. *)
Definition bigObjectSurvivorWorld : World SpecModel.External :=
  snd (SpecModel.allocSideSegment tinyConfig None bigObjectWorld).

Definition bigObjectCompactionWorld : World SpecModel.External :=
  snd (SpecModel.allocSideSegment tinyConfig (Some 0%nat)
         (mkWorld (store bigObjectWorld) [] (external bigObjectWorld))).

(** A segment that holds a live object of 5 bytes and a live object of 20
    bytes, the world with it, and the relocation of the first of the two
    entries, which starts the survivor at address 1. *)
Definition twoObjects : LogSegment.t :=
  LogSegment.mk
    [(LOG_ENTRY_TYPE_OBJ, repeat Byte.x00 5);
     (LOG_ENTRY_TYPE_OBJ, repeat Byte.x00 20)]
    true 35 6 35
    (fun type => if LogEntryType_eqb type LOG_ENTRY_TYPE_OBJ then 2 else 0)
    40 40 0 0.

Definition twoObjectsWorld : World SpecModel.External :=
  {| store := fun p =>
       match p with
       | O => twoObjects
       | _ => SpecModel.emptySegment tinyConfig
       end;
     candidates := [];
     external :=
       {| SpecModel.liveness := fun _ => true;
          SpecModel.nextSegment := 1%nat |} |}.

Definition firstRelocated (w : World SpecModel.External)
    : Result (LogCleaner.Relocation * World SpecModel.External) :=
  @LogCleaner.relocateLoop tinyCleaner [mkEntry 0%nat 0 0]
    LogCleaner.noRelocation w.

Definition afterFirst (w : World SpecModel.External)
    : LogCleaner.Relocation :=
  match firstRelocated w with
  | Ok (l, _) => l
  | Throw _ => LogCleaner.noRelocation
  end.

Definition afterFirstWorld (w : World SpecModel.External)
    : World SpecModel.External :=
  match firstRelocated w with
  | Ok (_, w') => w'
  | Throw _ => w
  end.

(** The same with a second object of 6 bytes, which does not fit the
    first survivor either but fits a fresh one. *)
Definition twoSmallObjects : LogSegment.t :=
  LogSegment.mk
    [(LOG_ENTRY_TYPE_OBJ, repeat Byte.x00 5);
     (LOG_ENTRY_TYPE_OBJ, repeat Byte.x00 6)]
    true 21 6 21
    (fun type => if LogEntryType_eqb type LOG_ENTRY_TYPE_OBJ then 2 else 0)
    40 40 0 0.

Definition twoSmallObjectsWorld : World SpecModel.External :=
  {| store := fun p =>
       match p with
       | O => twoSmallObjects
       | _ => SpecModel.emptySegment tinyConfig
       end;
     candidates := [];
     external :=
       {| SpecModel.liveness := fun _ => true;
          SpecModel.nextSegment := 1%nat |} |}.

End Scenario.

(** ** The formulas of the specification *)

Module Spec.

(** Written after the specification, section 4.6.2:
    [segletsNeeded = ceil(100 * liveBytes /
                          (segletSize * MAX_CLEANABLE_MEMORY_UTILIZATION))]. *)
Definition segletsNeeded (segletSize maxUtilization liveBytes : Z) : Z :=
  (100 * liveBytes + segletSize * maxUtilization - 1)
  / (segletSize * maxUtilization).

(** [delta = allocatedSeglets - segletsNeeded] *)
Definition delta (segletSize maxUtilization : Z) (s : LogSegment.t) : Z :=
  LogSegment.segletsAllocated s
  - segletsNeeded segletSize maxUtilization (LogSegment.liveBytes s).

(** Written after the specification, section 4.6.3:
    [costBenefit = ((100 - diskUtil) * age) / diskUtil] with
    [age = now - creationTimestamp], on the integers. *)
Definition costBenefit (now creationTimestamp diskUtil : Z) : Z :=
  ((100 - diskUtil) * (now - creationTimestamp)) / diskUtil.

(** [tombstoneCount * (now - lastCompactionTimestamp)] *)
Definition goodness (now : Z) (s : LogSegment.t) : Z :=
  LogSegment.entryCounts s LOG_ENTRY_TYPE_OBJTOMB
  * (now - LogSegment.lastCompactionTimestamp s).

End Spec.

(** ** Notions the properties are stated with *)

Module Aux.

(** The shape the two loops of [getSegmentToCompact] share: walk the
    vector and remember the first index whose score exceeds all scores
    before it, together with that score. *)
Fixpoint firstMax (score : nat -> ptr -> Z) (v : list ptr) (i : nat)
    (bestIndex : option nat) (best : Z) : option nat * Z :=
  match v with
  | [] => (bestIndex, best)
  | p :: rest =>
      if score i p >? best
      then firstMax score rest (S i) (Some i) (score i p)
      else firstMax score rest (S i) bestIndex best
  end.

(** Slot [k] of [v] holds [p], no slot scores higher, and every slot before
    it scores lower. *)
Definition FirstMax (score : nat -> ptr -> Z) (v : list ptr) (k : nat)
    (p : ptr) : Prop :=
  v !! k = Some p /\
  (forall j q, v !! j = Some q -> score j q <= score k p) /\
  (forall j q, (j < k)%nat -> v !! j = Some q -> score j q < score k p).

(** Exact totals over a vector of segments. *)
Definition totalLiveBytes (h : Store) (v : list ptr) : Z :=
  fold_right (fun p acc => LogSegment.liveBytes (h p) + acc) 0 v.

Definition totalSeglets (h : Store) (v : list ptr) : Z :=
  fold_right (fun p acc => LogSegment.segletsAllocated (h p) + acc) 0 v.

(** Two states of a segment that differ at most in the two members
    [costBenefit] and [costBenefitVersion], which belong to the comparer
    of a sort. *)
Definition sameStatistics (s s' : LogSegment.t) : Prop :=
  LogSegment.contents s = LogSegment.contents s' /\
  LogSegment.closed s = LogSegment.closed s' /\
  LogSegment.appendedLength s = LogSegment.appendedLength s' /\
  LogSegment.segletsAllocated s = LogSegment.segletsAllocated s' /\
  LogSegment.liveBytes s = LogSegment.liveBytes s' /\
  LogSegment.entryCounts s = LogSegment.entryCounts s' /\
  LogSegment.creationTimestamp s = LogSegment.creationTimestamp s' /\
  LogSegment.lastCompactionTimestamp s
  = LogSegment.lastCompactionTimestamp s'.

(** What the second loop of [getSegmentToCompact] compares a candidate by,
    on the integers: the tombstones times the seconds since the last
    compaction, the difference of the two 32-bit timestamps being formed
    without a sign, so that it wraps around for a segment compacted after
    the clock was read. *)
Definition tombstoneScore (now : Z) (s : LogSegment.t) : Z :=
  LogSegment.entryCounts s LOG_ENTRY_TYPE_OBJTOMB
  * ((now - LogSegment.lastCompactionTimestamp s) mod 2 ^ 32).

Section WithCollaborators.
Context `{Collaborators}.
Variable config : Config.

(** The seglets a compaction of [s] may free, on the integers. *)
Definition freeable (s : LogSegment.t) : Z :=
  LogSegment.segletsAllocated s
  - LogCleaner.segletsNeeded config (LogSegment.liveBytes s).

(** What the first loop of [getSegmentToCompact] compares a candidate by:
    its [delta] if the guard [segletsNeeded < segletsAllocated] lets it
    through, and 0 if not. *)
Definition guardedDelta (s : LogSegment.t) : Z :=
  if LogCleaner.segletsNeeded config (LogSegment.liveBytes s)
     <? LogSegment.getSegletsAllocated s
  then LogCleaner.delta config s
  else 0.

(** The test [utilization > MAX_CLEANABLE_MEMORY_UTILIZATION] failed. *)
Definition cleanable (h : Store) (p : ptr) : bool :=
  negb (getMemoryUtilization (h p) >? MAX_CLEANABLE_MEMORY_UTILIZATION).

End WithCollaborators.
End Aux.

(** ** The cleaner's threads *)

Module CleanerThread.

(** [static_cast<int>] of a [uint32_t]. *)
Definition toInt (z : Z) : Z := (z + 2 ^ 31) mod 2 ^ 32 - 2 ^ 31.

(** What the constructor, [start], [stop] and [doWork] call and the
    sources do not contain: the remaining constants of LogCleaner.h, the
    segment manager's and the allocator's gauges (read anew at every
    call, other threads being at work), the random number generator,
    [usleep], and [std::thread]. *)
Class Runtime `{Collaborators} : Type := {
  MIN_MEMORY_UTILIZATION : Z;
  MEMORY_DEPLETED_UTILIZATION : Z;
  MIN_DISK_UTILIZATION : Z;
  POLL_USEC : Z;
  SURVIVOR_SEGMENTS_TO_RESERVE : Z;
  (** [segmentManager.cleanableSegments(candidates)] *)
  cleanableSegments : World External -> World External;
  (** [segmentManager.getAllocator().getMemoryUtilization()] *)
  allocatorMemoryUtilization : World External -> Z * World External;
  (** [segmentManager.getSegmentUtilization()] *)
  getSegmentUtilization : World External -> Z * World External;
  generateRandom : World External -> Z * World External;
  usleep : Z -> World External -> World External;
  (** [segmentManager.initializeSurvivorReserve(n)] *)
  initializeSurvivorReserve : Z -> World External -> bool * World External;
  (** [new std::thread(cleanerThreadEntry, this, context)], and [join]
      followed by [delete]. *)
  newThread : World External -> nat * World External;
  joinThread : nat -> World External -> World External
}.

(** The members of [ServerConfig] the constructor reads. *)
Record ServerConfig : Type := mkServerConfig {
  cleanerWriteCostThreshold : Z;
  masterDisableInMemoryCleaning : bool;
  cleanerThreadCount : Z;
  configSegletSize : Z;
  configSegmentSize : Z
}.

(** The members of [LogCleaner] beside the candidates: the configuration,
    and the thread handles, [None] being [NULL]. *)
Record t : Type := mkCleaner {
  config : Config;
  writeCostThreshold : Z;
  numThreads : Z;
  threadsShouldExit : bool;
  threads : list (option nat)
}.

(** What one call of [doWork] did. *)
Inductive Work : Type :=
| DiskCleaning (pass : option LogCleaner.DiskPass)
| MemoryCleaning (compaction : option LogCleaner.Compaction)
| Sleep (usec : Z).

Notation "'let*' x ':=' m 'in' k" := (LogCleaner.bind m (fun x => k))
  (at level 10, x name, m at level 100, k at level 200, only parsing).

Section WithRuntime.
Context `{Runtime}.

(** [LogCleaner::LogCleaner] *)
Definition construct (serverConfig : ServerConfig) : LogCleaner.M t :=
  let numThreads := cleanerThreadCount serverConfig in
  let* _ := LogCleaner.setCandidates [] in
  let* reserved :=
    LogCleaner.invoke
      (initializeSurvivorReserve
         (numThreads * SURVIVOR_SEGMENTS_TO_RESERVE)) in
  if negb reserved
  then LogCleaner.throw (FatalError "Could not reserve survivor segments")
  else
    let disableInMemoryCleaning :=
      if cleanerWriteCostThreshold serverConfig =? 0 then true
      else masterDisableInMemoryCleaning serverConfig in
    LogCleaner.ret
      {| config :=
           {| segletSize := configSegletSize serverConfig;
              segmentSize := configSegmentSize serverConfig;
              disableInMemoryCleaning := disableInMemoryCleaning |};
         writeCostThreshold := cleanerWriteCostThreshold serverConfig;
         numThreads := numThreads;
         threadsShouldExit := false;
         threads := repeat None (Z.to_nat numThreads) |}.

(** The body of the loop of [start] for index [i]; an index beyond the
    vector, which the constructor rules out, is passed over. *)
Definition startThread (threads : list (option nat)) (i : nat)
    : LogCleaner.M (list (option nat)) :=
  match threads !! i with
  | Some None =>
      let* thread := LogCleaner.invoke newThread in
      LogCleaner.ret (<[i := Some thread]> threads)
  | _ => LogCleaner.ret threads
  end.

(** The body of the loop of [stop] for index [i]. *)
Definition stopThread (threads : list (option nat)) (i : nat)
    : LogCleaner.M (list (option nat)) :=
  match threads !! i with
  | Some (Some thread) =>
      let* _ := LogCleaner.modify (joinThread thread) in
      LogCleaner.ret (<[i := None]> threads)
  | _ => LogCleaner.ret threads
  end.

(** [for (int i = 0; i < numThreads; i++)] over the thread handles. *)
Fixpoint forThreads
    (body : list (option nat) -> nat -> LogCleaner.M (list (option nat)))
    (indices : list nat) (threads : list (option nat))
    : LogCleaner.M (list (option nat)) :=
  match indices with
  | [] => LogCleaner.ret threads
  | i :: rest =>
      let* threads := body threads i in
      forThreads body rest threads
  end.

(** [LogCleaner::start] *)
Definition start (cleaner : t) : LogCleaner.M t :=
  let* threads :=
    forThreads startThread (seq 0 (Z.to_nat (numThreads cleaner)))
      (threads cleaner) in
  LogCleaner.ret
    {| config := config cleaner;
       writeCostThreshold := writeCostThreshold cleaner;
       numThreads := numThreads cleaner;
       threadsShouldExit := threadsShouldExit cleaner;
       threads := threads |}.

(** [LogCleaner::stop]: the flag is raised while the threads are joined
    and lowered at the end. *)
Definition stop (cleaner : t) : LogCleaner.M t :=
  let* threads :=
    forThreads stopThread (seq 0 (Z.to_nat (numThreads cleaner)))
      (threads cleaner) in
  LogCleaner.ret
    {| config := config cleaner;
       writeCostThreshold := writeCostThreshold cleaner;
       numThreads := numThreads cleaner;
       threadsShouldExit := false;
       threads := threads |}.

(** The end of [doWork]: sleep for [POLL_USEC] and a random part of its
    tenth. *)
Definition sleep : LogCleaner.M Work :=
  let* random := LogCleaner.invoke generateRandom in
  let r := u32 (u64 random mod POLL_USEC) / 10 in
  let usec := u32 (POLL_USEC + r) in
  let* _ := LogCleaner.modify (usleep usec) in
  LogCleaner.ret (Sleep usec).

(** [LogCleaner::doWork] for the thread numbered [threadNumber]; [c] and
    [clock] are the comparer and the clock readings of the pass it may
    run.  The value is the cleaning done, or [None] where the code clears
    or never sets [haveWorkToDo]. *)
Definition work (cleaner : t) (c : CostBenefitComparer.t) (clock : nat -> Z)
    (threadNumber : Z) : LogCleaner.M (option Work) :=
  let* _ := LogCleaner.modify cleanableSegments in
  let* memUtil := LogCleaner.invoke allocatorMemoryUtilization in
  let* utilization := LogCleaner.invoke allocatorMemoryUtilization in
  let lowOnMemory := utilization >=? MIN_MEMORY_UTILIZATION in
  let* utilization := LogCleaner.invoke allocatorMemoryUtilization in
  let notKeepingUp := utilization >=? MEMORY_DEPLETED_UTILIZATION in
  let* utilization := LogCleaner.invoke getSegmentUtilization in
  let lowOnDiskSpace := utilization >=? MIN_DISK_UTILIZATION in
  let haveWorkToDo := lowOnMemory || lowOnDiskSpace in
  if haveWorkToDo then
    if threadNumber =? 0 then
      if lowOnDiskSpace || notKeepingUp then
        let* pass :=
          LogCleaner.doDiskCleaning (config cleaner) c lowOnDiskSpace in
        LogCleaner.ret (Some (DiskCleaning pass))
      else
        let* compaction :=
          LogCleaner.doMemoryCleaning (config cleaner) clock in
        LogCleaner.ret (Some (MemoryCleaning compaction))
    else
      let threshold := 90 + 2 * toInt threadNumber in
      if memUtil >=? Z.min 99 threshold then
        let* compaction :=
          LogCleaner.doMemoryCleaning (config cleaner) clock in
        LogCleaner.ret (Some (MemoryCleaning compaction))
      else LogCleaner.ret None
  else LogCleaner.ret None.

Definition doWork (cleaner : t) (c : CostBenefitComparer.t)
    (clock : nat -> Z) (threadNumber : Z) : LogCleaner.M Work :=
  let* done := work cleaner c clock threadNumber in
  match done with
  | Some cleaning => LogCleaner.ret cleaning
  | None => sleep
  end.

End WithRuntime.
End CleanerThread.

(** ** A runtime as the specification describes it *)

Module Deployment.

(** Modelled from the spec: what the worker loop reads and calls beside
    the cleaning passes.  The thresholds are the defaults of section
    4.6.1, "MIN_MEMORY_UTILIZATION (e.g. 90%)", "MEMORY_DEPLETED_UTILIZATION
    (e.g. 98%)" and "MIN_DISK_UTILIZATION (e.g. 95%)"; the poll interval
    and the survivors reserved per thread are given no value there and are
    arguments, as are the two gauges and the random number.
    [cleanableSegments] "drains newly CLEANABLE segments into the cleaner's
    candidate vector (deduplicated)"; [initializeSurvivorReserve(n)] is the
    allocator's [reserve], which "fails if fewer than n seglets are
    currently free"; a thread, like a survivor, is a fresh address.
    LogCleaner.h, SegmentManager and the allocator are not among the
    sources. *)
Definition runtime (config : Config) (maxUtilization maxLive : Z)
    (pollUsec survivorsPerThread : Z)
    (memoryUtilization segmentUtilization random freeSegments : Z)
    (newlyCleanable : list ptr)
    : @CleanerThread.Runtime
        (SpecModel.collaborators config maxUtilization maxLive) :=
  @CleanerThread.Build_Runtime
    (SpecModel.collaborators config maxUtilization maxLive)
    90 98 95 pollUsec survivorsPerThread
    (fun w =>
       mkWorld (store w)
         (candidates w
          ++ List.filter
               (fun p => negb (existsb (Nat.eqb p) (candidates w)))
               newlyCleanable)
         (external w))
    (fun w => (memoryUtilization, w))
    (fun w => (segmentUtilization, w))
    (fun w => (random, w))
    (fun _ w => w)
    (fun n w => (n <=? freeSegments, w))
    (fun w =>
       (SpecModel.nextSegment (external w),
        mkWorld (store w) (candidates w)
          (SpecModel.mkExternal (SpecModel.liveness (external w))
             (S (SpecModel.nextSegment (external w))))))
    (fun _ w => w).

(** The collaborators and the configuration of the small scenario, with a
    poll interval of 10 ms and two survivors reserved per thread; memory
    is 92 percent full, the disk 40 percent, and 8 segments are free. *)
Definition busy : @CleanerThread.Runtime Scenario.smallCleaner :=
  runtime Scenario.smallConfig 90 10 10000 2 92 40 123456789 8 [].

(** The same with the disk 96 percent full. *)
Definition diskFull : @CleanerThread.Runtime Scenario.smallCleaner :=
  runtime Scenario.smallConfig 90 10 10000 2 92 96 123456789 8 [].

(** The same with memory 50 percent full and the disk 40 percent. *)
Definition idle : @CleanerThread.Runtime Scenario.smallCleaner :=
  runtime Scenario.smallConfig 90 10 10000 2 50 40 123456789 8 [].

Definition serverConfig : CleanerThread.ServerConfig :=
  {| CleanerThread.cleanerWriteCostThreshold := 8;
     CleanerThread.masterDisableInMemoryCleaning := false;
     CleanerThread.cleanerThreadCount := 3;
     CleanerThread.configSegletSize := 8192;
     CleanerThread.configSegmentSize := 65536 |}.

(** A server whose write cost threshold is 0. *)
Definition noCompaction : CleanerThread.ServerConfig :=
  {| CleanerThread.cleanerWriteCostThreshold := 0;
     CleanerThread.masterDisableInMemoryCleaning := false;
     CleanerThread.cleanerThreadCount := 3;
     CleanerThread.configSegletSize := 8192;
     CleanerThread.configSegmentSize := 65536 |}.

(** A cleaner of three threads of which the second is running. *)
Definition cleaner : CleanerThread.t :=
  {| CleanerThread.config := Scenario.smallConfig;
     CleanerThread.writeCostThreshold := 8;
     CleanerThread.numThreads := 3;
     CleanerThread.threadsShouldExit := false;
     CleanerThread.threads := [None; Some 5%nat; None] |}.

(** What a run returned and the world it left, where it ended well. *)
Definition valueOf {A W : Type} (run : Result (A * W)) (otherwise : A) : A :=
  match run with
  | Ok (a, _) => a
  | Throw _ => otherwise
  end.

Definition worldOf {A W : Type} (run : Result (A * W)) (otherwise : W) : W :=
  match run with
  | Ok (_, w) => w
  | Throw _ => otherwise
  end.

Definition passOf (work : CleanerThread.Work)
    : option LogCleaner.DiskPass :=
  match work with
  | CleanerThread.DiskCleaning pass => pass
  | _ => None
  end.

Definition compactionOf (work : CleanerThread.Work)
    : option LogCleaner.Compaction :=
  match work with
  | CleanerThread.MemoryCleaning compaction => compaction
  | _ => None
  end.

Definition usecOf (work : CleanerThread.Work) : Z :=
  match work with
  | CleanerThread.Sleep usec => usec
  | _ => 0
  end.

(** A half-full segment and one from the future after one comparison, and
    the same store once the second segment has lost its live bytes. *)
Definition twoSegments : Store :=
  Scenario.storeOf [Scenario.halfFull; Scenario.fromTheFuture].

Definition compared : Store :=
  snd (@CostBenefitComparer.call Scenario.cleaner Scenario.comparer
         twoSegments 0%nat 1%nat).

Definition emptied : Store :=
  update compared 1%nat (LogSegment.set_liveBytes 0 (compared 1%nat)).

(** The key of [Scenario.keyK] found at offset 1 of a buffer. *)
Definition keyInBuffer : Key.t := Key.fromBuffer 7 [Byte.x00; Byte.x6b] 1 1.

(** Two candidates that are full in memory, and one that needs all its
    seglets. *)
Definition tooFull : World SpecModel.External :=
  {| store := Scenario.storeOf [Scenario.packed; Scenario.tombstonesNow];
     candidates := [0; 1]%nat;
     external :=
       {| SpecModel.liveness := fun _ => true;
          SpecModel.nextSegment := 2%nat |} |}.

Definition nothingToCompact : World SpecModel.External :=
  {| store := Scenario.storeOf [Scenario.nineOfEleven];
     candidates := [0%nat];
     external :=
       {| SpecModel.liveness := fun _ => true;
          SpecModel.nextSegment := 1%nat |} |}.

(** The runs the properties are shown at work on, all in the world with
    the one object. *)
Definition relocationRun
    : Result (Z * list ptr * World SpecModel.External) :=
  @LogCleaner.relocateLiveEntries Scenario.smallCleaner
    [mkEntry 0%nat 0 0] Scenario.oneObjectWorld.


Definition noCompactionDone : LogCleaner.Compaction :=
  LogCleaner.mkCompaction 0%nat 0%nat 0 0.

(** A segment of 8 seglets that counts 60000 bytes as live and holds one
    tombstone, last compacted at second 40; the world with it, and its
    compaction. *)
Definition oneTombstone : LogSegment.t :=
  LogSegment.mk [(LOG_ENTRY_TYPE_OBJTOMB, repeat Byte.x00 100)] true 105 8
    60000
    (fun type =>
       if LogEntryType_eqb type LOG_ENTRY_TYPE_OBJTOMB then 1 else 0)
    40 40 0 0.

Definition tombstoneWorld : World SpecModel.External :=
  {| store := fun p =>
       match p with
       | O => oneTombstone
       | _ => SpecModel.emptySegment Scenario.smallConfig
       end;
     candidates := [0%nat];
     external :=
       {| SpecModel.liveness := fun _ => true;
          SpecModel.nextSegment := 1%nat |} |}.

Definition tombstoneRun
    : Result (option LogCleaner.Compaction * World SpecModel.External) :=
  @LogCleaner.doMemoryCleaning Scenario.smallCleaner Scenario.smallConfig
    Scenario.clock tombstoneWorld.

Definition constructionRun
    : Result (CleanerThread.t * World SpecModel.External) :=
  @CleanerThread.construct Scenario.smallCleaner busy noCompaction
    Scenario.oneObjectWorld.

Definition diskWork
    : Result (CleanerThread.Work * World SpecModel.External) :=
  @CleanerThread.doWork Scenario.smallCleaner diskFull cleaner
    Scenario.comparer Scenario.clock 0 Scenario.oneObjectWorld.

Definition memoryWork
    : Result (CleanerThread.Work * World SpecModel.External) :=
  @CleanerThread.doWork Scenario.smallCleaner busy cleaner
    Scenario.comparer Scenario.clock 1 Scenario.oneObjectWorld.

Definition idleWork
    : Result (CleanerThread.Work * World SpecModel.External) :=
  @CleanerThread.doWork Scenario.smallCleaner idle cleaner
    Scenario.comparer Scenario.clock 0 Scenario.oneObjectWorld.

End Deployment.

(** * Properties *)

(** ** Machine integers *)

Lemma wrap_range bits z : 0 <= bits -> inRange bits (wrap bits z).
Proof.
  intros Hb. unfold inRange, wrap.
  apply Z.mod_pos_bound. apply Z.pow_pos_nonneg; lia.
Qed.

Lemma wrap_small bits z : inRange bits z -> wrap bits z = z.
Proof. intros Hz. unfold wrap. apply Z.mod_small. exact Hz. Qed.

Lemma u32_small z : 0 <= z < 2 ^ 32 -> u32 z = z.
Proof. apply wrap_small. Qed.

Lemma u64_small z : 0 <= z < 2 ^ 64 -> u64 z = z.
Proof. apply wrap_small. Qed.

Lemma u128_small z : 0 <= z < 2 ^ 128 -> u128 z = z.
Proof. apply wrap_small. Qed.

Lemma u32_range z : 0 <= u32 z < 2 ^ 32.
Proof. apply (wrap_range 32). lia. Qed.

Lemma u64_range z : 0 <= u64 z < 2 ^ 64.
Proof. apply (wrap_range 64). lia. Qed.

Lemma u128_range z : 0 <= u128 z < 2 ^ 128.
Proof. apply (wrap_range 128). lia. Qed.

Lemma LogEntryType_eqb_eq a b : LogEntryType_eqb a b = true <-> a = b.
Proof.
  destruct a, b; simpl; split; intros E; try congruence; try discriminate.
  - apply Z.eqb_eq in E. now subst.
  - injection E as ->. apply Z.eqb_refl.
Qed.

(** ** Cost-benefit of a segment *)

Section CostBenefit.
Context `{Collaborators}.
Implicit Types (c : CostBenefitComparer.t) (s : LogSegment.t).

(** The subtraction [now - timestamp] is made on the clamped timestamp,
    which never exceeds [now]. *)
Lemma clampTimestamp_le c timestamp :
  CostBenefitComparer.clampTimestamp c timestamp <= CostBenefitComparer.now c.
Proof.
  unfold CostBenefitComparer.clampTimestamp.
  destruct (Z.gtb_spec timestamp (CostBenefitComparer.now c)); lia.
Qed.

Lemma clampTimestamp_min c timestamp :
  CostBenefitComparer.clampTimestamp c timestamp
  = Z.min timestamp (CostBenefitComparer.now c).
Proof.
  unfold CostBenefitComparer.clampTimestamp.
  destruct (Z.gtb_spec timestamp (CostBenefitComparer.now c)); lia.
Qed.

Lemma costBenefit_zero_utilization c s :
  getDiskUtilization s = 0 ->
  CostBenefitComparer.costBenefit c s = UINT64_MAX.
Proof.
  intros E. unfold CostBenefitComparer.costBenefit. now rewrite E.
Qed.

(** C2, as the code has it.  For a segment whose disk utilization [u] is a
    percentage other than 0, with a clock that leaves room for the product,
    [costBenefit] is [((100 - u) * age) / u] on the integers, where [age]
    is [now - creationTimestamp] when the segment was not created after
    [now] and 0 when it was; for utilization 0 it is the largest 64-bit
    value. *)
Theorem costBenefit_formula c s :
  0 <= CostBenefitComparer.now c ->
  100 * CostBenefitComparer.now c < 2 ^ 64 ->
  0 <= LogSegment.creationTimestamp s ->
  0 <= getDiskUtilization s <= 100 ->
  (getDiskUtilization s <> 0 ->
   CostBenefitComparer.costBenefit c s
   = Spec.costBenefit (CostBenefitComparer.now c)
       (Z.min (LogSegment.creationTimestamp s) (CostBenefitComparer.now c))
       (getDiskUtilization s)) /\
  (getDiskUtilization s = 0 ->
   CostBenefitComparer.costBenefit c s = UINT64_MAX).
Proof.
  intros Hnow Hroom Hts Hu. split; [| apply costBenefit_zero_utilization].
  intros Hnz. unfold CostBenefitComparer.costBenefit, Spec.costBenefit.
  destruct (Z.eqb_spec (getDiskUtilization s) 0) as [E | _]; [lia |].
  cbn [negb]. rewrite clampTimestamp_min.
  set (u := getDiskUtilization s) in *.
  set (age := CostBenefitComparer.now c
              - Z.min (LogSegment.creationTimestamp s)
                  (CostBenefitComparer.now c)).
  assert (Hage : 0 <= age <= CostBenefitComparer.now c) by (unfold age; lia).
  rewrite (u64_small age) by lia.
  rewrite (u64_small (100 - u)) by lia.
  rewrite (u64_small u) by lia.
  rewrite u64_small; [reflexivity |].
  split; [apply Z.mul_nonneg_nonneg; lia |].
  assert ((100 - u) * age <= 100 * CostBenefitComparer.now c)
    by (apply Z.mul_le_mono_nonneg; lia).
  lia.
Qed.

(** C10.  A segment created after the comparer's [now] has its timestamp
    clamped to [now]; the difference [now - timestamp] the code then
    forms is not negative, whatever the timestamp; and the cost-benefit of
    such a segment is 0 unless its disk utilization is 0. *)
Theorem costBenefit_clock_skew c s :
  CostBenefitComparer.now c < LogSegment.creationTimestamp s ->
  CostBenefitComparer.clampTimestamp c (LogSegment.creationTimestamp s)
  = CostBenefitComparer.now c /\
  (forall timestamp,
     0 <= CostBenefitComparer.now c
          - CostBenefitComparer.clampTimestamp c timestamp) /\
  (getDiskUtilization s <> 0 -> CostBenefitComparer.costBenefit c s = 0).
Proof.
  intros Hskew.
  assert (Hclamp :
    CostBenefitComparer.clampTimestamp c (LogSegment.creationTimestamp s)
    = CostBenefitComparer.now c).
  { rewrite clampTimestamp_min. lia. }
  split; [exact Hclamp |]. split.
  - intros timestamp. pose proof (clampTimestamp_le c timestamp). lia.
  - intros Hnz. unfold CostBenefitComparer.costBenefit.
    destruct (Z.eqb_spec (getDiskUtilization s) 0) as [E | _]; [lia |].
    cbn [negb]. rewrite Hclamp, Z.sub_diag.
    change (u64 0) with 0. rewrite Z.mul_0_r.
    change (u64 0) with 0. reflexivity.
Qed.

End CostBenefit.

(** ** Keys and fingerprints *)

Lemma bytes_eqb_eq (a b : list Byte.byte) :
  Key.bytes_eqb a b = true <-> a = b.
Proof.
  revert b. induction a as [| x a IH]; intros [| y b]; simpl;
    try (split; [discriminate | congruence]); [tauto |].
  rewrite andb_true_iff, IH. split.
  - intros [Exy ->]. apply Byte.byte_dec_bl in Exy. now subst.
  - intros E. injection E as -> ->. split; [| reflexivity].
    now apply Byte.byte_dec_lb.
Qed.

Lemma bcmp_zero (a b : list Byte.byte) (n : Z) :
  Key.bcmp a b n = 0 <-> Key.keyBytes a n = Key.keyBytes b n.
Proof.
  unfold Key.bcmp.
  destruct (Key.bytes_eqb (Key.keyBytes a n) (Key.keyBytes b n)) eqn:E.
  - apply bytes_eqb_eq in E. tauto.
  - split; [discriminate |]. intros E'. apply bytes_eqb_eq in E'. congruence.
Qed.

Section KeyFacts.
Context `{Key.Collaborators}.
Implicit Types (k a b : Key.t).

Lemma fromLogEntry_hash type buffer k :
  Key.fromLogEntry type buffer = Ok k -> Key.hash k = None.
Proof.
  unfold Key.fromLogEntry.
  destruct (LogEntryType_eqb type LOG_ENTRY_TYPE_OBJ);
    [intros [= <-]; reflexivity |].
  destruct (LogEntryType_eqb type LOG_ENTRY_TYPE_OBJTOMB);
    [intros [= <-]; reflexivity | discriminate].
Qed.

Lemma reachable_cacheValid k : Key.reachable k -> Key.cacheValid k.
Proof.
  induction 1 as [| | type buffer k Hk | k Hk IH]; intros h.
  - discriminate.
  - discriminate.
  - rewrite (fromLogEntry_hash _ _ _ Hk). discriminate.
  - unfold Key.getHashCached.
    destruct (Key.hash k) as [h0 |] eqn:E; simpl.
    + rewrite E. intros [= <-]. now apply IH.
    + intros [= <-]. reflexivity.
Qed.

Lemma sameKey_getHash a b :
  Key.sameKey a b ->
  Key.getHash (Key.tableId a) (Key.stringKey a) (Key.stringKeyLength a)
  = Key.getHash (Key.tableId b) (Key.stringKey b) (Key.stringKeyLength b).
Proof.
  intros (Et & El & Eb). unfold Key.getHash. now rewrite Et, Eb, El.
Qed.

(** Without the prefilter on the cached fingerprints, [operator==] is the
    comparison of the three components. *)
Lemma eqb_components a b :
  ((Key.tableId a =? Key.tableId b)
   && (Key.stringKeyLength a =? Key.stringKeyLength b)
   && (Key.bcmp (Key.stringKey a) (Key.stringKey b) (Key.stringKeyLength a)
       =? 0)) = true
  <-> Key.sameKey a b.
Proof.
  unfold Key.sameKey.
  rewrite !andb_true_iff, !Z.eqb_eq, bcmp_zero. split.
  - intros [[Et El] Eb]. rewrite <- El. tauto.
  - intros (Et & El & Eb). rewrite <- El in Eb. tauto.
Qed.

(** C7.  The static [getHash] is the first of the two 64-bit words that
    [MurmurHash3_x64_128] produces from the key's bytes and the low 32 bits
    of the table identifier; being a function of these alone, it yields
    the same fingerprint whenever they agree. *)
Theorem getHash_fingerprint (tableId : Z) (stringKey : list Byte.byte)
    (stringKeyLength : Z) :
  Key.getHash tableId stringKey stringKeyLength
  = fst (Key.MurmurHash3_x64_128 (Key.keyBytes stringKey stringKeyLength)
           stringKeyLength (tableId mod 2 ^ 32)) /\
  (forall (tableId' : Z) (stringKey' : list Byte.byte),
     tableId' mod 2 ^ 32 = tableId mod 2 ^ 32 ->
     Key.keyBytes stringKey' stringKeyLength
     = Key.keyBytes stringKey stringKeyLength ->
     Key.getHash tableId' stringKey' stringKeyLength
     = Key.getHash tableId stringKey stringKeyLength).
Proof.
  split; [reflexivity |].
  intros tableId' stringKey' Et Eb. unfold Key.getHash, u32, wrap.
  now rewrite Et, Eb.
Qed.

(** C8.  For two keys a program can hold, [operator==] answers true
    exactly when the table identifiers, the key lengths and the key bytes
    agree; and when both fingerprints are cached and differ, the keys
    differ in one of the three, so that answering false at once changes
    nothing. *)
Theorem key_equality a b :
  Key.reachable a -> Key.reachable b ->
  (Key.eqb a b = true <-> Key.sameKey a b) /\
  (forall ha hb,
     Key.hash a = Some ha -> Key.hash b = Some hb -> ha <> hb ->
     ~ Key.sameKey a b /\ Key.eqb a b = false).
Proof.
  intros Ha Hb.
  apply reachable_cacheValid in Ha. apply reachable_cacheValid in Hb.
  assert (Hfilter : forall ha hb,
    Key.hash a = Some ha -> Key.hash b = Some hb -> ha <> hb ->
    ~ Key.sameKey a b).
  { intros ha hb Ea Eb Hne Hsame. apply Hne.
    rewrite (Ha _ Ea), (Hb _ Eb). now apply sameKey_getHash. }
  assert (Hrest : forall (skip : bool),
    skip = false ->
    (if skip then false
     else if negb (Key.tableId a =? Key.tableId b) then false
     else if negb (Key.stringKeyLength a =? Key.stringKeyLength b) then false
     else Key.bcmp (Key.stringKey a) (Key.stringKey b)
            (Key.stringKeyLength a) =? 0) = true
    <-> Key.sameKey a b).
  { intros skip ->. rewrite <- eqb_components.
    destruct (Key.tableId a =? Key.tableId b); simpl; [| tauto].
    destruct (Key.stringKeyLength a =? Key.stringKeyLength b); simpl; tauto. }
  split.
  - unfold Key.eqb.
    destruct (Key.hash a) as [ha |] eqn:Ea; [| exact (Hrest false eq_refl)].
    destruct (Key.hash b) as [hb |] eqn:Eb; [| exact (Hrest false eq_refl)].
    destruct (Z.eqb_spec ha hb) as [E | Hne]; [exact (Hrest false eq_refl) |].
    simpl. split; [discriminate |].
    intros Hsame. exfalso. exact (Hfilter ha hb eq_refl eq_refl Hne Hsame).
  - intros ha hb Ea Eb Hne. split; [now apply (Hfilter ha hb) |].
    unfold Key.eqb. rewrite Ea, Eb.
    destruct (Z.eqb_spec ha hb) as [E | _]; [contradiction | reflexivity].
Qed.

(** C9.  The constructor of a key from a log entry throws [FatalError]
    for every entry type other than object and tombstone, segment headers
    and footers among them; a key that it does build was built from an
    object or from a tombstone. *)
Theorem fromLogEntry_types (type : LogEntryType) (buffer : Buffer) :
  (type <> LOG_ENTRY_TYPE_OBJ -> type <> LOG_ENTRY_TYPE_OBJTOMB ->
   Key.fromLogEntry type buffer
   = Throw (FatalError "unknown Log::Entry type")) /\
  (forall k, Key.fromLogEntry type buffer = Ok k ->
     type = LOG_ENTRY_TYPE_OBJ \/ type = LOG_ENTRY_TYPE_OBJTOMB) /\
  Key.fromLogEntry LOG_ENTRY_TYPE_SEGHEADER buffer
  = Throw (FatalError "unknown Log::Entry type") /\
  Key.fromLogEntry LOG_ENTRY_TYPE_SEGFOOTER buffer
  = Throw (FatalError "unknown Log::Entry type").
Proof.
  unfold Key.fromLogEntry. repeat split.
  - intros Hobj Htomb.
    destruct (LogEntryType_eqb type LOG_ENTRY_TYPE_OBJ) eqn:E1;
      [apply LogEntryType_eqb_eq in E1; contradiction |].
    destruct (LogEntryType_eqb type LOG_ENTRY_TYPE_OBJTOMB) eqn:E2;
      [apply LogEntryType_eqb_eq in E2; contradiction | reflexivity].
  - intros k.
    destruct (LogEntryType_eqb type LOG_ENTRY_TYPE_OBJ) eqn:E1;
      [apply LogEntryType_eqb_eq in E1; auto |].
    destruct (LogEntryType_eqb type LOG_ENTRY_TYPE_OBJTOMB) eqn:E2;
      [apply LogEntryType_eqb_eq in E2; auto | discriminate].
Qed.

End KeyFacts.

(** ** Choosing the segment to compact *)

Section FirstMax.
Variable score : nat -> ptr -> Z.

Lemma firstMax_spec (v : list ptr) :
  forall (i : nat) (bestIndex : option nat) (best : Z) r b,
    Aux.firstMax score v i bestIndex best = (r, b) ->
    (r = bestIndex /\ b = best /\
     forall j q, v !! j = Some q -> score (i + j)%nat q <= best)
    \/
    (exists k p,
       r = Some (i + k)%nat /\ b = score (i + k)%nat p /\ best < b /\
       v !! k = Some p /\
       (forall j q, v !! j = Some q -> score (i + j)%nat q <= b) /\
       (forall j q, (j < k)%nat -> v !! j = Some q ->
                    score (i + j)%nat q < b)).
Proof.
  induction v as [| p rest IH]; intros i bestIndex best r b Hrun.
  - left. injection Hrun as <- <-. repeat split. intros j q Hj.
    destruct j; discriminate.
  - simpl in Hrun.
    destruct (Z.gtb_spec (score i p) best) as [Hgt | Hle];
      apply IH in Hrun as [(-> & -> & Hall) | (k & q & -> & -> & Hb & Hk & Hall & Hbefore)].
    + right. exists 0%nat, p. rewrite Nat.add_0_r.
      repeat split; [lia | |].
      * intros [| j] q Hj; simpl in Hj.
        -- injection Hj as <-. rewrite Nat.add_0_r. lia.
        -- replace (i + S j)%nat with (S i + j)%nat by lia. now apply Hall.
      * intros j q Hlt. lia.
    + right. exists (S k), q.
      replace (i + S k)%nat with (S i + k)%nat by lia.
      repeat split; [lia | exact Hk | |].
      * intros [| j] q' Hj; simpl in Hj.
        -- injection Hj as <-. rewrite Nat.add_0_r. lia.
        -- replace (i + S j)%nat with (S i + j)%nat by lia. now apply Hall.
      * intros [| j] q' Hlt Hj; simpl in Hj.
        -- injection Hj as <-. rewrite Nat.add_0_r. lia.
        -- replace (i + S j)%nat with (S i + j)%nat by lia.
           apply Hbefore; [lia | exact Hj].
    + left. repeat split. intros [| j] q Hj; simpl in Hj.
      * injection Hj as <-. rewrite Nat.add_0_r. lia.
      * replace (i + S j)%nat with (S i + j)%nat by lia. now apply Hall.
    + right. exists (S k), q.
      replace (i + S k)%nat with (S i + k)%nat by lia.
      repeat split; [exact Hb | exact Hk | |].
      * intros [| j] q' Hj; simpl in Hj.
        -- injection Hj as <-. rewrite Nat.add_0_r. lia.
        -- replace (i + S j)%nat with (S i + j)%nat by lia. now apply Hall.
      * intros [| j] q' Hlt Hj; simpl in Hj.
        -- injection Hj as <-. rewrite Nat.add_0_r. lia.
        -- replace (i + S j)%nat with (S i + j)%nat by lia.
           apply Hbefore; [lia | exact Hj].
Qed.

(** From the start: either no score is positive and nothing is found, or
    the first maximum is found and its score is positive. *)
Lemma firstMax_from_start (v : list ptr) r b :
  Aux.firstMax score v 0 None 0 = (r, b) ->
  (r = None /\ b = 0 /\ forall j q, v !! j = Some q -> score j q <= 0)
  \/
  (exists k p, r = Some k /\ b = score k p /\ 0 < b /\
               Aux.FirstMax score v k p).
Proof.
  intros Hrun.
  apply firstMax_spec in Hrun
    as [(-> & -> & Hall) | (k & p & -> & -> & Hb & Hk & Hall & Hbefore)].
  - left. repeat split. intros j q Hj. exact (Hall j q Hj).
  - right. exists k, p. simpl. repeat split; assumption.
Qed.

End FirstMax.

Section Compaction.
Context `{Collaborators}.
Variable config : Config.
Implicit Types (h : Store) (v candidates : list ptr) (s : LogSegment.t).

Lemma segletsNeeded_nonneg (liveBytes : Z) :
  0 < segletSize config -> 0 < MAX_CLEANABLE_MEMORY_UTILIZATION ->
  0 <= LogCleaner.segletsNeeded config liveBytes.
Proof.
  intros Hs Hm. unfold LogCleaner.segletsNeeded.
  apply Z.div_pos; [| lia]. apply Z.div_pos; [| lia].
  apply u32_range.
Qed.

(** With the counters in their ranges, the guarded [delta] is the number
    of freeable seglets where that is positive, and 0 elsewhere. *)
Lemma guardedDelta_freeable s :
  0 < segletSize config -> 0 < MAX_CLEANABLE_MEMORY_UTILIZATION ->
  0 <= LogSegment.segletsAllocated s < 2 ^ 32 ->
  Aux.guardedDelta config s = Z.max 0 (Aux.freeable config s).
Proof.
  intros Hs Hm Ha. unfold Aux.guardedDelta, Aux.freeable, LogCleaner.delta,
    LogSegment.getSegletsAllocated.
  pose proof (segletsNeeded_nonneg (LogSegment.liveBytes s) Hs Hm) as Hn.
  destruct (Z.ltb_spec (LogCleaner.segletsNeeded config (LogSegment.liveBytes s))
              (LogSegment.segletsAllocated s)) as [Hlt | Hge].
  - rewrite u32_small by lia. lia.
  - lia.
Qed.

Lemma bestDeltaLoop_firstMax h v :
  forall (i : nat) (bestIndex : option nat) (bestDelta : Z),
    0 <= bestDelta ->
    LogCleaner.bestDeltaLoop config h v i bestIndex bestDelta
    = Aux.firstMax (fun _ p => Aux.guardedDelta config (h p)) v i bestIndex
        bestDelta.
Proof.
  induction v as [| p rest IH]; intros i bestIndex bestDelta Hbest;
    [reflexivity |].
  simpl. unfold Aux.guardedDelta at 1 3, LogCleaner.delta.
  destruct (LogCleaner.segletsNeeded config (LogSegment.liveBytes (h p))
            <? LogSegment.getSegletsAllocated (h p)); simpl.
  - destruct (Z.gtb_spec
                (u32 (LogSegment.getSegletsAllocated (h p)
                      - LogCleaner.segletsNeeded config
                          (LogSegment.liveBytes (h p)))) bestDelta).
    + apply IH. apply u32_range.
    + now apply IH.
  - destruct (Z.gtb_spec 0 bestDelta); [lia | now apply IH].
Qed.

Lemma bestGoodnessLoop_firstMax (clock : nat -> Z) h v :
  forall (i : nat) (bestIndex : option nat) (bestGoodness : Z),
    LogCleaner.bestGoodnessLoop clock h v i bestIndex bestGoodness
    = fst (Aux.firstMax (fun j p => LogCleaner.goodness (clock j) (h p)) v i
             bestIndex bestGoodness).
Proof.
  induction v as [| p rest IH]; intros i bestIndex bestGoodness;
    [reflexivity |].
  simpl.
  destruct (LogCleaner.goodness (clock i) (h p) >? bestGoodness); apply IH.
Qed.

(** With the counters in their ranges and no clock skew, [goodness] is the
    product the specification names. *)
Lemma goodness_exact (secondsTimestamp : Z) s :
  0 <= LogSegment.entryCounts s LOG_ENTRY_TYPE_OBJTOMB < 2 ^ 32 ->
  0 <= LogSegment.lastCompactionTimestamp s <= secondsTimestamp ->
  secondsTimestamp < 2 ^ 32 ->
  LogCleaner.goodness secondsTimestamp s = Spec.goodness secondsTimestamp s.
Proof.
  intros Hc Hl Hn. unfold LogCleaner.goodness, Spec.goodness,
    LogSegment.getEntryCount.
  rewrite (u32_small (secondsTimestamp - _)) by lia.
  apply u128_small. split; [apply Z.mul_nonneg_nonneg; lia |].
  assert (LogSegment.entryCounts s LOG_ENTRY_TYPE_OBJTOMB
          * (secondsTimestamp - LogSegment.lastCompactionTimestamp s)
          <= 2 ^ 32 * 2 ^ 32) by (apply Z.mul_le_mono_nonneg; lia).
  lia.
Qed.

(** C1, as the code has it.  With
    [segletsNeeded = (100 * (liveBytes + segletSize - 1)) / segletSize /
    MAX_CLEANABLE_MEMORY_UTILIZATION] in unsigned 32-bit arithmetic and
    [delta = segletsAllocated - segletsNeeded]: whenever some candidate
    needs fewer seglets than it has, [getSegmentToCompact] returns the
    first candidate with the largest [delta], which is positive, returns
    that [delta] as the number of freeable seglets, and takes the
    candidate out of the vector. *)
Theorem getSegmentToCompact_most_freeable (clock : nat -> Z) h candidates :
  0 < segletSize config -> 0 < MAX_CLEANABLE_MEMORY_UTILIZATION ->
  (forall p, p ∈ candidates ->
     0 <= LogSegment.segletsAllocated (h p) < 2 ^ 32) ->
  (exists p, p ∈ candidates /\
     LogCleaner.segletsNeeded config (LogSegment.liveBytes (h p))
     < LogSegment.segletsAllocated (h p)) ->
  exists (k : nat) (best : ptr),
    LogCleaner.getSegmentToCompact config clock h candidates
    = (Some (best, Aux.freeable config (h best)), swapRemove k candidates) /\
    0 < Aux.freeable config (h best) /\
    Aux.FirstMax (fun _ p => Aux.freeable config (h p)) candidates k best.
Proof.
  intros Hs Hm Hrange (p0 & Hp0 & Hfree0).
  unfold LogCleaner.getSegmentToCompact.
  rewrite bestDeltaLoop_firstMax by lia.
  destruct (Aux.firstMax _ candidates 0 None 0) as [r b] eqn:Hrun.
  apply firstMax_from_start in Hrun
    as [(-> & -> & Hall) | (k & best & -> & -> & Hpos & Hk & Hmax & Hbefore)].
  - exfalso. apply list_elem_of_lookup in Hp0 as [j Hj].
    specialize (Hall j p0 Hj). simpl in Hall.
    rewrite guardedDelta_freeable in Hall;
      [| assumption | assumption | apply Hrange; eapply list_elem_of_lookup_2; eauto].
    unfold Aux.freeable in Hall. lia.
  - assert (Hin : forall j q, candidates !! j = Some q -> q ∈ candidates)
      by (intros j q Hj; eapply list_elem_of_lookup_2; eauto).
    assert (Hgd : forall j q, candidates !! j = Some q ->
              Aux.guardedDelta config (h q)
              = Z.max 0 (Aux.freeable config (h q))).
    { intros j q Hj. apply guardedDelta_freeable; eauto. }
    simpl in Hpos. rewrite (Hgd k best Hk) in Hpos.
    exists k, best. simpl.
    rewrite (list_lookup_total_correct _ _ _ Hk), (Hgd k best Hk).
    replace (Z.max 0 (Aux.freeable config (h best)))
      with (Aux.freeable config (h best)) by lia.
    repeat split; [lia | exact Hk | |].
    + intros j q Hj. specialize (Hmax j q Hj). simpl in Hmax.
      rewrite (Hgd j q Hj), (Hgd k best Hk) in Hmax. lia.
    + intros j q Hlt Hj. specialize (Hbefore j q Hlt Hj). simpl in Hbefore.
      rewrite (Hgd j q Hj), (Hgd k best Hk) in Hbefore. lia.
Qed.





End Compaction.

(** ** Choosing the segments to clean on disk *)

Section DiskSelection.
Context `{Collaborators}.
Variable config : Config.
Implicit Types (h : Store) (v candidates : list ptr) (c : CostBenefitComparer.t).

Lemma update_same h p s : update h p s p = s.
Proof. unfold update. now rewrite Nat.eqb_refl. Qed.

Lemma update_other h p s q : q <> p -> update h p s q = h q.
Proof.
  intros Hne. unfold update.
  destruct (Nat.eqb_spec q p); [contradiction | reflexivity].
Qed.

(** After [refresh], the cached cost-benefit of the segment is its sort
    key, and the sort keys of all segments are what they were. *)
Lemma refresh_cached c h a :
  LogSegment.costBenefit (CostBenefitComparer.refresh c h a a)
  = CostBenefitComparer.sortKey c h a.
Proof.
  unfold CostBenefitComparer.refresh, CostBenefitComparer.sortKey.
  destruct (LogSegment.costBenefitVersion (h a) =? CostBenefitComparer.version c);
    simpl; [reflexivity |].
  now rewrite update_same.
Qed.

Lemma refresh_other c h a q :
  q <> a -> CostBenefitComparer.refresh c h a q = h q.
Proof.
  intros Hne. unfold CostBenefitComparer.refresh.
  destruct (negb _); [now apply update_other | reflexivity].
Qed.

Lemma refresh_idem c h a :
  CostBenefitComparer.refresh c (CostBenefitComparer.refresh c h a) a
  = CostBenefitComparer.refresh c h a.
Proof.
  unfold CostBenefitComparer.refresh at 1.
  replace (LogSegment.costBenefitVersion (CostBenefitComparer.refresh c h a a)
           =? CostBenefitComparer.version c) with true; [reflexivity |].
  symmetry. unfold CostBenefitComparer.refresh.
  destruct (LogSegment.costBenefitVersion (h a) =? CostBenefitComparer.version c)
    eqn:E; simpl; [exact E |].
  rewrite update_same. simpl. apply Z.eqb_refl.
Qed.

(** [operator()] orders two segments by their sort keys. *)
Lemma call_verdict c h a b :
  fst (CostBenefitComparer.call c h a b)
  = (CostBenefitComparer.sortKey c h a >? CostBenefitComparer.sortKey c h b).
Proof.
  unfold CostBenefitComparer.call. simpl.
  destruct (Nat.eq_dec a b) as [-> | Hne].
  - rewrite refresh_idem, refresh_cached. reflexivity.
  - rewrite (refresh_other c _ b a Hne), !refresh_cached.
    f_equal. unfold CostBenefitComparer.sortKey.
    now rewrite (refresh_other c h a b) by congruence.
Qed.

(** A call of [operator()] changes no segment's sort key, so that every
    comparison of one sort sees the same keys. *)
Lemma refresh_sortKey c h a p :
  CostBenefitComparer.sortKey c (CostBenefitComparer.refresh c h a) p
  = CostBenefitComparer.sortKey c h p.
Proof.
  unfold CostBenefitComparer.refresh.
  destruct (Z.eqb_spec (LogSegment.costBenefitVersion (h a))
              (CostBenefitComparer.version c)) as [E | Hne];
    simpl; [reflexivity |].
  unfold CostBenefitComparer.sortKey.
  destruct (Nat.eq_dec p a) as [-> | Hpa].
  - rewrite update_same. simpl. rewrite Z.eqb_refl.
    destruct (Z.eqb_spec (LogSegment.costBenefitVersion (h a))
                (CostBenefitComparer.version c)); [contradiction | reflexivity].
  - now rewrite update_other.
Qed.

Lemma call_sortKey c h a b p :
  CostBenefitComparer.sortKey c (snd (CostBenefitComparer.call c h a b)) p
  = CostBenefitComparer.sortKey c h p.
Proof.
  unfold CostBenefitComparer.call. simpl. now rewrite !refresh_sortKey.
Qed.

Lemma sortKey_order c h :
  StrictWeakOrder (fun a b => fst (CostBenefitComparer.call c h a b)).
Proof.
  repeat split; intros *; rewrite !call_verdict; lia.
Qed.

(** A fresh version, one that no segment's cache carries, makes the sort
    key the cost-benefit computed by this comparer. *)
Lemma sortKey_fresh c h a :
  LogSegment.costBenefitVersion (h a) <> CostBenefitComparer.version c ->
  CostBenefitComparer.sortKey c h a
  = CostBenefitComparer.costBenefit c (h a).
Proof.
  intros Hne. unfold CostBenefitComparer.sortKey.
  destruct (Z.eqb_spec (LogSegment.costBenefitVersion (h a))
              (CostBenefitComparer.version c)); [contradiction | reflexivity].
Qed.

Lemma StronglySorted_weaken {A : Type} (R R' : A -> A -> Prop) (l : list A) :
  (forall x y, R x y -> R' x y) -> StronglySorted R l -> StronglySorted R' l.
Proof.
  intros Himpl. induction 1 as [| x l Hl IH Hx]; constructor; [exact IH |].
  eapply List.Forall_impl; [| exact Hx]. intros y. apply Himpl.
Qed.

Lemma maximumLiveBytes_range :
  0 <= LogCleaner.maximumLiveBytes config < 2 ^ 32.
Proof. apply u32_range. Qed.

(** The selection loop: it walks a prefix [scanned] of the vector, takes
    from it exactly the segments that pass the utilization test, and
    stops either at the end or in front of a segment that passes the test
    but whose live bytes do not fit the budget any more. *)
Lemma chooseLoop_spec h v :
  forall (i : nat) (acc : LogCleaner.Chosen),
    0 <= LogCleaner.totalLiveBytes acc <= LogCleaner.maximumLiveBytes config ->
    (forall p, In p v -> 0 <= LogSegment.liveBytes (h p) < 2 ^ 32) ->
    exists scanned rest,
      v = scanned ++ rest /\
      LogCleaner.outSegmentsToClean (LogCleaner.chooseLoop config h v i acc)
      = LogCleaner.outSegmentsToClean acc
        ++ List.filter (Aux.cleanable h) scanned /\
      LogCleaner.totalLiveBytes (LogCleaner.chooseLoop config h v i acc)
      = LogCleaner.totalLiveBytes acc
        + Aux.totalLiveBytes h (List.filter (Aux.cleanable h) scanned) /\
      LogCleaner.totalLiveBytes (LogCleaner.chooseLoop config h v i acc)
      <= LogCleaner.maximumLiveBytes config /\
      (rest = [] \/
       exists p rest',
         rest = p :: rest' /\ Aux.cleanable h p = true /\
         LogCleaner.maximumLiveBytes config
         < LogCleaner.totalLiveBytes (LogCleaner.chooseLoop config h v i acc)
           + LogSegment.liveBytes (h p)).
Proof.
  pose proof maximumLiveBytes_range as Hmax.
  induction v as [| p v' IH]; intros i acc Hacc Hlive.
  - exists [], []. simpl. rewrite app_nil_r, Z.add_0_r. repeat split; auto; lia.
  - assert (Hp : 0 <= LogSegment.liveBytes (h p) < 2 ^ 32)
      by (apply Hlive; now left).
    assert (Hlive' : forall q, In q v' ->
              0 <= LogSegment.liveBytes (h q) < 2 ^ 32)
      by (intros q Hq; apply Hlive; now right).
    simpl.
    destruct (getMemoryUtilization (h p) >? MAX_CLEANABLE_MEMORY_UTILIZATION)
      eqn:Efull.
    + assert (Ec : Aux.cleanable h p = false)
        by (unfold Aux.cleanable; now rewrite Efull).
      destruct (IH (S i) acc Hacc Hlive')
        as (scanned & rest & -> & Hout & Htotal & Hle & Hstop).
      exists (p :: scanned), rest. cbn [List.filter app]. rewrite Ec.
      repeat split; auto.
    + assert (Ec : Aux.cleanable h p = true)
        by (unfold Aux.cleanable; now rewrite Efull).
      rewrite (u64_small (LogCleaner.totalLiveBytes acc
                          + LogSegment.liveBytes (h p))) by lia.
      destruct (Z.gtb_spec
                  (LogCleaner.totalLiveBytes acc + LogSegment.liveBytes (h p))
                  (LogCleaner.maximumLiveBytes config)) as [Hover | Hfits].
      * exists [], (p :: v'). simpl. rewrite app_nil_r, Z.add_0_r.
        repeat split; [lia |]. right. exists p, v'.
        repeat split; [exact Ec | lia].
      * match goal with
        | |- context [LogCleaner.chooseLoop config h v' (S i) ?a] =>
            destruct (IH (S i) a) as
              (scanned & rest & -> & Hout & Htotal & Hle & Hstop);
              [simpl; lia | exact Hlive' |]
        end.
        exists (p :: scanned), rest. cbn [List.filter app]. rewrite Ec.
        cbn [LogCleaner.outSegmentsToClean LogCleaner.totalLiveBytes]
          in Hout, Htotal.
        split; [reflexivity |].
        split; [rewrite Hout, <- app_assoc; reflexivity |].
        split; [rewrite Htotal; unfold Aux.totalLiveBytes;
                cbn [fold_right]; lia |].
        split; [exact Hle | exact Hstop].
Qed.

(** C3.  [getSegmentsToClean] scans the candidates in descending order of
    cost-benefit.  It walks a prefix of that order and selects from it, in
    order, every segment whose memory utilization does not exceed
    [MAX_CLEANABLE_MEMORY_UTILIZATION], skipping the others; the live bytes
    selected stay within [MAX_LIVE_SEGMENTS_PER_DISK_PASS * segmentSize];
    and the scan ends either with the candidates or in front of the first
    segment that is admissible but whose live bytes would take the total
    beyond that budget, from which point on nothing is selected. *)
Theorem getSegmentsToClean_selection c h candidates :
  StdSortContract ->
  0 <= MAX_LIVE_SEGMENTS_PER_DISK_PASS * segmentSize config < 2 ^ 32 ->
  (forall p, p ∈ candidates -> 0 <= LogSegment.liveBytes (h p) < 2 ^ 32) ->
  let sorted := LogCleaner.sortSegmentsByCostBenefit c h candidates in
  let selected := fst (LogCleaner.getSegmentsToClean config c h candidates) in
  let budget := MAX_LIVE_SEGMENTS_PER_DISK_PASS * segmentSize config in
  Permutation sorted candidates /\
  StronglySorted
    (fun a b => CostBenefitComparer.sortKey c h b
                <= CostBenefitComparer.sortKey c h a) sorted /\
  exists scanned rest,
    sorted = scanned ++ rest /\
    selected
    = List.filter
        (fun p => getMemoryUtilization (h p)
                  <=? MAX_CLEANABLE_MEMORY_UTILIZATION) scanned /\
    Aux.totalLiveBytes h selected <= budget /\
    (rest = [] \/
     exists p rest',
       rest = p :: rest' /\
       getMemoryUtilization (h p) <= MAX_CLEANABLE_MEMORY_UTILIZATION /\
       budget < Aux.totalLiveBytes h selected + LogSegment.liveBytes (h p)).
Proof.
  intros Hsort Hbudget Hlive sorted selected budget.
  destruct (Hsort ptr (fun a b => fst (CostBenefitComparer.call c h a b))
              candidates) as [Hperm Hsorted].
  fold (LogCleaner.sortSegmentsByCostBenefit c h candidates) in Hperm, Hsorted.
  fold sorted in Hperm, Hsorted.
  split; [exact Hperm |]. split.
  - specialize (Hsorted (sortKey_order c h)).
    eapply StronglySorted_weaken; [| exact Hsorted].
    intros a b Hab. cbv beta in Hab. rewrite call_verdict in Hab. lia.
  - assert (Hmax : LogCleaner.maximumLiveBytes config = budget)
      by (apply u32_small; exact Hbudget).
    destruct (chooseLoop_spec h sorted 0 LogCleaner.noneChosen)
      as (scanned & rest & Hsplit & Hout & Htotal & Hle & Hstop).
    { simpl. pose proof maximumLiveBytes_range. lia. }
    { intros p Hp. apply Hlive. apply list_elem_of_In.
      eapply Permutation_in; [exact Hperm | exact Hp]. }
    assert (Hfilter : forall l,
      List.filter (Aux.cleanable h) l
      = List.filter
          (fun p => getMemoryUtilization (h p)
                    <=? MAX_CLEANABLE_MEMORY_UTILIZATION) l).
    { intros l. apply filter_ext. intros p. unfold Aux.cleanable.
      destruct (Z.gtb_spec (getMemoryUtilization (h p))
                  MAX_CLEANABLE_MEMORY_UTILIZATION);
        destruct (Z.leb_spec (getMemoryUtilization (h p))
                    MAX_CLEANABLE_MEMORY_UTILIZATION); simpl; lia || reflexivity. }
    assert (Hselected : selected = List.filter (Aux.cleanable h) scanned)
      by exact Hout.
    simpl in Htotal. rewrite <- Hselected in Htotal.
    exists scanned, rest. rewrite <- Hfilter.
    repeat split; [exact Hsplit | exact Hselected | lia |].
    destruct Hstop as [-> | (p & rest' & -> & Hclean & Hover)]; [now left |].
    right. exists p, rest'. repeat split; [| lia].
    unfold Aux.cleanable in Hclean.
    destruct (Z.gtb_spec (getMemoryUtilization (h p))
                MAX_CLEANABLE_MEMORY_UTILIZATION); [discriminate | lia].
Qed.

End DiskSelection.

(** ** Cleaning passes *)

Section Passes.
Context `{Collaborators}.
Variable config : Config.
Implicit Types (w : World External) (h : Store) (v : list ptr).

Lemma bind_ok {A B} (m : LogCleaner.M A) (k : A -> LogCleaner.M B) w a w1 :
  m w = Ok (a, w1) -> LogCleaner.bind m k w = k a w1.
Proof. intros E. unfold LogCleaner.bind. now rewrite E. Qed.

Lemma bind_throw {A B} (m : LogCleaner.M A) (k : A -> LogCleaner.M B) w e :
  m w = Throw e -> LogCleaner.bind m k w = Throw e.
Proof. intros E. unfold LogCleaner.bind. now rewrite E. Qed.

Lemma bind_ok_inv {A B} (m : LogCleaner.M A) (k : A -> LogCleaner.M B) w b w' :
  LogCleaner.bind m k w = Ok (b, w') ->
  exists a w1, m w = Ok (a, w1) /\ k a w1 = Ok (b, w').
Proof.
  unfold LogCleaner.bind. destruct (m w) as [[a w1] | e]; [| discriminate].
  intros E. now exists a, w1.
Qed.

Lemma assert_ok_inv (cond : bool) (text : string) w u w' :
  LogCleaner.assert cond text w = Ok (u, w') -> cond = true /\ w' = w.
Proof.
  unfold LogCleaner.assert. destruct cond; [| discriminate].
  unfold LogCleaner.ret. intros [= <- <-]. now split.
Qed.

(** The 32-bit sum the code accumulates is the exact total as long as
    that total fits. *)
Lemma sumSeglets_from h v :
  forall acc,
    0 <= acc ->
    (forall p, In p v -> 0 <= LogSegment.segletsAllocated (h p)) ->
    acc + Aux.totalSeglets h v < 2 ^ 32 ->
    fold_left
      (fun acc p => u32 (acc + LogSegment.getSegletsAllocated (h p))) v acc
    = acc + Aux.totalSeglets h v.
Proof.
  induction v as [| p v' IH]; intros acc Hacc Hnonneg Hfit; simpl.
  - lia.
  - simpl in Hfit. unfold LogSegment.getSegletsAllocated.
    assert (Hp : 0 <= LogSegment.segletsAllocated (h p))
      by (apply Hnonneg; now left).
    assert (Hrest : 0 <= Aux.totalSeglets h v').
    { clear IH Hfit. induction v' as [| q v'' IH']; simpl; [lia |].
      assert (0 <= LogSegment.segletsAllocated (h q))
        by (apply Hnonneg; right; now left).
      assert (0 <= Aux.totalSeglets h v'')
        by (apply IH'; intros r [Hr | Hr]; apply Hnonneg;
            [now left | right; now right]).
      lia. }
    rewrite u32_small by lia.
    rewrite IH; [lia | lia | | lia].
    intros q Hq. apply Hnonneg. now right.
Qed.

Lemma sumSeglets_exact h v :
  (forall p, In p v -> 0 <= LogSegment.segletsAllocated (h p)) ->
  Aux.totalSeglets h v < 2 ^ 32 ->
  LogCleaner.sumSeglets h v = Aux.totalSeglets h v.
Proof.
  intros Hnonneg Hfit. unfold LogCleaner.sumSeglets.
  rewrite sumSeglets_from; [lia | lia | exact Hnonneg | lia].
Qed.

(** C4, as the code has it.  A disk-cleaning pass that runs to completion
    has cleaned at least one segment, namely those [getSegmentsToClean]
    chose; when relocation has finished and before the segment manager is
    told, the survivors number at most as many as the segments cleaned,
    and the seglets allocated to them are at most those that were
    allocated to the segments cleaned - for the 32-bit sums the code forms
    and, where the totals fit 32 bits, for the totals themselves. *)
Theorem doDiskCleaning_no_growth (c : CostBenefitComparer.t)
    (lowOnDiskSpace : bool) w (pass : LogCleaner.DiskPass) w' :
  LogCleaner.doDiskCleaning config c lowOnDiskSpace w = Ok (Some pass, w') ->
  exists relocated : World External,
    w' = cleaningComplete (LogCleaner.cleaned pass)
           (LogCleaner.survivors pass) relocated /\
    LogCleaner.cleaned pass
    = fst (LogCleaner.getSegmentsToClean config c (store w) (candidates w)) /\
    (exists entryBytesAppended : Z,
       LogCleaner.relocateLiveEntries
         (LogCleaner.getSortedEntries (store w) (LogCleaner.cleaned pass))
         (mkWorld (store w)
            (snd (LogCleaner.getSegmentsToClean config c (store w)
                    (candidates w)))
            (external w))
       = Ok (entryBytesAppended, LogCleaner.survivors pass, relocated)) /\
    LogCleaner.cleaned pass <> [] /\
    (length (LogCleaner.survivors pass)
     <= length (LogCleaner.cleaned pass))%nat /\
    LogCleaner.sumSeglets (store relocated) (LogCleaner.survivors pass)
    <= LogCleaner.sumSeglets (store w) (LogCleaner.cleaned pass) /\
    ((forall p, In p (LogCleaner.cleaned pass) ->
        0 <= LogSegment.segletsAllocated (store w p)) ->
     (forall p, In p (LogCleaner.survivors pass) ->
        0 <= LogSegment.segletsAllocated (store relocated p)) ->
     Aux.totalSeglets (store w) (LogCleaner.cleaned pass) < 2 ^ 32 ->
     Aux.totalSeglets (store relocated) (LogCleaner.survivors pass) < 2 ^ 32 ->
     Aux.totalSeglets (store relocated) (LogCleaner.survivors pass)
     <= Aux.totalSeglets (store w) (LogCleaner.cleaned pass)).
Proof.
  unfold LogCleaner.doDiskCleaning. intros Hrun.
  cbv beta iota delta [LogCleaner.bind LogCleaner.get LogCleaner.setCandidates
    LogCleaner.modify] in Hrun.
  destruct (LogCleaner.getSegmentsToClean config c (store w) (candidates w))
    as [segmentsToClean remaining] eqn:Hchosen.
  destruct (length segmentsToClean =? 0)%nat eqn:Hempty; [discriminate |].
  destruct (LogCleaner.relocateLiveEntries _ _)
    as [[[entryBytesAppended survivors] relocated] | e] eqn:Hrelocate;
    [| discriminate].
  destruct (LogCleaner.assert (entryBytesAppended <=? _) _ relocated)
    as [[[] w1] | e] eqn:Hlive; [| discriminate].
  apply assert_ok_inv in Hlive as [_ ->].
  destruct (LogCleaner.assert (_ >=? _) _ relocated)
    as [[[] w1] | e] eqn:Hseglets; [| discriminate].
  apply assert_ok_inv in Hseglets as [Hseglets ->].
  destruct (LogCleaner.assert (_ >=? _) _ relocated)
    as [[[] w1] | e] eqn:Hsegments; [| discriminate].
  apply assert_ok_inv in Hsegments as [Hsegments ->].
  unfold LogCleaner.ret in Hrun. injection Hrun as <- <-. simpl.
  exists relocated. apply Z.geb_le in Hseglets, Hsegments.
  repeat split; try lia.
  - exists entryBytesAppended. exact Hrelocate.
  - intros ->. discriminate.
  - intros Hc Hs Hfc Hfs.
    rewrite <- (sumSeglets_exact (store w) segmentsToClean) by assumption.
    rewrite <- (sumSeglets_exact (store relocated) survivors) by assumption.
    lia.
Qed.

(** An entry that does not fit the survivor ends the loop of
    [doMemoryCleaning] with the fatal error, wherever in the segment it
    stands. *)
Lemma compactEntries_failed (segment survivor : ptr)
    (type : LogEntryType) (offset : Z) (buffer : Buffer)
    (post : list (LogEntryType * Z * Buffer)) :
  forall (pre : list (LogEntryType * Z * Buffer)) (b0 : Z) w b w1,
    LogCleaner.compactEntries segment survivor pre b0 w = Ok (b, w1) ->
    fst (fst (relocateEntry type buffer (segment, offset) (Some survivor) b
                w1)) = RELOCATION_FAILED ->
    LogCleaner.compactEntries segment survivor
      (pre ++ (type, offset, buffer) :: post) b0 w
    = Throw (FatalError "Entry didn't fit into survivor!").
Proof.
  induction pre as [| [[type' offset'] buffer'] pre IH];
    intros b0 w b w1 Hpre Hfail.
  - injection Hpre as <- <-. simpl.
    unfold LogCleaner.bind, LogCleaner.invoke.
    destruct (relocateEntry type buffer (segment, offset) (Some survivor) b0 w)
      as [[s b'] w'].
    simpl in Hfail. subst s. reflexivity.
  - simpl in Hpre |- *.
    unfold LogCleaner.bind, LogCleaner.invoke in Hpre |- *.
    destruct (relocateEntry type' buffer' (segment, offset') (Some survivor)
                b0 w) as [[s b'] w'].
    destruct (RelocStatus_eqb s RELOCATION_FAILED); [discriminate |].
    eapply IH; eassumption.
Qed.

Lemma relocateLoop_app (pre post : list Entry) :
  forall (l : LogCleaner.Relocation) w l1 w1,
    LogCleaner.relocateLoop pre l w = Ok (l1, w1) ->
    LogCleaner.relocateLoop (pre ++ post) l w
    = LogCleaner.relocateLoop post l1 w1.
Proof.
  induction pre as [| entry pre IH]; intros l w l1 w1 Hpre.
  - injection Hpre as <- <-. reflexivity.
  - simpl in Hpre |- *.
    apply bind_ok_inv in Hpre as (l' & w' & Hstep & Hrest).
    rewrite (bind_ok _ _ _ _ _ Hstep). now apply IH.
Qed.

(** What [relocateStep] does with an entry for which the first
    [relocateEntry] reports [RELOCATION_FAILED]: it retires the current
    survivor, allocates a fresh one and tries the same entry again there,
    and a second failure is fatal; otherwise the fresh survivor is the
    current one from then on and has been added to the survivors. *)
Lemma relocateStep_failed (entry : Entry) (l : LogCleaner.Relocation) w
    (type : LogEntryType) (buffer : Buffer) (b b' : Z)
    (w1 w2 w3 : World External) (fresh : ptr) :
  getEntry (store w (segment entry)) (offset entry) = (type, buffer) ->
  relocateEntry type buffer (segment entry, offset entry)
    (LogCleaner.survivor l) (LogCleaner.bytesAppended l) w
  = (RELOCATION_FAILED, b, w1) ->
  LogCleaner.retireSurvivor (LogCleaner.survivor l) b w1 = Ok (b', w2) ->
  allocSideSegment None w2 = (Some fresh, w3) ->
  forall (s : RelocStatus) (b'' : Z) (w4 : World External),
    relocateEntry type buffer (segment entry, offset entry) (Some fresh) b' w3
    = (s, b'', w4) ->
    (s = RELOCATION_FAILED ->
     LogCleaner.relocateStep entry l w
     = Throw (FatalError "Entry didn't fit into empty survivor!")) /\
    (s <> RELOCATION_FAILED ->
     exists l' : LogCleaner.Relocation,
       LogCleaner.relocateStep entry l w = Ok (l', w4) /\
       LogCleaner.survivor l' = Some fresh /\
       LogCleaner.outSurvivors l' = LogCleaner.outSurvivors l ++ [fresh] /\
       LogCleaner.bytesAppended l' = b'').
Proof.
  intros Hentry Hfirst Hretire Halloc s b'' w4 Hsecond.
  unfold LogCleaner.relocateStep.
  cbv beta iota delta [LogCleaner.bind LogCleaner.load LogCleaner.invoke].
  rewrite Hentry, Hfirst. cbn [RelocStatus_eqb]. rewrite Hretire, Halloc.
  rewrite Hsecond.
  split.
  - intros ->. reflexivity.
  - intros Hs.
    destruct s; [| | contradiction]; cbn [RelocStatus_eqb];
      unfold LogCleaner.ret; cbn; eexists; (split; [reflexivity |]);
      cbn; auto.
Qed.

(** To retire the current survivor is to add the bytes appended to its
    live bytes, to close it, to tell its replicated segment to close, and
    to free the seglets it does not use, which must succeed; the count of
    bytes appended starts again at 0. *)
Lemma retireSurvivor_closes (current : ptr) (b : Z) w :
  let accounted :=
    LogSegment.set_liveBytes
      (u32 (LogSegment.liveBytes (store w current) + b)) (store w current) in
  let closing :=
    replicatedSegment_close current
      (mkWorld
         (update (update (store w) current accounted) current
            (close accounted))
         (candidates w) (external w)) in
  let freeing :=
    freeUnusedSeglets
      (u32 (LogSegment.getSegletsAllocated (store closing current)
            - getSegletsInUse (store closing current)))
      (store closing current) in
  LogCleaner.retireSurvivor (Some current) b w
  = if fst freeing
    then Ok (0, mkWorld (update (store closing) current (snd freeing))
                  (candidates closing) (external closing))
    else Throw (AssertionFailed "r").
Proof.
  intros accounted closing freeing. subst accounted closing freeing.
  unfold LogCleaner.retireSurvivor, LogCleaner.addLiveBytes,
    LogCleaner.closeSurvivor, LogCleaner.write.
  cbv beta iota delta [LogCleaner.bind LogCleaner.load LogCleaner.modify
    LogCleaner.ret].
  cbn [store candidates external]. rewrite update_same.
  destruct (freeUnusedSeglets _ _) as [[|] freed]; reflexivity.
Qed.

(** Where retiring the survivor fails, the iteration fails with it. *)
Lemma relocateStep_retire_throws (entry : Entry) (l : LogCleaner.Relocation)
    w (type : LogEntryType) (buffer : Buffer) (b : Z) (w1 : World External)
    (e : Exception) :
  getEntry (store w (segment entry)) (offset entry) = (type, buffer) ->
  relocateEntry type buffer (segment entry, offset entry)
    (LogCleaner.survivor l) (LogCleaner.bytesAppended l) w
  = (RELOCATION_FAILED, b, w1) ->
  LogCleaner.retireSurvivor (LogCleaner.survivor l) b w1 = Throw e ->
  LogCleaner.relocateStep entry l w = Throw e.
Proof.
  intros Hentry Hfirst Hretire. unfold LogCleaner.relocateStep.
  cbv beta iota delta [LogCleaner.bind LogCleaner.load LogCleaner.invoke].
  rewrite Hentry, Hfirst. cbn [RelocStatus_eqb]. now rewrite Hretire.
Qed.

(** C6.  In-memory compaction: when [relocateEntry] reports
    [RELOCATION_FAILED] for an entry of the segment being compacted, the
    entries before it having been processed, [doMemoryCleaning] ends with
    the fatal error.  Disk cleaning: when it reports [RELOCATION_FAILED]
    for an entry on the current survivor, that survivor is closed - the
    bytes appended are added to its live bytes, the segment and its
    replicated segment are closed and its unused seglets are freed, which
    must succeed - then a fresh survivor is allocated and the same entry
    is tried again on it, the count of bytes appended starting at 0; if
    that fails too, [relocateLiveEntries] ends with the fatal error, and
    otherwise the loop goes on with the fresh survivor, now recorded among
    the survivors.  Where there is no survivor yet, nothing is closed and
    the entry is tried on a fresh survivor in the same way. *)
Theorem relocation_failure_is_fatal :
  (forall (clock : nat -> Z) w (segment : ptr) (freeableSeglets : Z)
          (remaining : list ptr) (survivor : ptr) (w1 w2 : World External)
          (pre post : list (LogEntryType * Z * Buffer))
          (type : LogEntryType) (offset : Z) (buffer : Buffer) (b : Z),
     disableInMemoryCleaning config = false ->
     LogCleaner.getSegmentToCompact config clock (store w) (candidates w)
     = (Some (segment, freeableSeglets), remaining) ->
     allocSideSegment (Some segment)
       (mkWorld (store w) remaining (external w))
     = (Some survivor, w1) ->
     segmentEntries (store w1 segment)
     = pre ++ (type, offset, buffer) :: post ->
     LogCleaner.compactEntries segment survivor pre 0 w1 = Ok (b, w2) ->
     fst (fst (relocateEntry type buffer (segment, offset) (Some survivor) b
                 w2)) = RELOCATION_FAILED ->
     LogCleaner.doMemoryCleaning config clock w
     = Throw (FatalError "Entry didn't fit into survivor!")) /\
  (forall (pre post : list Entry) (entry : Entry) w
          (l : LogCleaner.Relocation) (w1 : World External) (current : ptr),
     LogCleaner.relocateLoop pre LogCleaner.noRelocation w = Ok (l, w1) ->
     LogCleaner.survivor l = Some current ->
     let read := getEntry (store w1 (segment entry)) (offset entry) in
     let reference := (segment entry, offset entry) in
     let first :=
       relocateEntry (fst read) (snd read) reference (Some current)
         (LogCleaner.bytesAppended l) w1 in
     fst (fst first) = RELOCATION_FAILED ->
     let accounted :=
       LogSegment.set_liveBytes
         (u32 (LogSegment.liveBytes (store (snd first) current)
               + snd (fst first)))
         (store (snd first) current) in
     let closing :=
       replicatedSegment_close current
         (mkWorld
            (update (update (store (snd first)) current accounted) current
               (close accounted))
            (candidates (snd first)) (external (snd first))) in
     let freeing :=
       freeUnusedSeglets
         (u32 (LogSegment.getSegletsAllocated (store closing current)
               - getSegletsInUse (store closing current)))
         (store closing current) in
     let closed :=
       mkWorld (update (store closing) current (snd freeing))
         (candidates closing) (external closing) in
     let allocation := allocSideSegment None closed in
     (fst freeing = false ->
      LogCleaner.relocateLiveEntries (pre ++ entry :: post) w
      = Throw (AssertionFailed "r")) /\
     (fst freeing = true ->
      forall fresh : ptr,
        fst allocation = Some fresh ->
        let retry :=
          relocateEntry (fst read) (snd read) reference (Some fresh) 0
            (snd allocation) in
        (fst (fst retry) = RELOCATION_FAILED ->
         LogCleaner.relocateLiveEntries (pre ++ entry :: post) w
         = Throw (FatalError "Entry didn't fit into empty survivor!")) /\
        (fst (fst retry) <> RELOCATION_FAILED ->
         exists l' : LogCleaner.Relocation,
           LogCleaner.relocateLoop (pre ++ [entry]) LogCleaner.noRelocation w
           = Ok (l', snd retry) /\
           LogCleaner.survivor l' = Some fresh /\
           LogCleaner.outSurvivors l' = LogCleaner.outSurvivors l ++ [fresh] /\
           LogCleaner.bytesAppended l' = snd (fst retry)))) /\
  (forall (pre post : list Entry) (entry : Entry) w
          (l : LogCleaner.Relocation) (w1 : World External),
     LogCleaner.relocateLoop pre LogCleaner.noRelocation w = Ok (l, w1) ->
     LogCleaner.survivor l = None ->
     let read := getEntry (store w1 (segment entry)) (offset entry) in
     let reference := (segment entry, offset entry) in
     let first :=
       relocateEntry (fst read) (snd read) reference None
         (LogCleaner.bytesAppended l) w1 in
     fst (fst first) = RELOCATION_FAILED ->
     let allocation := allocSideSegment None (snd first) in
     forall fresh : ptr,
       fst allocation = Some fresh ->
       let retry :=
         relocateEntry (fst read) (snd read) reference (Some fresh)
           (snd (fst first)) (snd allocation) in
       (fst (fst retry) = RELOCATION_FAILED ->
        LogCleaner.relocateLiveEntries (pre ++ entry :: post) w
        = Throw (FatalError "Entry didn't fit into empty survivor!")) /\
       (fst (fst retry) <> RELOCATION_FAILED ->
        exists l' : LogCleaner.Relocation,
          LogCleaner.relocateLoop (pre ++ [entry]) LogCleaner.noRelocation w
          = Ok (l', snd retry) /\
          LogCleaner.survivor l' = Some fresh /\
          LogCleaner.outSurvivors l' = LogCleaner.outSurvivors l ++ [fresh] /\
          LogCleaner.bytesAppended l' = snd (fst retry))).
Proof.
  assert (Hretry : forall (pre post : list Entry) (entry : Entry) w
            (l : LogCleaner.Relocation) (type : LogEntryType)
            (buffer : Buffer) (b b' : Z) (w1 w2 w3 w4 : World External)
            (fresh : ptr) (s : RelocStatus) (b'' : Z) (w5 : World External),
    LogCleaner.relocateLoop pre LogCleaner.noRelocation w = Ok (l, w1) ->
    getEntry (store w1 (segment entry)) (offset entry) = (type, buffer) ->
    relocateEntry type buffer (segment entry, offset entry)
      (LogCleaner.survivor l) (LogCleaner.bytesAppended l) w1
    = (RELOCATION_FAILED, b, w2) ->
    LogCleaner.retireSurvivor (LogCleaner.survivor l) b w2 = Ok (b', w3) ->
    allocSideSegment None w3 = (Some fresh, w4) ->
    relocateEntry type buffer (segment entry, offset entry) (Some fresh) b'
      w4 = (s, b'', w5) ->
    (s = RELOCATION_FAILED ->
     LogCleaner.relocateLiveEntries (pre ++ entry :: post) w
     = Throw (FatalError "Entry didn't fit into empty survivor!")) /\
    (s <> RELOCATION_FAILED ->
     exists l' : LogCleaner.Relocation,
       LogCleaner.relocateLoop (pre ++ [entry]) LogCleaner.noRelocation w
       = Ok (l', w5) /\
       LogCleaner.survivor l' = Some fresh /\
       LogCleaner.outSurvivors l' = LogCleaner.outSurvivors l ++ [fresh] /\
       LogCleaner.bytesAppended l' = b'')).
  { intros pre post entry w l type buffer b b' w1 w2 w3 w4 fresh s b'' w5
      Hpre Hentry Hfirst Hretire Halloc Hsecond.
    destruct (relocateStep_failed entry l w1 type buffer b b' w2 w3 w4 fresh
                Hentry Hfirst Hretire Halloc s b'' w5 Hsecond)
      as [Hfatal Hgoes].
    split.
    - intros Hs. unfold LogCleaner.relocateLiveEntries.
      apply bind_throw. rewrite (relocateLoop_app pre _ _ _ _ _ Hpre).
      simpl. apply bind_throw. now apply Hfatal.
    - intros Hs. destruct (Hgoes Hs) as (l' & Hstep & Hsurv & Hout & Hbytes).
      exists l'. rewrite (relocateLoop_app pre _ _ _ _ _ Hpre). simpl.
      rewrite (bind_ok _ _ _ _ _ Hstep). now repeat split. }
  split; [| split].
  - intros clock w segment freeableSeglets remaining survivor w1 w2 pre post
      type offset buffer b Henabled Hfound Halloc Hentries Hpre Hfail.
    unfold LogCleaner.doMemoryCleaning. rewrite Henabled.
    cbv beta iota delta [LogCleaner.bind LogCleaner.get
      LogCleaner.setCandidates LogCleaner.modify LogCleaner.invoke
      LogCleaner.load].
    rewrite Hfound. cbv beta iota. rewrite Halloc. cbv beta iota.
    rewrite Hentries.
    now rewrite (compactEntries_failed segment survivor type offset buffer
                   post pre 0 w1 b w2 Hpre Hfail).
  - intros pre post entry w l w1 current Hpre Hcurrent read reference first
      Hfail accounted closing freeing closed allocation.
    pose proof (retireSurvivor_closes current (snd (fst first)) (snd first))
      as Hretire.
    cbv zeta in Hretire. fold accounted closing freeing closed in Hretire.
    assert (Hentry : getEntry (store w1 (segment entry)) (offset entry)
                     = (fst read, snd read))
      by (unfold read; now destruct (getEntry _ _)).
    assert (Hfirst :
      relocateEntry (fst read) (snd read) (segment entry, offset entry)
        (LogCleaner.survivor l) (LogCleaner.bytesAppended l) w1
      = (RELOCATION_FAILED, snd (fst first), snd first)).
    { rewrite Hcurrent. fold reference. fold first. rewrite <- Hfail.
      now destruct first as [[s1 b1] w2]. }
    rewrite <- Hcurrent in Hretire.
    split.
    + intros Hfreeing. rewrite Hfreeing in Hretire.
      unfold LogCleaner.relocateLiveEntries.
      apply bind_throw. rewrite (relocateLoop_app pre _ _ _ _ _ Hpre).
      simpl. apply bind_throw.
      exact (relocateStep_retire_throws entry l w1 _ _ _ _ _ Hentry Hfirst
               Hretire).
    + intros Hfreeing fresh Hfresh retry. rewrite Hfreeing in Hretire.
      assert (Halloc : allocSideSegment None closed
                       = (Some fresh, snd allocation)).
      { fold allocation. rewrite <- Hfresh. now destruct allocation. }
      assert (Hsecond :
        relocateEntry (fst read) (snd read) (segment entry, offset entry)
          (Some fresh) 0 (snd allocation)
        = (fst (fst retry), snd (fst retry), snd retry)).
      { fold reference. fold retry. now destruct retry as [[s2 b2] w5]. }
      exact (Hretry pre post entry w l _ _ _ _ w1 _ _ _ fresh _ _ _ Hpre
               Hentry Hfirst Hretire Halloc Hsecond).
  - intros pre post entry w l w1 Hpre Hnone read reference first Hfail
      allocation fresh Hfresh retry.
    assert (Hentry : getEntry (store w1 (segment entry)) (offset entry)
                     = (fst read, snd read))
      by (unfold read; now destruct (getEntry _ _)).
    assert (Hfirst :
      relocateEntry (fst read) (snd read) (segment entry, offset entry)
        (LogCleaner.survivor l) (LogCleaner.bytesAppended l) w1
      = (RELOCATION_FAILED, snd (fst first), snd first)).
    { rewrite Hnone. fold reference. fold first. rewrite <- Hfail.
      now destruct first as [[s1 b1] w2]. }
    assert (Hretire :
      LogCleaner.retireSurvivor (LogCleaner.survivor l) (snd (fst first))
        (snd first)
      = Ok (snd (fst first), snd first)) by now rewrite Hnone.
    assert (Halloc : allocSideSegment None (snd first)
                     = (Some fresh, snd allocation)).
    { fold allocation. rewrite <- Hfresh. now destruct allocation. }
    assert (Hsecond :
      relocateEntry (fst read) (snd read) (segment entry, offset entry)
        (Some fresh) (snd (fst first)) (snd allocation)
      = (fst (fst retry), snd (fst retry), snd retry)).
    { fold reference. fold retry. now destruct retry as [[s2 b2] w5]. }
    exact (Hretry pre post entry w l _ _ _ _ w1 _ _ _ fresh _ _ _ Hpre
             Hentry Hfirst Hretire Halloc Hsecond).
Qed.

End Passes.

(** ** The collaborators of the specification meet the contracts *)

Section InsertionSort.
Context {A : Type} (comp : A -> A -> bool).

Lemma insertSorted_perm (x : A) (l : list A) :
  Permutation (SpecModel.insertSorted comp x l) (x :: l).
Proof.
  induction l as [| y l IH]; simpl; [reflexivity |].
  destruct (comp x y); [reflexivity |].
  rewrite IH. apply perm_swap.
Qed.

Lemma insertionSort_perm (l : list A) :
  Permutation (SpecModel.insertionSort A comp l) l.
Proof.
  induction l as [| x l IH]; simpl; [reflexivity |].
  rewrite insertSorted_perm. now constructor.
Qed.

Lemma insertSorted_sorted (x : A) (l : list A) :
  StrictWeakOrder comp -> SortedBy comp l ->
  SortedBy comp (SpecModel.insertSorted comp x l).
Proof.
  intros (Hirr & Htrans & Hneg). unfold SortedBy.
  induction 1 as [| y l Hl IH Hy]; simpl.
  - repeat constructor.
  - destruct (comp x y) eqn:Exy.
    + constructor; [now constructor |].
      constructor.
      * destruct (comp y x) eqn:Eyx; [| reflexivity].
        rewrite <- (Hirr x). symmetry. now apply (Htrans x y x).
      * eapply List.Forall_impl; [| exact Hy]. cbv beta.
        intros z Hzy. destruct (comp z x) eqn:Ezx; [| reflexivity].
        rewrite <- Hzy. symmetry. now apply (Htrans z x y).
    + constructor; [exact IH |].
      eapply Permutation_Forall;
        [symmetry; apply insertSorted_perm |].
      constructor; [exact Exy | exact Hy].
Qed.

Lemma insertionSort_sorted (l : list A) :
  StrictWeakOrder comp -> SortedBy comp (SpecModel.insertionSort A comp l).
Proof.
  intros Horder. induction l as [| x l IH]; simpl.
  - constructor.
  - now apply insertSorted_sorted.
Qed.

End InsertionSort.

Lemma specModel_sort_contract (config : Config) (maxUtilization maxLive : Z) :
  @StdSortContract (SpecModel.collaborators config maxUtilization maxLive).
Proof.
  intros A comp l. split.
  - apply insertionSort_perm.
  - apply insertionSort_sorted.
Qed.

(** ** The properties at work on concrete segments *)

Ltac by_computation :=
  vm_compute; repeat split; try reflexivity; try discriminate;
  intros; discriminate.

Ltac each_candidate Hp :=
  apply list_elem_of_In in Hp; simpl in Hp;
  repeat (destruct Hp as [<- | Hp]); [.. | destruct Hp].

(** The code's [segletsNeeded] never falls short of the specification's
    rounded-up quotient, for seglets of at least 99 bytes and a maximum
    utilization below 100 percent: it errs on the side of keeping
    seglets. *)
Lemma segletsNeeded_conservative `{Collaborators} (config : Config)
    (liveBytes : Z) :
  99 <= segletSize config ->
  0 < MAX_CLEANABLE_MEMORY_UTILIZATION <= 99 ->
  0 <= liveBytes ->
  100 * (liveBytes + segletSize config - 1) < 2 ^ 32 ->
  Spec.segletsNeeded (segletSize config) MAX_CLEANABLE_MEMORY_UTILIZATION
    liveBytes
  <= LogCleaner.segletsNeeded config liveBytes.
Proof.
  intros Hs Hm Hl Hfit. unfold Spec.segletsNeeded, LogCleaner.segletsNeeded.
  set (S := segletSize config) in *.
  set (M := MAX_CLEANABLE_MEMORY_UTILIZATION) in *.
  rewrite (u32_small (liveBytes + S)) by lia.
  rewrite (u32_small (liveBytes + S - 1)) by lia.
  rewrite (u32_small (100 * (liveBytes + S - 1))) by lia.
  rewrite Z.div_div by lia.
  apply Z.div_le_mono; nia.
Qed.

(** C1 at work: of three candidates with 0, 8 and 8 freeable seglets, the
    second is returned with 8. *)
Lemma getSegmentToCompact_most_freeable_witness :
  exists (k : nat) (best : ptr),
    @LogCleaner.getSegmentToCompact Scenario.cleaner Scenario.config
      Scenario.clock
      (Scenario.storeOf
         [Scenario.nineOfEleven; Scenario.oneOfTen; Scenario.noneOfNine])
      [0; 1; 2]%nat
    = (Some (best,
             @Aux.freeable Scenario.cleaner Scenario.config
               (Scenario.storeOf
                  [Scenario.nineOfEleven; Scenario.oneOfTen;
                   Scenario.noneOfNine] best)),
       swapRemove k [0; 1; 2]%nat) /\
    0 < @Aux.freeable Scenario.cleaner Scenario.config
          (Scenario.storeOf
             [Scenario.nineOfEleven; Scenario.oneOfTen; Scenario.noneOfNine]
             best) /\
    Aux.FirstMax
      (fun _ p =>
         @Aux.freeable Scenario.cleaner Scenario.config
           (Scenario.storeOf
              [Scenario.nineOfEleven; Scenario.oneOfTen; Scenario.noneOfNine]
              p))
      [0; 1; 2]%nat k best.
Proof.
  apply (@getSegmentToCompact_most_freeable Scenario.cleaner Scenario.config
           Scenario.clock).
  - reflexivity.
  - reflexivity.
  - intros p Hp. each_candidate Hp; by_computation.
  - exists 1%nat. split; [apply list_elem_of_In; simpl; auto | reflexivity].
Defined.

(** C1 refuted as stated: for nine seglets' worth of live bytes in eleven
    seglets the specification's formula needs 10 seglets and frees 1; the
    code needs 11, frees none, and returns no segment. *)
Lemma getSegmentToCompact_ceiling_counterexample :
  Spec.segletsNeeded 65536 90 (LogSegment.liveBytes Scenario.nineOfEleven)
  = 10 /\
  Spec.delta 65536 90 Scenario.nineOfEleven = 1 /\
  @LogCleaner.segletsNeeded Scenario.cleaner Scenario.config
    (LogSegment.liveBytes Scenario.nineOfEleven) = 11 /\
  @LogCleaner.getSegmentToCompact Scenario.cleaner Scenario.config
    Scenario.clock (Scenario.storeOf [Scenario.nineOfEleven]) [0%nat]
  = (None, [0%nat]) /\
  fst (@LogCleaner.getSegmentToCompact Scenario.cleaner Scenario.config
         Scenario.clock (Scenario.storeOf [Scenario.nineOfEleven]) [0%nat])
  <> Some (0%nat, Spec.delta 65536 90 Scenario.nineOfEleven).
Proof. by_computation. Qed.

(** C2 at work: half full and 60 seconds old, a segment has cost-benefit
    [(50 * 60) / 50]. *)
Lemma costBenefit_formula_witness :
  @CostBenefitComparer.costBenefit Scenario.cleaner Scenario.comparer
    Scenario.halfFull
  = Spec.costBenefit 100 (Z.min 40 100) 50 /\
  Spec.costBenefit 100 (Z.min 40 100) 50 = 60.
Proof.
  split; [| reflexivity].
  apply (proj1 (@costBenefit_formula Scenario.cleaner Scenario.comparer
                  Scenario.halfFull
                  ltac:(by_computation) ltac:(by_computation)
                  ltac:(by_computation) ltac:(by_computation))).
  by_computation.
Defined.

(** C2 refuted as stated: a segment half full and created 100 seconds
    after [now] has cost-benefit 0, where [((100 - u) * age) / u] with
    [age = now - creationTimestamp] is -100. *)
Lemma costBenefit_skew_counterexample :
  @getDiskUtilization Scenario.cleaner Scenario.fromTheFuture = 50 /\
  @CostBenefitComparer.costBenefit Scenario.cleaner Scenario.comparer
    Scenario.fromTheFuture = 0 /\
  Spec.costBenefit (CostBenefitComparer.now Scenario.comparer)
    (LogSegment.creationTimestamp Scenario.fromTheFuture)
    (@getDiskUtilization Scenario.cleaner Scenario.fromTheFuture) = -100 /\
  @CostBenefitComparer.costBenefit Scenario.cleaner Scenario.comparer
    Scenario.fromTheFuture
  <> Spec.costBenefit (CostBenefitComparer.now Scenario.comparer)
       (LogSegment.creationTimestamp Scenario.fromTheFuture)
       (@getDiskUtilization Scenario.cleaner Scenario.fromTheFuture).
Proof. by_computation. Qed.

(** C10 at work: the segment created at second 200 is compared at second
    100. *)
Lemma costBenefit_clock_skew_witness :
  CostBenefitComparer.clampTimestamp Scenario.comparer
    (LogSegment.creationTimestamp Scenario.fromTheFuture) = 100 /\
  @CostBenefitComparer.costBenefit Scenario.cleaner Scenario.comparer
    Scenario.fromTheFuture = 0.
Proof.
  destruct (@costBenefit_clock_skew Scenario.cleaner Scenario.comparer
              Scenario.fromTheFuture ltac:(by_computation))
    as (Hclamp & _ & Hzero).
  split; [exact Hclamp | apply Hzero; by_computation].
Defined.

(** C3 at work: with a budget of one segment's worth of live bytes, the
    packed segment comes first in cost-benefit order and is skipped, two
    half-full segments are selected, and the scan ends in front of the
    third. *)
Lemma getSegmentsToClean_selection_witness :
  fst (@LogCleaner.getSegmentsToClean Scenario.tightCleaner Scenario.config
         Scenario.comparer
         (Scenario.storeOf
            [Scenario.halfFull; Scenario.packed; Scenario.halfFull;
             Scenario.halfFull])
         [0; 1; 2; 3]%nat)
  = [3; 2]%nat /\
  exists scanned rest,
    @LogCleaner.sortSegmentsByCostBenefit Scenario.tightCleaner
      Scenario.comparer
      (Scenario.storeOf
         [Scenario.halfFull; Scenario.packed; Scenario.halfFull;
          Scenario.halfFull])
      [0; 1; 2; 3]%nat
    = scanned ++ rest /\
    fst (@LogCleaner.getSegmentsToClean Scenario.tightCleaner Scenario.config
           Scenario.comparer
           (Scenario.storeOf
              [Scenario.halfFull; Scenario.packed; Scenario.halfFull;
               Scenario.halfFull])
           [0; 1; 2; 3]%nat)
    = List.filter
        (fun p =>
           @getMemoryUtilization Scenario.tightCleaner
             (Scenario.storeOf
                [Scenario.halfFull; Scenario.packed; Scenario.halfFull;
                 Scenario.halfFull] p)
           <=? 90) scanned.
Proof.
  split; [reflexivity |].
  destruct (@getSegmentsToClean_selection Scenario.tightCleaner
              Scenario.config Scenario.comparer
              (Scenario.storeOf
                 [Scenario.halfFull; Scenario.packed; Scenario.halfFull;
                  Scenario.halfFull])
              [0; 1; 2; 3]%nat
              (specModel_sort_contract Scenario.config 90 1)
              ltac:(by_computation)
              ltac:(intros p Hp; each_candidate Hp; by_computation))
    as (_ & _ & scanned & rest & Hsplit & Hselected & _).
  exists scanned, rest. split; [exact Hsplit | exact Hselected].
Defined.


(** The unsigned difference at work: a full candidate with one tombstone
    that was compacted one second after the clock reading is returned
    ahead of one with a thousand tombstones compacted 30 seconds before
    it, the products on the integers being -1 and 30000. *)
Lemma getSegmentToCompact_skewed_tombstones :
  Spec.goodness (Scenario.clock 0) (Scenario.counters 65536 1 1 40 51) = -1 /\
  Spec.goodness (Scenario.clock 1) (Scenario.counters 65536 1 1000 40 20)
  = 30000 /\
  Aux.tombstoneScore (Scenario.clock 0) (Scenario.counters 65536 1 1 40 51)
  = 4294967295 /\
  @LogCleaner.getSegmentToCompact Scenario.cleaner Scenario.config
    Scenario.clock
    (Scenario.storeOf
       [Scenario.counters 65536 1 1 40 51;
        Scenario.counters 65536 1 1000 40 20])
    [0; 1]%nat
  = (Some (0%nat, 0), [1%nat]).
Proof. by_computation. Qed.


(** C4 at work: the pass over the world with one live object. *)
Lemma doDiskCleaning_no_growth_witness :
  exists relocated : World SpecModel.External,
    LogCleaner.cleaned Scenario.diskPass <> [] /\
    (length (LogCleaner.survivors Scenario.diskPass)
     <= length (LogCleaner.cleaned Scenario.diskPass))%nat /\
    LogCleaner.sumSeglets (store relocated)
      (LogCleaner.survivors Scenario.diskPass)
    <= LogCleaner.sumSeglets (store Scenario.oneObjectWorld)
         (LogCleaner.cleaned Scenario.diskPass).
Proof.
  destruct (@doDiskCleaning_no_growth Scenario.smallCleaner
              Scenario.smallConfig Scenario.comparer true
              Scenario.oneObjectWorld Scenario.diskPass Scenario.diskWorld
              ltac:(vm_compute; reflexivity))
    as (relocated & _ & _ & _ & Hcleaned & Hcount & Hseglets & _).
  exists relocated. split; [exact Hcleaned |]. split; assumption.
Defined.

(** C4 refuted as stated: the pass over the world with one live object
    runs to completion, cleans one segment and leaves one survivor - as
    many survivors as segments cleaned, not fewer. *)
Lemma doDiskCleaning_one_for_one_counterexample :
  Scenario.diskRun = Ok (Some Scenario.diskPass, Scenario.diskWorld) /\
  LogCleaner.cleaned Scenario.diskPass = [0%nat] /\
  LogCleaner.survivors Scenario.diskPass = [1%nat] /\
  ~ (length (LogCleaner.survivors Scenario.diskPass)
     < length (LogCleaner.cleaned Scenario.diskPass))%nat.
Proof.
  split; [vm_compute; reflexivity |].
  split; [vm_compute; reflexivity |].
  split; [vm_compute; reflexivity |].
  vm_compute. lia.
Qed.

(** C6 at work, in segments of 16 bytes.  An object of 20 bytes does not
    fit the survivor of a compaction.  In disk cleaning, an object of 5
    bytes starts the survivor at address 1; the object of 20 bytes after
    it does not fit there, the survivor is closed, and the object does
    not fit the fresh survivor either; an object of 6 bytes in its place
    goes to the fresh survivor at address 2.  An object of 20 bytes that
    comes first does not fit the first survivor. *)
Lemma relocation_failure_is_fatal_witness :
  @LogCleaner.doMemoryCleaning Scenario.tinyCleaner Scenario.tinyConfig
    Scenario.clock Scenario.bigObjectWorld
  = Throw (FatalError "Entry didn't fit into survivor!") /\
  @LogCleaner.relocateLiveEntries Scenario.tinyCleaner
    ([mkEntry 0%nat 0 0] ++ [mkEntry 0%nat 10 0]) Scenario.twoObjectsWorld
  = Throw (FatalError "Entry didn't fit into empty survivor!") /\
  (exists (l' : LogCleaner.Relocation) (w' : World SpecModel.External),
     @LogCleaner.relocateLoop Scenario.tinyCleaner
       ([mkEntry 0%nat 0 0] ++ [mkEntry 0%nat 10 0])
       LogCleaner.noRelocation Scenario.twoSmallObjectsWorld
     = Ok (l', w') /\
     LogCleaner.survivor l' = Some 2%nat /\
     LogCleaner.outSurvivors l' = [1; 2]%nat /\
     LogSegment.closed (store w' 1%nat) = true /\
     LogSegment.liveBytes (store w' 1%nat) = 10) /\
  @LogCleaner.relocateLiveEntries Scenario.tinyCleaner
    ([] ++ [mkEntry 0%nat 0 0]) Scenario.bigObjectWorld
  = Throw (FatalError "Entry didn't fit into empty survivor!").
Proof.
  split; [| split; [| split]].
  - apply (proj1 (@relocation_failure_is_fatal Scenario.tinyCleaner
                    Scenario.tinyConfig)
             Scenario.clock Scenario.bigObjectWorld 0%nat 2 [] 1%nat
             Scenario.bigObjectCompactionWorld
             Scenario.bigObjectCompactionWorld
             [] [] LOG_ENTRY_TYPE_OBJ 0 (repeat Byte.x00 20) 0);
      vm_compute; reflexivity.
  - pose proof (proj1 (proj2 (@relocation_failure_is_fatal
                                Scenario.tinyCleaner Scenario.tinyConfig))
                  [mkEntry 0%nat 0 0] [] (mkEntry 0%nat 10 0)
                  Scenario.twoObjectsWorld
                  (Scenario.afterFirst Scenario.twoObjectsWorld)
                  (Scenario.afterFirstWorld Scenario.twoObjectsWorld) 1%nat
                  ltac:(vm_compute; reflexivity)
                  ltac:(vm_compute; reflexivity)
                  ltac:(vm_compute; reflexivity)) as Hclosed.
    cbv zeta in Hclosed. destruct Hclosed as [_ Hretry].
    apply (Hretry ltac:(vm_compute; reflexivity) 2%nat
             ltac:(vm_compute; reflexivity)).
    vm_compute. reflexivity.
  - pose proof (proj1 (proj2 (@relocation_failure_is_fatal
                                Scenario.tinyCleaner Scenario.tinyConfig))
                  [mkEntry 0%nat 0 0] [] (mkEntry 0%nat 10 0)
                  Scenario.twoSmallObjectsWorld
                  (Scenario.afterFirst Scenario.twoSmallObjectsWorld)
                  (Scenario.afterFirstWorld Scenario.twoSmallObjectsWorld)
                  1%nat
                  ltac:(vm_compute; reflexivity)
                  ltac:(vm_compute; reflexivity)
                  ltac:(vm_compute; reflexivity)) as Hclosed.
    cbv zeta in Hclosed. destruct Hclosed as [_ Hretry].
    destruct (Hretry ltac:(vm_compute; reflexivity) 2%nat
                ltac:(vm_compute; reflexivity)) as [_ Hgoes].
    destruct (Hgoes ltac:(vm_compute; discriminate))
      as (l' & Hloop & Hsurvivor & Hsurvivors & _).
    eexists l', _. split; [exact Hloop |].
    split; [exact Hsurvivor |]. split; [exact Hsurvivors |].
    split; vm_compute; reflexivity.
  - apply (proj2 (proj2 (@relocation_failure_is_fatal Scenario.tinyCleaner
                           Scenario.tinyConfig))
             [] [] (mkEntry 0%nat 0 0) Scenario.bigObjectWorld
             LogCleaner.noRelocation Scenario.bigObjectWorld
             eq_refl eq_refl ltac:(vm_compute; reflexivity) 1%nat
             ltac:(vm_compute; reflexivity)).
    vm_compute. reflexivity.
Defined.

(** C7 at work: table identifiers 7 and [7 + 2^32] give one fingerprint. *)
Lemma getHash_fingerprint_witness :
  @Key.getHash Scenario.keys (7 + 2 ^ 32) [Byte.x6b; Byte.x00] 1
  = @Key.getHash Scenario.keys 7 [Byte.x6b] 1.
Proof.
  apply (proj2 (@getHash_fingerprint Scenario.keys 7 [Byte.x6b] 1));
    reflexivity.
Defined.

(** C8 at work: a key and the same key with its fingerprint cached. *)
Lemma key_equality_witness :
  Key.eqb Scenario.keyK (snd (@Key.getHashCached Scenario.keys Scenario.keyK))
  = true
  <-> Key.sameKey Scenario.keyK
        (snd (@Key.getHashCached Scenario.keys Scenario.keyK)).
Proof.
  apply (@key_equality Scenario.keys Scenario.keyK
           (snd (@Key.getHashCached Scenario.keys Scenario.keyK))).
  - apply Key.reach_fromString.
  - apply Key.reach_getHash. apply Key.reach_fromString.
Defined.

(** C9 at work: an entry of a type with code 9 yields no key. *)
Lemma fromLogEntry_types_witness :
  @Key.fromLogEntry Scenario.keys (LOG_ENTRY_TYPE_OTHER 9) []
  = Throw (FatalError "unknown Log::Entry type").
Proof.
  apply (proj1 (@fromLogEntry_types Scenario.keys (LOG_ENTRY_TYPE_OTHER 9) []));
    discriminate.
Defined.

(** * Further properties of the cleaner and of keys *)

(** ** Removing a slot from a vector *)

Lemma back_snoc (v : list ptr) (b : ptr) : back (v ++ [b]) = b.
Proof.
  unfold back. rewrite length_app. simpl.
  replace (length v + 1 - 1)%nat with (length v) by lia.
  apply list_lookup_total_middle. reflexivity.
Qed.

Lemma pop_back_snoc (v : list ptr) (b : ptr) : pop_back (v ++ [b]) = v.
Proof.
  unfold pop_back. rewrite length_app. simpl.
  replace (length v + 1 - 1)%nat with (length v) by lia.
  apply take_app_length.
Qed.

(** The idiom removes the element of the slot and nothing else. *)
Lemma swapRemove_perm (v : list ptr) (k : nat) (p : ptr) :
  v !! k = Some p -> Permutation (p :: swapRemove k v) v.
Proof.
  intros Hk. apply list_elem_of_split_length in Hk as (l1 & l2 & -> & ->).
  unfold swapRemove.
  destruct l2 as [| b l2 _] using rev_ind.
  - rewrite back_snoc.
    replace (<[length l1 := p]> (l1 ++ [p])) with (l1 ++ [p]).
    + rewrite pop_back_snoc. apply Permutation_cons_append.
    + symmetry. rewrite insert_app_r_alt by lia.
      now rewrite Nat.sub_diag.
  - replace (l1 ++ p :: l2 ++ [b]) with ((l1 ++ p :: l2) ++ [b])
      by now rewrite <- app_assoc.
    rewrite back_snoc, insert_app_l by (rewrite length_app; simpl; lia).
    rewrite pop_back_snoc, insert_app_r_alt by lia.
    rewrite Nat.sub_diag. simpl. solve_Permutation.
Qed.

(** The slots in front of the one removed keep their elements. *)
Lemma swapRemove_lookup_lt (v : list ptr) (k j : nat) :
  (j < k)%nat -> (k < length v)%nat -> swapRemove k v !! j = v !! j.
Proof.
  intros Hjk Hk. unfold swapRemove, pop_back.
  rewrite length_insert, lookup_take_lt by lia.
  apply list_lookup_insert_ne. lia.
Qed.

(** ** More on the segment to compact *)

Section CompactionChoice.
Context `{Collaborators}.
Variable config : Config.
Implicit Types (h : Store) (candidates : list ptr).

Lemma guardedDelta_range (s : LogSegment.t) :
  0 <= Aux.guardedDelta config s < 2 ^ 32.
Proof.
  unfold Aux.guardedDelta, LogCleaner.delta.
  destruct (_ <? _); [apply u32_range | lia].
Qed.

(** The three ways [getSegmentToCompact] ends: with the first candidate
    of largest guarded [delta]; failing a positive one, with the first
    candidate of largest goodness; failing that too, with nothing. *)
Lemma getSegmentToCompact_cases (clock : nat -> Z) h candidates :
  (exists (k : nat) (best : ptr),
     LogCleaner.getSegmentToCompact config clock h candidates
     = (Some (best, Aux.guardedDelta config (h best)),
        swapRemove k candidates) /\
     0 < Aux.guardedDelta config (h best) /\
     Aux.FirstMax (fun _ p => Aux.guardedDelta config (h p)) candidates k
       best) \/
  ((forall j q, candidates !! j = Some q ->
      Aux.guardedDelta config (h q) <= 0) /\
   exists (k : nat) (best : ptr),
     LogCleaner.getSegmentToCompact config clock h candidates
     = (Some (best, 0), swapRemove k candidates) /\
     0 < LogCleaner.goodness (clock k) (h best) /\
     Aux.FirstMax (fun j p => LogCleaner.goodness (clock j) (h p))
       candidates k best) \/
  ((forall j q, candidates !! j = Some q ->
      Aux.guardedDelta config (h q) <= 0) /\
   (forall j q, candidates !! j = Some q ->
      LogCleaner.goodness (clock j) (h q) <= 0) /\
   LogCleaner.getSegmentToCompact config clock h candidates
   = (None, candidates)).
Proof.
  unfold LogCleaner.getSegmentToCompact.
  rewrite bestDeltaLoop_firstMax by lia.
  destruct (Aux.firstMax _ candidates 0 None 0) as [r b] eqn:Hdelta.
  apply firstMax_from_start in Hdelta
    as [(-> & -> & Hnone) | (k & best & -> & -> & Hpos & Hmax)].
  - right. rewrite bestGoodnessLoop_firstMax.
    destruct (Aux.firstMax _ candidates 0 None 0) as [r b] eqn:Hgood.
    apply firstMax_from_start in Hgood
      as [(-> & -> & Hnone') | (k & best & -> & -> & Hpos & Hmax)].
    + right. simpl. auto.
    + left. split; [exact Hnone |]. exists k, best. simpl.
      destruct Hmax as (Hk & Hmax).
      rewrite (list_lookup_total_correct _ _ _ Hk). repeat split; tauto.
  - left. exists k, best. simpl. destruct Hmax as (Hk & Hmax).
    rewrite (list_lookup_total_correct _ _ _ Hk). repeat split; tauto.
Qed.

(** X1.  [getSegmentToCompact] neither loses nor duplicates a candidate:
    the segment it returns was a candidate and the vector it leaves holds
    the other candidates, each as often as before; the number of freeable
    seglets it reports is an unsigned 32-bit value; and when it returns no
    segment the vector is as it was. *)
Theorem getSegmentToCompact_keeps_candidates (clock : nat -> Z) h
    candidates :
  match LogCleaner.getSegmentToCompact config clock h candidates with
  | (Some (best, freeableSeglets), remaining) =>
      Permutation (best :: remaining) candidates /\
      S (length remaining) = length candidates /\
      0 <= freeableSeglets < 2 ^ 32
  | (None, remaining) => remaining = candidates
  end.
Proof.
  destruct (getSegmentToCompact_cases clock h candidates)
    as [(k & best & -> & _ & Hk & _)
       | [(_ & k & best & -> & _ & Hk & _) | (_ & _ & ->)]];
    [| | reflexivity];
    (assert (Hperm : Permutation (best :: swapRemove k candidates) candidates)
       by now apply swapRemove_perm);
    (split; [exact Hperm |]);
    (split; [exact (Permutation_length Hperm) |]).
  - apply guardedDelta_range.
  - lia.
Qed.

(** X2.  [getSegmentToCompact] returns no segment exactly when no
    candidate passes the guard [segletsNeeded < segletsAllocated] with a
    positive [delta] and no candidate has a positive goodness - as is the
    case when there is no candidate at all. *)
Theorem getSegmentToCompact_null_iff (clock : nat -> Z) h candidates :
  (fst (LogCleaner.getSegmentToCompact config clock h candidates) = None
   <->
   forall j q, candidates !! j = Some q ->
     Aux.guardedDelta config (h q) = 0 /\
     LogCleaner.goodness (clock j) (h q) = 0) /\
  LogCleaner.getSegmentToCompact config clock h [] = (None, []).
Proof.
  split; [| reflexivity]. split.
  - intros Hnull.
    destruct (getSegmentToCompact_cases clock h candidates)
      as [(k & best & E & _) | [(_ & k & best & E & _) | (Hd & Hg & _)]];
      try (rewrite E in Hnull; discriminate).
    intros j q Hj. specialize (Hd j q Hj). specialize (Hg j q Hj).
    pose proof (guardedDelta_range (h q)).
    pose proof (u128_range
                  (LogSegment.getEntryCount (h q) LOG_ENTRY_TYPE_OBJTOMB
                   * u32 (clock j - LogSegment.lastCompactionTimestamp (h q)))).
    unfold LogCleaner.goodness in *. lia.
  - intros Hzero.
    destruct (getSegmentToCompact_cases clock h candidates)
      as [(k & best & _ & Hpos & Hk & _)
         | [(_ & k & best & _ & Hpos & Hk & _) | (_ & _ & ->)]];
      [| | reflexivity]; exfalso;
      destruct (Hzero k best Hk) as [Hd Hg]; lia.
Qed.

(** The arithmetic behind the guarantee of [getSegmentToCompact]: the
    seglets a segment is said to need hold its live bytes at no more than
    the maximum cleanable utilization. *)
Lemma segletsNeeded_holds_liveBytes (liveBytes : Z) :
  99 <= segletSize config ->
  0 < MAX_CLEANABLE_MEMORY_UTILIZATION <= 99 ->
  0 <= liveBytes ->
  100 * (liveBytes + segletSize config - 1) < 2 ^ 32 ->
  100 * liveBytes
  <= MAX_CLEANABLE_MEMORY_UTILIZATION
     * (LogCleaner.segletsNeeded config liveBytes * segletSize config).
Proof.
  intros Hs Hm Hl Hfit. unfold LogCleaner.segletsNeeded.
  set (S := segletSize config) in *.
  set (M := MAX_CLEANABLE_MEMORY_UTILIZATION) in *.
  rewrite (u32_small (liveBytes + S)) by lia.
  rewrite (u32_small (liveBytes + S - 1)) by lia.
  rewrite (u32_small (100 * (liveBytes + S - 1))) by lia.
  set (X := 100 * (liveBytes + S - 1)).
  pose proof (Z.div_mod X S ltac:(lia)) as E1.
  pose proof (Z.mod_pos_bound X S ltac:(lia)) as B1.
  pose proof (Z.div_mod (X / S) M ltac:(lia)) as E2.
  pose proof (Z.mod_pos_bound (X / S) M ltac:(lia)) as B2.
  set (q := X / S) in *. set (n := q / M) in *.
  set (r1 := X mod S) in *. set (r2 := q mod M) in *.
  assert (E3 : M * (n * S) = X - r1 - S * r2) by nia.
  rewrite E3. unfold X. nia.
Qed.

(** X3.  The forward-progress guarantee of compaction: when
    [getSegmentToCompact] reports a positive number of freeable seglets
    for a segment, the seglets that remain after freeing them hold the
    segment's live bytes at no more than
    [MAX_CLEANABLE_MEMORY_UTILIZATION] percent, so the compacted segment
    stays cleanable on disk.  This holds for seglets of at least 99 bytes,
    a maximum utilization from 1 to 99, seglet counts within 32 bits and,
    for every candidate, [100 * (liveBytes + segletSize - 1)] below
    [2^32], so that the 32-bit product the code forms does not wrap
    around. *)
Theorem getSegmentToCompact_stays_cleanable (clock : nat -> Z) h candidates
    (best : ptr) (freeableSeglets : Z) (remaining : list ptr) :
  99 <= segletSize config ->
  0 < MAX_CLEANABLE_MEMORY_UTILIZATION <= 99 ->
  (forall p, p ∈ candidates ->
     0 <= LogSegment.segletsAllocated (h p) < 2 ^ 32 /\
     0 <= LogSegment.liveBytes (h p) /\
     100 * (LogSegment.liveBytes (h p) + segletSize config - 1) < 2 ^ 32) ->
  LogCleaner.getSegmentToCompact config clock h candidates
  = (Some (best, freeableSeglets), remaining) ->
  0 < freeableSeglets ->
  freeableSeglets <= LogSegment.segletsAllocated (h best) /\
  100 * LogSegment.liveBytes (h best)
  <= MAX_CLEANABLE_MEMORY_UTILIZATION
     * ((LogSegment.segletsAllocated (h best) - freeableSeglets)
        * segletSize config).
Proof.
  intros Hs Hm Hrange Hrun Hpos.
  destruct (getSegmentToCompact_cases clock h candidates)
    as [(k & best' & E & Hgd & Hk & _)
       | [(_ & k & best' & E & _) | (_ & _ & E)]];
    rewrite E in Hrun; try discriminate;
    injection Hrun as -> <- <-; [| lia].
  assert (Hin : best ∈ candidates) by (eapply list_elem_of_lookup_2; eauto).
  destruct (Hrange best Hin) as (Ha & Hl & Hfit).
  pose proof (segletsNeeded_holds_liveBytes (LogSegment.liveBytes (h best))
                Hs Hm Hl Hfit) as Hholds.
  assert (Hs0 : 0 < segletSize config) by lia.
  pose proof (segletsNeeded_nonneg config (LogSegment.liveBytes (h best))
                Hs0 (proj1 Hm)) as Hn.
  rewrite guardedDelta_freeable in Hgd |- * by (assumption || lia).
  unfold Aux.freeable in *.
  replace (Z.max 0 (LogSegment.segletsAllocated (h best)
                    - LogCleaner.segletsNeeded config
                        (LogSegment.liveBytes (h best))))
    with (LogSegment.segletsAllocated (h best)
          - LogCleaner.segletsNeeded config (LogSegment.liveBytes (h best)))
    in * by lia.
  split; [lia |].
  replace (LogSegment.segletsAllocated (h best)
           - (LogSegment.segletsAllocated (h best)
                - LogCleaner.segletsNeeded config
                    (LogSegment.liveBytes (h best))))
      with (LogCleaner.segletsNeeded config (LogSegment.liveBytes (h best)))
      by lia.
    exact Hholds.
Qed.

End CompactionChoice.

(** ** More on the segments to clean *)

Section DiskChoice.
Context `{Collaborators}.
Variable config : Config.
Implicit Types (h : Store) (v candidates : list ptr).

(** Removing slots from the highest index down removes exactly the
    elements that stood in them. *)
Lemma removeDescending v :
  forall (indices : list nat) (chosen : list ptr),
    StronglySorted (fun i j => (j < i)%nat) indices ->
    Forall2 (fun i p => v !! i = Some p) indices chosen ->
    Permutation
      (chosen ++ fold_left (fun v i => swapRemove i v) indices v) v.
Proof.
  intros indices. revert v.
  induction indices as [| i indices IH]; intros v chosen Hsorted Hchosen.
  - apply Forall2_nil_inv_l in Hchosen as ->. reflexivity.
  - apply Forall2_cons_inv_l in Hchosen as (p & chosen' & Hi & Hrest & ->).
    apply StronglySorted_inv in Hsorted as [Hsorted Hbelow].
    simpl. rewrite <- (swapRemove_perm v i p Hi) at 2.
    apply perm_skip, IH; [exact Hsorted |].
    assert (Hlen : (i < length v)%nat) by (eapply lookup_lt_Some; eauto).
    clear IH Hsorted. revert chosen' Hrest.
    induction indices as [| j indices IH]; intros chosen' Hrest.
    + apply Forall2_nil_inv_l in Hrest as ->. constructor.
    + apply Forall2_cons_inv_l in Hrest as (q & chosen'' & Hj & Hrest & ->).
      apply List.Forall_cons_iff in Hbelow as [Hji Hbelow].
      constructor; [| now apply IH].
      now rewrite swapRemove_lookup_lt.
Qed.

(** The indices [chooseLoop] records ascend, lie below the index reached,
    and are the slots of the segments it records. *)
Lemma chooseLoop_indices h (sorted : list ptr) v :
  forall (i : nat) (acc : LogCleaner.Chosen),
    drop i sorted = v ->
    StronglySorted (fun i j => (j < i)%nat)
      (rev (LogCleaner.chosenIndices acc)) ->
    Forall (fun j => (j < i)%nat) (LogCleaner.chosenIndices acc) ->
    Forall2 (fun j p => sorted !! j = Some p)
      (LogCleaner.chosenIndices acc) (LogCleaner.outSegmentsToClean acc) ->
    StronglySorted (fun i j => (j < i)%nat)
      (rev (LogCleaner.chosenIndices
              (LogCleaner.chooseLoop config h v i acc))) /\
    Forall2 (fun j p => sorted !! j = Some p)
      (LogCleaner.chosenIndices (LogCleaner.chooseLoop config h v i acc))
      (LogCleaner.outSegmentsToClean
         (LogCleaner.chooseLoop config h v i acc)).
Proof.
  induction v as [| p v' IH]; intros i acc Hdrop Hsorted Hbelow Hslots;
    [now split |].
  assert (Hp : sorted !! i = Some p).
  { pose proof (lookup_drop sorted i 0) as Hlook.
    rewrite Hdrop, Nat.add_0_r in Hlook. now rewrite <- Hlook. }
  assert (Hdrop' : drop (S i) sorted = v').
  { pose proof (drop_S sorted p i Hp) as Hstep.
    rewrite Hdrop in Hstep. now injection Hstep. }
  assert (Hbelow' : Forall (fun j => (j < S i)%nat)
                      (LogCleaner.chosenIndices acc)).
  { eapply List.Forall_impl; [| exact Hbelow]. cbv beta. lia. }
  simpl.
  destruct (getMemoryUtilization (h p) >? MAX_CLEANABLE_MEMORY_UTILIZATION);
    [now apply IH |].
  destruct (u64 _ >? _); [now split |].
  apply IH; simpl; try assumption.
  - rewrite rev_app_distr. simpl. constructor; [exact Hsorted |].
    apply List.Forall_forall. intros j Hj. apply in_rev in Hj.
    now apply (proj1 (List.Forall_forall _ _) Hbelow).
  - apply List.Forall_app. split; [exact Hbelow' |]. constructor; [lia | constructor].
  - apply Forall2_app; [exact Hslots |]. constructor; [exact Hp | constructor].
Qed.

(** X4.  [getSegmentsToClean] neither loses nor duplicates a candidate:
    the segments it selects together with the candidates it leaves are
    the candidates it was given, each as often as before. *)
Theorem getSegmentsToClean_keeps_candidates (c : CostBenefitComparer.t) h
    candidates :
  StdSortContract ->
  Permutation
    (fst (LogCleaner.getSegmentsToClean config c h candidates)
     ++ snd (LogCleaner.getSegmentsToClean config c h candidates))
    candidates.
Proof.
  intros Hsort. unfold LogCleaner.getSegmentsToClean. simpl.
  set (sorted := LogCleaner.sortSegmentsByCostBenefit c h candidates).
  assert (Hperm : Permutation sorted candidates) by apply Hsort.
  rewrite <- Hperm.
  destruct (chooseLoop_indices h sorted sorted 0 LogCleaner.noneChosen)
    as [Hdesc Hslots]; try (simpl; constructor).
  set (chosen := LogCleaner.chooseLoop config h sorted 0 LogCleaner.noneChosen)
    in *.
  unfold LogCleaner.removeChosen.
  transitivity
    (rev (LogCleaner.outSegmentsToClean chosen)
     ++ fold_left (fun v i => swapRemove i v)
          (rev (LogCleaner.chosenIndices chosen)) sorted).
  - apply Permutation_app_tail. apply Permutation_rev.
  - apply removeDescending; [exact Hdesc |].
    rewrite !rev_alt. exact (Forall2_reverse _ _ _ Hslots).
Qed.

(** Where every candidate is too full in memory, the loop selects
    nothing. *)
Lemma chooseLoop_none h v :
  forall (i : nat) (acc : LogCleaner.Chosen),
    (forall p, In p v ->
       MAX_CLEANABLE_MEMORY_UTILIZATION < getMemoryUtilization (h p)) ->
    LogCleaner.chooseLoop config h v i acc = acc.
Proof.
  induction v as [| p v' IH]; intros i acc Hfull; [reflexivity |].
  simpl.
  destruct (Z.gtb_spec (getMemoryUtilization (h p))
              MAX_CLEANABLE_MEMORY_UTILIZATION) as [_ | Hle].
  - apply IH. intros q Hq. apply Hfull. now right.
  - specialize (Hfull p (or_introl eq_refl)). lia.
Qed.

End DiskChoice.

(** ** More on the cost-benefit of a segment and on its comparison *)

Section CostBenefitRanking.
Context `{Collaborators}.
Implicit Types (c : CostBenefitComparer.t) (s : LogSegment.t) (h : Store).

Lemma costBenefit_range c s :
  0 <= CostBenefitComparer.costBenefit c s <= UINT64_MAX.
Proof.
  unfold CostBenefitComparer.costBenefit, UINT64_MAX.
  destruct (negb (getDiskUtilization s =? 0)); [| lia].
  set (x := u64 (u64 (100 - getDiskUtilization s)
                 * u64 (CostBenefitComparer.now c
                        - CostBenefitComparer.clampTimestamp c
                            (LogSegment.creationTimestamp s)))).
  pose proof (u64_range (getDiskUtilization s)) as Hu.
  assert (Hx : 0 <= x < 2 ^ 64) by apply u64_range.
  destruct (Z.eq_dec (u64 (getDiskUtilization s)) 0) as [-> | Hnz].
  - rewrite Z.div_0_r. lia.
  - split; [apply Z.div_pos; lia |].
    assert (x / u64 (getDiskUtilization s) <= x); [| lia].
    apply Z.div_le_upper_bound; nia.
Qed.

(** Where nothing wraps around, [costBenefit] is the quotient on the
    integers. *)
Lemma costBenefit_exact c s :
  0 <= CostBenefitComparer.now c ->
  100 * CostBenefitComparer.now c < 2 ^ 64 ->
  0 <= LogSegment.creationTimestamp s ->
  0 < getDiskUtilization s <= 100 ->
  CostBenefitComparer.costBenefit c s
  = ((100 - getDiskUtilization s)
     * (CostBenefitComparer.now c
        - Z.min (LogSegment.creationTimestamp s) (CostBenefitComparer.now c)))
    / getDiskUtilization s.
Proof.
  intros Hnow Hroom Hts Hu. unfold CostBenefitComparer.costBenefit.
  destruct (Z.eqb_spec (getDiskUtilization s) 0) as [E | _]; [lia |].
  cbn [negb]. rewrite clampTimestamp_min.
  set (u := getDiskUtilization s) in *.
  set (age := CostBenefitComparer.now c
              - Z.min (LogSegment.creationTimestamp s)
                  (CostBenefitComparer.now c)).
  assert (Hage : 0 <= age <= CostBenefitComparer.now c) by (unfold age; lia).
  rewrite (u64_small age), (u64_small (100 - u)), (u64_small u) by lia.
  rewrite u64_small; [reflexivity | nia].
Qed.

(** X5.  The cost-benefit of a segment is an unsigned 64-bit value and
    never exceeds that of a segment whose disk utilization is 0: no
    segment is ranked in front of an empty one. *)
Theorem costBenefit_at_most_empty c s (empty : LogSegment.t) :
  getDiskUtilization empty = 0 ->
  0 <= CostBenefitComparer.costBenefit c s
    <= CostBenefitComparer.costBenefit c empty.
Proof.
  intros Hempty. rewrite (costBenefit_zero_utilization c empty Hempty).
  apply costBenefit_range.
Qed.

(** X6.  Of two segments, the one that is no younger and no fuller on
    disk has a cost-benefit that is no smaller: the comparison prefers old
    and empty segments. *)
Theorem costBenefit_prefers_old_and_empty c s s' :
  0 <= CostBenefitComparer.now c ->
  100 * CostBenefitComparer.now c < 2 ^ 64 ->
  0 <= LogSegment.creationTimestamp s <= LogSegment.creationTimestamp s' ->
  0 <= getDiskUtilization s <= getDiskUtilization s' ->
  getDiskUtilization s' <= 100 ->
  CostBenefitComparer.costBenefit c s' <= CostBenefitComparer.costBenefit c s.
Proof.
  intros Hnow Hroom Hts Hu Hu'.
  destruct (Z.eq_dec (getDiskUtilization s) 0) as [E | Hnz].
  - rewrite (costBenefit_zero_utilization c s E). apply costBenefit_range.
  - rewrite !costBenefit_exact by lia.
    set (u := getDiskUtilization s) in *.
    set (u' := getDiskUtilization s') in *.
    set (now := CostBenefitComparer.now c) in *.
    set (age := now - Z.min (LogSegment.creationTimestamp s) now).
    set (age' := now - Z.min (LogSegment.creationTimestamp s') now).
    assert (Hage : 0 <= age' <= age) by (unfold age, age'; lia).
    transitivity (((100 - u) * age) / u').
    + apply Z.div_le_mono; [lia | nia].
    + apply Z.div_le_compat_l; [nia | lia].
Qed.

End CostBenefitRanking.

Section ComparerCache.
Context `{Collaborators}.
Implicit Types (c : CostBenefitComparer.t) (h : Store) (a b p q : ptr).

Lemma refresh_fixed c h a :
  LogSegment.costBenefitVersion (h a) = CostBenefitComparer.version c ->
  CostBenefitComparer.refresh c h a = h.
Proof.
  intros E. unfold CostBenefitComparer.refresh.
  now rewrite E, Z.eqb_refl.
Qed.

Lemma refresh_version c h a :
  LogSegment.costBenefitVersion (CostBenefitComparer.refresh c h a a)
  = CostBenefitComparer.version c.
Proof.
  unfold CostBenefitComparer.refresh.
  destruct (Z.eqb_spec (LogSegment.costBenefitVersion (h a))
              (CostBenefitComparer.version c)) as [E | _]; simpl;
    [exact E |].
  now rewrite update_same.
Qed.

(** After a call of [operator()], both segments carry the comparer's
    version and their sort keys in the cache. *)
Lemma call_caches c h a b p :
  p = a \/ p = b ->
  LogSegment.costBenefitVersion (snd (CostBenefitComparer.call c h a b) p)
  = CostBenefitComparer.version c /\
  LogSegment.costBenefit (snd (CostBenefitComparer.call c h a b) p)
  = CostBenefitComparer.sortKey c h p.
Proof.
  intros Hp. unfold CostBenefitComparer.call. simpl.
  destruct (Nat.eq_dec p b) as [-> | Hne].
  - split; [apply refresh_version |].
    now rewrite refresh_cached, refresh_sortKey.
  - destruct Hp as [-> | ->]; [| contradiction].
    rewrite (refresh_other c _ b a Hne).
    split; [apply refresh_version | apply refresh_cached].
Qed.

Lemma sortKey_cached c h p :
  LogSegment.costBenefitVersion (h p) = CostBenefitComparer.version c ->
  CostBenefitComparer.sortKey c h p = LogSegment.costBenefit (h p).
Proof.
  intros E. unfold CostBenefitComparer.sortKey. now rewrite E, Z.eqb_refl.
Qed.

(** X7.  Once [operator()] has compared two segments, its verdict on them
    does not depend on their statistics any more: in any store in which
    the two segments still carry the cache that the call left, whatever
    became of their live bytes, timestamps and utilization, the same
    comparer gives the same verdict. *)
Theorem call_verdict_survives_statistics c h a b (later : Store) :
  LogSegment.costBenefit (later a)
  = LogSegment.costBenefit (snd (CostBenefitComparer.call c h a b) a) ->
  LogSegment.costBenefitVersion (later a)
  = LogSegment.costBenefitVersion (snd (CostBenefitComparer.call c h a b) a) ->
  LogSegment.costBenefit (later b)
  = LogSegment.costBenefit (snd (CostBenefitComparer.call c h a b) b) ->
  LogSegment.costBenefitVersion (later b)
  = LogSegment.costBenefitVersion (snd (CostBenefitComparer.call c h a b) b) ->
  fst (CostBenefitComparer.call c later a b)
  = fst (CostBenefitComparer.call c h a b).
Proof.
  intros Eca Eva Ecb Evb.
  destruct (call_caches c h a b a (or_introl eq_refl)) as [Va Ca].
  destruct (call_caches c h a b b (or_intror eq_refl)) as [Vb Cb].
  rewrite !call_verdict.
  rewrite (sortKey_cached c later a), (sortKey_cached c later b)
    by congruence.
  now rewrite Eca, Ecb, Ca, Cb.
Qed.

(** X8.  [operator()] meets the requirement of [std::sort] although it
    writes to the segments it compares: within one sort it is a strict
    weak order, a call changes the verdict of no later call, and a second
    call on the same two segments writes nothing. *)
Theorem call_is_consistent_order c h :
  StrictWeakOrder (fun a b => fst (CostBenefitComparer.call c h a b)) /\
  (forall a b p q,
     fst (CostBenefitComparer.call c
            (snd (CostBenefitComparer.call c h a b)) p q)
     = fst (CostBenefitComparer.call c h p q)) /\
  (forall a b,
     snd (CostBenefitComparer.call c
            (snd (CostBenefitComparer.call c h a b)) a b)
     = snd (CostBenefitComparer.call c h a b)).
Proof.
  split; [apply sortKey_order |]. split.
  - intros a b p q. now rewrite !call_verdict, !call_sortKey.
  - intros a b.
    destruct (call_caches c h a b a (or_introl eq_refl)) as [Va _].
    destruct (call_caches c h a b b (or_intror eq_refl)) as [Vb _].
    set (h1 := snd (CostBenefitComparer.call c h a b)) in *.
    unfold CostBenefitComparer.call at 1. cbn [snd].
    rewrite (refresh_fixed c h1 a Va). apply (refresh_fixed c h1 b Vb).
Qed.

End ComparerCache.

(** ** More on keys *)

Section KeyComparison.
Context `{Key.Collaborators}.
Implicit Types (k a b : Key.t).

(** What is left of [operator==] behind the prefilter. *)
Lemma eqb_true_sameKey a b : Key.eqb a b = true -> Key.sameKey a b.
Proof.
  intros E. apply eqb_components. unfold Key.eqb in E.
  destruct (match Key.hash a, Key.hash b with
            | Some h, Some h' => negb (h =? h')
            | _, _ => false
            end); [discriminate |].
  destruct (Key.tableId a =? Key.tableId b); [| discriminate].
  destruct (Key.stringKeyLength a =? Key.stringKeyLength b);
    [| discriminate].
  exact E.
Qed.

Lemma sameKey_eqb_true a b :
  Key.cacheValid a -> Key.cacheValid b ->
  Key.sameKey a b -> Key.eqb a b = true.
Proof.
  intros Ha Hb Hsame. pose proof (sameKey_getHash a b Hsame) as Ehash.
  apply eqb_components in Hsame. unfold Key.eqb.
  replace (match Key.hash a, Key.hash b with
           | Some h, Some h' => negb (h =? h')
           | _, _ => false
           end) with false.
  - apply andb_true_iff in Hsame as [Hsame Eb].
    apply andb_true_iff in Hsame as [Et El].
    now rewrite Et, El.
  - destruct (Key.hash a) as [ha |] eqn:Ea; [| reflexivity].
    destruct (Key.hash b) as [hb |] eqn:Eb; [| reflexivity].
    rewrite (Ha ha Ea), (Hb hb Eb), Ehash, Z.eqb_refl. reflexivity.
Qed.

Lemma sameKey_refl a : Key.sameKey a a.
Proof. now repeat split. Qed.

Lemma sameKey_sym a b : Key.sameKey a b -> Key.sameKey b a.
Proof. intros (Et & El & Eb). now repeat split. Qed.

Lemma sameKey_trans a b k :
  Key.sameKey a b -> Key.sameKey b k -> Key.sameKey a k.
Proof.
  intros (Et & El & Eb) (Et' & El' & Eb').
  repeat split; congruence.
Qed.

Lemma getHashCached_sameKey a : Key.sameKey (snd (Key.getHashCached a)) a.
Proof.
  unfold Key.getHashCached.
  destruct (Key.hash a); simpl; now repeat split.
Qed.

(** The value of [getHash()] on a key a program can hold. *)
Lemma getHashCached_value a :
  Key.cacheValid a ->
  fst (Key.getHashCached a)
  = Key.getHash (Key.tableId a) (Key.stringKey a) (Key.stringKeyLength a).
Proof.
  intros Ha. unfold Key.getHashCached.
  destruct (Key.hash a) as [h |] eqn:E; simpl; [now apply Ha | reflexivity].
Qed.

(** X9.  Keys that [operator==] declares equal have the same fingerprint:
    [getHash()] returns the same value on both, whether or not either has
    it cached. *)
Theorem equal_keys_have_equal_hashes a b :
  Key.reachable a -> Key.reachable b ->
  Key.eqb a b = true ->
  fst (Key.getHashCached a) = fst (Key.getHashCached b).
Proof.
  intros Ha Hb E.
  rewrite !getHashCached_value by now apply reachable_cacheValid.
  now apply sameKey_getHash, eqb_true_sameKey.
Qed.

(** X10.  On the keys a program can hold, [operator==] is an equivalence:
    it is reflexive, symmetric and transitive, and [operator!=] is its
    negation. *)
Theorem key_equality_is_equivalence a b k :
  Key.reachable a -> Key.reachable b -> Key.reachable k ->
  Key.eqb a a = true /\
  Key.eqb a b = Key.eqb b a /\
  (Key.eqb a b = true -> Key.eqb b k = true -> Key.eqb a k = true) /\
  Key.neqb a b = negb (Key.eqb a b).
Proof.
  intros Ha Hb Hk.
  apply reachable_cacheValid in Ha, Hb, Hk.
  assert (Hiff : forall x y, Key.cacheValid x -> Key.cacheValid y ->
            Key.eqb x y = true <-> Key.sameKey x y).
  { intros x y Hx Hy. split;
      [apply eqb_true_sameKey | now apply sameKey_eqb_true]. }
  split; [apply sameKey_eqb_true; auto using sameKey_refl |].
  split; [| split; [| reflexivity]].
  - apply eq_true_iff_eq. rewrite !Hiff by assumption.
    split; apply sameKey_sym.
  - rewrite !Hiff by assumption. apply sameKey_trans.
Qed.

(** X11.  The cache of [getHash()] cannot be observed: the first call
    returns the static fingerprint of the key's components, a second call
    returns the same value and leaves the key as the first left it, and
    the key with its cache filled compares with every key as it did
    before. *)
Theorem getHash_cache_is_transparent a b :
  Key.reachable a -> Key.reachable b ->
  fst (Key.getHashCached a)
  = Key.getHash (Key.tableId a) (Key.stringKey a) (Key.stringKeyLength a) /\
  Key.getHashCached (snd (Key.getHashCached a))
  = (fst (Key.getHashCached a), snd (Key.getHashCached a)) /\
  Key.eqb (snd (Key.getHashCached a)) b = Key.eqb a b /\
  Key.eqb b (snd (Key.getHashCached a)) = Key.eqb b a.
Proof.
  intros Ha Hb.
  pose proof (reachable_cacheValid _ (Key.reach_getHash a Ha)) as Ha'.
  apply reachable_cacheValid in Ha, Hb.
  split; [now apply getHashCached_value |]. split.
  - unfold Key.getHashCached.
    destruct (Key.hash a) as [h |] eqn:E; simpl; [now rewrite E | reflexivity].
  - pose proof (getHashCached_sameKey a) as Hsame.
    split; apply eq_true_iff_eq; split; intros E.
    + apply sameKey_eqb_true; try assumption.
      apply eqb_true_sameKey in E.
      eapply sameKey_trans; [apply sameKey_sym; exact Hsame | exact E].
    + apply sameKey_eqb_true; try assumption.
      apply eqb_true_sameKey in E.
      eapply sameKey_trans; [exact Hsame | exact E].
    + apply sameKey_eqb_true; try assumption.
      apply eqb_true_sameKey in E.
      eapply sameKey_trans; [exact E | exact Hsame].
    + apply sameKey_eqb_true; try assumption.
      apply eqb_true_sameKey in E.
      eapply sameKey_trans; [exact E | apply sameKey_sym; exact Hsame].
Qed.

End KeyComparison.

(** ** More on the cleaning passes *)

(** Take a run that ended well apart into the calls it made. *)
Ltac run_apart Hrun :=
  cbv beta iota delta [LogCleaner.bind LogCleaner.load LogCleaner.invoke
    LogCleaner.ret LogCleaner.throw LogCleaner.get LogCleaner.modify
    LogCleaner.setCandidates] in Hrun;
  repeat (cbv beta iota in Hrun;
          match type of Hrun with
          | context [match ?x with _ => _ end] =>
              destruct x eqn:?; try discriminate Hrun
          end);
  cbv beta iota in Hrun.

Section PassDetails.
Context `{Collaborators}.
Variable config : Config.
Implicit Types (w : World External) (h : Store) (v : list ptr).

(** One iteration of the relocation loop starts at most one survivor and
    keeps the byte count within 64 bits. *)
Lemma relocateStep_bounds (entry : Entry) (l l' : LogCleaner.Relocation)
    w w' :
  LogCleaner.relocateStep entry l w = Ok (l', w') ->
  (length (LogCleaner.outSurvivors l')
   <= S (length (LogCleaner.outSurvivors l)))%nat /\
  (0 <= LogCleaner.entryBytesAppended l < 2 ^ 64 ->
   0 <= LogCleaner.entryBytesAppended l' < 2 ^ 64).
Proof.
  intros Hrun. unfold LogCleaner.relocateStep in Hrun. run_apart Hrun.
  all: injection Hrun as <- <-; cbn.
  all: match goal with
       | Hin : _ = Ok (?r, _) |- context [LogCleaner.outSurvivors ?r] =>
           run_apart Hin; injection Hin as <- <-; cbn
       end.
  all: try rewrite length_app; cbn.
  all: split; [lia | intros Hrange; try apply u64_range; exact Hrange].
Qed.

Lemma relocateLoop_bounds (entries : list Entry) :
  forall (l l' : LogCleaner.Relocation) w w',
    LogCleaner.relocateLoop entries l w = Ok (l', w') ->
    (length (LogCleaner.outSurvivors l')
     <= length (LogCleaner.outSurvivors l) + length entries)%nat /\
    (0 <= LogCleaner.entryBytesAppended l < 2 ^ 64 ->
     0 <= LogCleaner.entryBytesAppended l' < 2 ^ 64).
Proof.
  induction entries as [| entry rest IH]; intros l l' w w' Hrun.
  - injection Hrun as <- <-. split; [simpl; lia | auto].
  - simpl in Hrun. apply bind_ok_inv in Hrun as (l1 & w1 & Hstep & Hrest).
    apply relocateStep_bounds in Hstep as [Hlen Hrange].
    apply IH in Hrest as [Hlen' Hrange'].
    split; [simpl; lia | auto].
Qed.

(** X12.  [relocateLiveEntries] starts at most one survivor per entry and
    reports a byte count of 64 bits; given no entry, it allocates nothing
    and leaves the world as it is. *)
Theorem relocateLiveEntries_survivors (entries : list Entry) w
    (entryBytesAppended : Z) (survivors : list ptr) w' :
  LogCleaner.relocateLiveEntries entries w
  = Ok (entryBytesAppended, survivors, w') ->
  (length survivors <= length entries)%nat /\
  0 <= entryBytesAppended < 2 ^ 64 /\
  (entries = [] -> entryBytesAppended = 0 /\ survivors = [] /\ w' = w).
Proof.
  intros Hrun. split; [| split].
  - unfold LogCleaner.relocateLiveEntries in Hrun.
    apply bind_ok_inv in Hrun as (l & w1 & Hloop & Hrun).
    apply bind_ok_inv in Hrun as (u & w2 & _ & Hrun).
    apply bind_ok_inv in Hrun as (u' & w3 & _ & Hrun).
    injection Hrun as <- <- <-.
    apply relocateLoop_bounds in Hloop as [Hlen _]. exact Hlen.
  - unfold LogCleaner.relocateLiveEntries in Hrun.
    apply bind_ok_inv in Hrun as (l & w1 & Hloop & Hrun).
    apply bind_ok_inv in Hrun as (u & w2 & _ & Hrun).
    apply bind_ok_inv in Hrun as (u' & w3 & _ & Hrun).
    injection Hrun as <- <- <-.
    apply relocateLoop_bounds in Hloop as [_ Hrange].
    apply Hrange. simpl. lia.
  - intros ->. cbv in Hrun. injection Hrun as <- <- <-. auto.
Qed.

(** X13.  [getSortedEntries] extracts every entry of every segment to
    clean, once: its result is a rearrangement of the entries of the
    segments, each with the segment it came from, its offset there and
    the timestamp the entry handlers give it, and it is sorted by
    [TimestampComparer] if that is a strict weak order. *)
Theorem getSortedEntries_complete h (segmentsToClean : list ptr) :
  StdSortContract ->
  Permutation (LogCleaner.getSortedEntries h segmentsToClean)
    (concat (map (LogCleaner.entriesOf h) segmentsToClean)) /\
  (forall e : Entry,
     In e (LogCleaner.getSortedEntries h segmentsToClean) ->
     In (segment e) segmentsToClean /\
     exists (type : LogEntryType) (buffer : Buffer),
       In (type, offset e, buffer) (segmentEntries (h (segment e))) /\
       timestamp e = getTimestamp type buffer) /\
  length (LogCleaner.getSortedEntries h segmentsToClean)
  = length (concat (map (fun p => segmentEntries (h p)) segmentsToClean)) /\
  (StrictWeakOrder TimestampComparer ->
   SortedBy TimestampComparer
     (LogCleaner.getSortedEntries h segmentsToClean)).
Proof.
  intros Hsort.
  destruct (Hsort Entry TimestampComparer
              (concat (map (LogCleaner.entriesOf h) segmentsToClean)))
    as [Hperm Hsorted].
  split; [exact Hperm |]. split; [| split; [| exact Hsorted]].
  - intros e He. apply (Permutation_in _ Hperm) in He.
    apply in_concat in He as (entries & Hentries & He).
    apply in_map_iff in Hentries as (p & <- & Hp).
    unfold LogCleaner.entriesOf in He.
    apply in_map_iff in He as ([[type off] buffer] & <- & Hin).
    simpl. split; [exact Hp |]. now exists type, buffer.
  - unfold LogCleaner.getSortedEntries, LogCleaner.sortEntriesByTimestamp.
    rewrite (Permutation_length Hperm).
    clear. induction segmentsToClean as [| p rest IH]; [reflexivity |].
    simpl. rewrite !length_app, IH. unfold LogCleaner.entriesOf.
    now rewrite length_map.
Qed.

(** X14.  A disk-cleaning pass over candidates that are all too full in
    memory, or over none, cleans nothing: it returns at once, the state of
    the segment manager, the replicas and the entry handlers is what it
    was, every segment keeps its entries and its statistics, and the
    candidates it was given remain, rearranged by the sort.  Of a segment
    only the cache members [costBenefit] and [costBenefitVersion], which
    the sort writes, are left open. *)
Theorem doDiskCleaning_nothing_cleanable (c : CostBenefitComparer.t)
    (lowOnDiskSpace : bool) w :
  StdSortContract ->
  (forall p, In p (candidates w) ->
     MAX_CLEANABLE_MEMORY_UTILIZATION < getMemoryUtilization (store w p)) ->
  exists w' : World External,
    LogCleaner.doDiskCleaning config c lowOnDiskSpace w = Ok (None, w') /\
    Permutation (candidates w') (candidates w) /\
    external w' = external w /\
    forall p : ptr, Aux.sameStatistics (store w' p) (store w p).
Proof.
  intros Hsort Hfull.
  assert (E : LogCleaner.getSegmentsToClean config c (store w) (candidates w)
              = ([], LogCleaner.sortSegmentsByCostBenefit c (store w)
                       (candidates w))).
  { unfold LogCleaner.getSegmentsToClean. cbv zeta.
    rewrite chooseLoop_none; [reflexivity |].
    intros p Hp. apply Hfull.
    eapply Permutation_in; [apply Hsort | exact Hp]. }
  eexists. split.
  - unfold LogCleaner.doDiskCleaning, LogCleaner.bind, LogCleaner.get.
    rewrite E. reflexivity.
  - cbn [store candidates external]. split; [apply Hsort |].
    split; [reflexivity |]. intros p. now repeat split.
Qed.

(** X15.  [doMemoryCleaning] does nothing at all - no survivor is
    allocated, no candidate removed, no segment written - when in-memory
    cleaning is disabled or [getSegmentToCompact] finds no segment. *)
Theorem doMemoryCleaning_no_work (clock : nat -> Z) w :
  disableInMemoryCleaning config = true \/
  fst (LogCleaner.getSegmentToCompact config clock (store w) (candidates w))
  = None ->
  LogCleaner.doMemoryCleaning config clock w = Ok (None, w).
Proof.
  intros Hwhy. unfold LogCleaner.doMemoryCleaning.
  destruct (disableInMemoryCleaning config) eqn:Hdisabled; [reflexivity |].
  destruct Hwhy as [Hwhy | Hnull]; [discriminate |].
  unfold LogCleaner.bind, LogCleaner.get.
  destruct (getSegmentToCompact_cases config clock (store w) (candidates w))
    as [(k & best & E & _) | [(_ & k & best & E & _) | (_ & _ & E)]];
    rewrite E in Hnull |- *; try discriminate Hnull.
  destruct w. reflexivity.
Qed.

(** A completed compaction was of the segment [getSegmentToCompact]
    chose, and the bytes freed are those of its freeable seglets. *)
Lemma doMemoryCleaning_choice (clock : nat -> Z) w
    (done : LogCleaner.Compaction) w' :
  LogCleaner.doMemoryCleaning config clock w = Ok (Some done, w') ->
  exists (freeableSeglets : Z) (remaining : list ptr),
    LogCleaner.getSegmentToCompact config clock (store w) (candidates w)
    = (Some (LogCleaner.compacted done, freeableSeglets), remaining) /\
    LogCleaner.bytesFreed done = u32 (freeableSeglets * segletSize config).
Proof.
  intros Hrun. unfold LogCleaner.doMemoryCleaning in Hrun.
  destruct (disableInMemoryCleaning config); [discriminate |].
  unfold LogCleaner.addLiveBytes, LogCleaner.write, LogCleaner.assert in Hrun.
  run_apart Hrun.
  injection Hrun as <- <-. cbn. eauto.
Qed.


(** X24.  A compaction made for the tombstones' sake frees nothing: when
    no candidate passes the guard [segletsNeeded < segletsAllocated] with
    a positive [delta], a compaction that completes reports 0 bytes
    freed. *)
Theorem doMemoryCleaning_fallback_frees_nothing (clock : nat -> Z) w
    (done : LogCleaner.Compaction) w' :
  (forall j q, candidates w !! j = Some q ->
     Aux.guardedDelta config (store w q) = 0) ->
  LogCleaner.doMemoryCleaning config clock w = Ok (Some done, w') ->
  LogCleaner.bytesFreed done = 0 /\
  exists k : nat,
    candidates w !! k = Some (LogCleaner.compacted done) /\
    0 < LogCleaner.goodness (clock k) (store w (LogCleaner.compacted done)).
Proof.
  intros Hnone Hrun.
  apply doMemoryCleaning_choice in Hrun
    as (freeableSeglets & remaining & Hchoice & Hbytes).
  destruct (getSegmentToCompact_cases config clock (store w) (candidates w))
    as [(k & best & E & Hpos & Hk & _)
       | [(_ & k & best & E & Hpos & Hk & _) | (_ & _ & E)]];
    rewrite E in Hchoice; [| | discriminate Hchoice].
  - rewrite (Hnone k best Hk) in Hpos. lia.
  - injection Hchoice as <- <- <-. rewrite Hbytes. split; [reflexivity |].
    now exists k.
Qed.

Lemma sumSeglets_range h v : 0 <= LogCleaner.sumSeglets h v < 2 ^ 32.
Proof.
  unfold LogCleaner.sumSeglets.
  assert (Hfrom : forall acc, 0 <= acc < 2 ^ 32 ->
            0 <= fold_left
                   (fun acc p =>
                      u32 (acc + LogSegment.getSegletsAllocated (h p))) v acc
              < 2 ^ 32).
  { induction v as [| p v' IH]; intros acc Hacc; [exact Hacc |].
    simpl. apply IH, u32_range. }
  apply Hfrom. lia.
Qed.

(** X25.  The gains a completed disk-cleaning pass reports: the seglets
    and segments after it are no more than before; and the bytes freed in
    memory and on disk are the differences times the seglet size and the
    segment size, exactly so whenever these products fit 32 bits. *)
Theorem doDiskCleaning_bytes_freed (c : CostBenefitComparer.t)
    (lowOnDiskSpace : bool) w (pass : LogCleaner.DiskPass) w' :
  0 <= segletSize config ->
  0 <= segmentSize config ->
  LogCleaner.doDiskCleaning config c lowOnDiskSpace w = Ok (Some pass, w') ->
  0 <= LogCleaner.segletsAfter pass <= LogCleaner.segletsBefore pass /\
  0 <= LogCleaner.segmentsAfter pass <= LogCleaner.segmentsBefore pass /\
  LogCleaner.segmentsBefore pass
  = Z.of_nat (length (LogCleaner.cleaned pass)) /\
  ((LogCleaner.segletsBefore pass - LogCleaner.segletsAfter pass)
   * segletSize config < 2 ^ 32 ->
   LogCleaner.memoryBytesFreed pass
   = (LogCleaner.segletsBefore pass - LogCleaner.segletsAfter pass)
     * segletSize config) /\
  (LogCleaner.segmentsBefore pass < 2 ^ 32 ->
   (LogCleaner.segmentsBefore pass - LogCleaner.segmentsAfter pass)
   * segmentSize config < 2 ^ 32 ->
   LogCleaner.diskBytesFreed pass
   = (LogCleaner.segmentsBefore pass - LogCleaner.segmentsAfter pass)
     * segmentSize config).
Proof.
  intros Hseglet Hsegment Hrun. unfold LogCleaner.doDiskCleaning in Hrun.
  unfold LogCleaner.assert in Hrun. run_apart Hrun.
  injection Hrun as <- <-. cbn.
  repeat match goal with
         | E : (if ?cond then _ else _) _ = Ok _ |- _ =>
             destruct cond eqn:?; [clear E | discriminate E]
         end.
  repeat match goal with
         | E : (_ >=? _) = true |- _ => apply Z.geb_le in E
         end.
  match goal with
  | |- context [LogCleaner.sumSeglets ?h1 ?v1 <= LogCleaner.sumSeglets ?h2 ?v2] =>
      pose proof (sumSeglets_range h1 v1);
      pose proof (sumSeglets_range h2 v2)
  end.
  split; [lia |]. split; [lia |]. split; [reflexivity |]. split.
  - intros Hfit. rewrite (u32_small (_ - _)) by lia.
    apply u32_small. nia.
  - intros Hcount Hfit. rewrite (u32_small (_ - _)) by lia.
    apply u32_small. nia.
Qed.

End PassDetails.

(** ** The cleaner's threads *)

Section Threads.
Context `{CleanerThread.Runtime}.
Implicit Types (w : World External) (cleaner : CleanerThread.t)
  (threads pre rest : list (option nat)).

Lemma stopThreads_from rest :
  forall pre w,
    CleanerThread.forThreads CleanerThread.stopThread
      (seq (length pre) (length rest)) (pre ++ rest) w
    = Ok (pre ++ repeat None (length rest),
          fold_left (fun w t => CleanerThread.joinThread t w) (omap id rest)
            w).
Proof.
  induction rest as [| t rest IH]; intros pre w; [reflexivity |].
  cbn [length seq CleanerThread.forThreads].
  assert (Hnext : forall w1,
    CleanerThread.forThreads CleanerThread.stopThread
      (seq (S (length pre)) (length rest)) (pre ++ None :: rest) w1
    = Ok (pre ++ repeat None (S (length rest)),
          fold_left (fun w t => CleanerThread.joinThread t w) (omap id rest)
            w1)).
  { intros w1. specialize (IH (pre ++ [None]) w1).
    rewrite length_app, Nat.add_1_r, <- !app_assoc in IH. exact IH. }
  unfold LogCleaner.bind, CleanerThread.stopThread.
  rewrite list_lookup_middle by reflexivity.
  destruct t as [thread |]; cbn.
  - rewrite insert_app_r_alt, Nat.sub_diag by lia. cbn. apply Hnext.
  - apply Hnext.
Qed.

Lemma startThreads_from rest :
  forall pre w,
    exists rest' w',
      CleanerThread.forThreads CleanerThread.startThread
        (seq (length pre) (length rest)) (pre ++ rest) w
      = Ok (pre ++ rest', w') /\
      Forall2
        (fun old new =>
           match old with
           | Some thread => new = Some thread
           | None => exists thread, new = Some thread
           end) rest rest' /\
      (Forall (fun t => t <> None) rest -> rest' = rest /\ w' = w).
Proof.
  induction rest as [| t rest IH]; intros pre w.
  - exists [], w. repeat split; constructor.
  - cbn [length seq CleanerThread.forThreads].
    assert (Hnext : forall thread w1,
      exists rest' w',
        CleanerThread.forThreads CleanerThread.startThread
          (seq (S (length pre)) (length rest)) (pre ++ Some thread :: rest) w1
        = Ok (pre ++ Some thread :: rest', w') /\
        Forall2
          (fun old new =>
             match old with
             | Some thread => new = Some thread
             | None => exists thread, new = Some thread
             end) rest rest' /\
        (Forall (fun t => t <> None) rest -> rest' = rest /\ w' = w1)).
    { intros thread w1.
      destruct (IH (pre ++ [Some thread]) w1) as (rest' & w' & E & Hrel & Hid).
      rewrite length_app, Nat.add_1_r, <- !app_assoc in E.
      now exists rest', w'. }
    unfold LogCleaner.bind, CleanerThread.startThread.
    rewrite list_lookup_middle by reflexivity.
    destruct t as [thread |]; cbn.
    + destruct (Hnext thread w) as (rest' & w' & E & Hrel & Hid).
      exists (Some thread :: rest'), w'. split; [exact E |]. split.
      * now constructor.
      * intros Hall. apply List.Forall_cons_iff in Hall as [_ Hall].
        destruct (Hid Hall) as [-> ->]. now split.
    + destruct (CleanerThread.newThread w) as [thread w1] eqn:Hnew.
      rewrite insert_app_r_alt, Nat.sub_diag by lia. cbn.
      destruct (Hnext thread w1) as (rest' & w' & E & Hrel & Hid).
      exists (Some thread :: rest'), w'. split; [exact E |]. split.
      * constructor; [now exists thread | exact Hrel].
      * intros Hall. apply List.Forall_cons_iff in Hall as [Hnone _].
        contradiction.
Qed.

Lemma started_all_running (olds news : list (option nat)) :
  Forall2
    (fun old new =>
       match old with
       | Some thread => new = Some thread
       | None => exists thread, new = Some thread
       end) olds news ->
  Forall (fun t => t <> None) news.
Proof.
  induction 1 as [| old new olds news Hnew _ IH]; [constructor |].
  constructor; [| exact IH].
  destruct old as [thread |]; [now subst |].
  destruct Hnew as [thread ->]. discriminate.
Qed.

Lemma start_run cleaner w :
  length (CleanerThread.threads cleaner)
  = Z.to_nat (CleanerThread.numThreads cleaner) ->
  exists (threads' : list (option nat)) (w' : World External),
    CleanerThread.start cleaner w
    = Ok ({| CleanerThread.config := CleanerThread.config cleaner;
             CleanerThread.writeCostThreshold :=
               CleanerThread.writeCostThreshold cleaner;
             CleanerThread.numThreads := CleanerThread.numThreads cleaner;
             CleanerThread.threadsShouldExit :=
               CleanerThread.threadsShouldExit cleaner;
             CleanerThread.threads := threads' |}, w') /\
    Forall2
      (fun old new =>
         match old with
         | Some thread => new = Some thread
         | None => exists thread, new = Some thread
         end) (CleanerThread.threads cleaner) threads' /\
    (Forall (fun t => t <> None) (CleanerThread.threads cleaner) ->
     threads' = CleanerThread.threads cleaner /\ w' = w).
Proof.
  intros Hlen.
  destruct (startThreads_from (CleanerThread.threads cleaner) [] w)
    as (rest' & w' & E & Hrel & Hid).
  cbn [length app] in E. rewrite Hlen in E.
  exists rest', w'. split; [| now split].
  unfold CleanerThread.start. now rewrite (bind_ok _ _ _ _ _ E).
Qed.

Lemma stop_run cleaner w :
  length (CleanerThread.threads cleaner)
  = Z.to_nat (CleanerThread.numThreads cleaner) ->
  CleanerThread.stop cleaner w
  = Ok ({| CleanerThread.config := CleanerThread.config cleaner;
           CleanerThread.writeCostThreshold :=
             CleanerThread.writeCostThreshold cleaner;
           CleanerThread.numThreads := CleanerThread.numThreads cleaner;
           CleanerThread.threadsShouldExit := false;
           CleanerThread.threads :=
             repeat None (Z.to_nat (CleanerThread.numThreads cleaner)) |},
        fold_left (fun w thread => CleanerThread.joinThread thread w)
          (omap id (CleanerThread.threads cleaner)) w).
Proof.
  intros Hlen.
  pose proof (stopThreads_from (CleanerThread.threads cleaner) [] w) as E.
  cbn [length app] in E. rewrite Hlen in E.
  unfold CleanerThread.stop. now rewrite (bind_ok _ _ _ _ _ E).
Qed.

Lemma none_running (n : nat) : omap id (repeat (@None nat) n) = [].
Proof. induction n as [| n IH]; [reflexivity | exact IH]. Qed.

(** X17.  [start] gives a thread to every slot that has none and leaves
    the running threads alone; called again, it creates no thread and
    changes nothing. *)
Theorem start_fills_empty_slots cleaner w :
  length (CleanerThread.threads cleaner)
  = Z.to_nat (CleanerThread.numThreads cleaner) ->
  exists (started : CleanerThread.t) (w' : World External),
    CleanerThread.start cleaner w = Ok (started, w') /\
    Forall2
      (fun old new =>
         match old with
         | Some thread => new = Some thread
         | None => exists thread, new = Some thread
         end)
      (CleanerThread.threads cleaner) (CleanerThread.threads started) /\
    CleanerThread.numThreads started = CleanerThread.numThreads cleaner /\
    CleanerThread.config started = CleanerThread.config cleaner /\
    CleanerThread.start started w' = Ok (started, w').
Proof.
  intros Hlen.
  destruct (start_run cleaner w Hlen) as (threads' & w' & E & Hrel & _).
  eexists _, w'. split; [exact E |]. cbn.
  repeat split; try assumption.
  destruct (start_run
              {| CleanerThread.config := CleanerThread.config cleaner;
                 CleanerThread.writeCostThreshold :=
                   CleanerThread.writeCostThreshold cleaner;
                 CleanerThread.numThreads := CleanerThread.numThreads cleaner;
                 CleanerThread.threadsShouldExit :=
                   CleanerThread.threadsShouldExit cleaner;
                 CleanerThread.threads := threads' |} w')
    as (threads'' & w'' & E' & _ & Hid).
  { cbn. rewrite <- Hlen. symmetry. eapply Forall2_length, Hrel. }
  destruct (Hid (started_all_running _ _ Hrel)) as [-> ->]. exact E'.
Qed.

(** X18.  [stop] joins the threads that are running, in the order of
    their slots, and no other; it leaves every slot empty and the exit
    flag lowered; called again, it joins nothing and changes nothing. *)
Theorem stop_joins_running_threads cleaner w :
  length (CleanerThread.threads cleaner)
  = Z.to_nat (CleanerThread.numThreads cleaner) ->
  exists stopped : CleanerThread.t,
    CleanerThread.stop cleaner w
    = Ok (stopped,
          fold_left (fun w thread => CleanerThread.joinThread thread w)
            (omap id (CleanerThread.threads cleaner)) w) /\
    CleanerThread.threads stopped
    = repeat None (Z.to_nat (CleanerThread.numThreads cleaner)) /\
    CleanerThread.threadsShouldExit stopped = false /\
    CleanerThread.numThreads stopped = CleanerThread.numThreads cleaner /\
    CleanerThread.config stopped = CleanerThread.config cleaner /\
    forall w', CleanerThread.stop stopped w' = Ok (stopped, w').
Proof.
  intros Hlen. eexists. split; [exact (stop_run cleaner w Hlen) |].
  cbn. repeat split. intros w'.
  rewrite stop_run by (cbn; apply repeat_length).
  cbn. now rewrite none_running.
Qed.

(** X19.  The life of a cleaner: the constructor, when it returns, has
    obtained the survivor reserve and leaves [cleanerThreadCount] slots
    without a thread; a write cost threshold of 0 makes every
    [doMemoryCleaning] of that cleaner return at once; [start] then runs
    a thread in every slot, and [stop] after it brings the cleaner back
    to the state the constructor left. *)
Theorem constructed_cleaner_lifecycle
    (serverConfig : CleanerThread.ServerConfig) w cleaner w0 :
  CleanerThread.construct serverConfig w = Ok (cleaner, w0) ->
  fst (CleanerThread.initializeSurvivorReserve
         (CleanerThread.cleanerThreadCount serverConfig
          * CleanerThread.SURVIVOR_SEGMENTS_TO_RESERVE)
         (mkWorld (store w) [] (external w))) = true /\
  CleanerThread.threads cleaner
  = repeat None (Z.to_nat (CleanerThread.cleanerThreadCount serverConfig)) /\
  (CleanerThread.cleanerWriteCostThreshold serverConfig = 0 ->
   forall (clock : nat -> Z) w1,
     LogCleaner.doMemoryCleaning (CleanerThread.config cleaner) clock w1
     = Ok (None, w1)) /\
  (forall w1,
     exists (started : CleanerThread.t) (w2 w3 : World External),
       CleanerThread.start cleaner w1 = Ok (started, w2) /\
       Forall (fun t => t <> None) (CleanerThread.threads started) /\
       length (CleanerThread.threads started)
       = Z.to_nat (CleanerThread.cleanerThreadCount serverConfig) /\
       CleanerThread.stop started w2 = Ok (cleaner, w3)).
Proof.
  intros Hrun. unfold CleanerThread.construct in Hrun.
  cbv beta iota delta [LogCleaner.bind LogCleaner.setCandidates
    LogCleaner.modify LogCleaner.invoke] in Hrun.
  destruct (CleanerThread.initializeSurvivorReserve _ _)
    as [reserved w'] eqn:Hreserve.
  destruct reserved; [| discriminate]. injection Hrun as <- <-.
  split; [reflexivity |]. split; [reflexivity |]. split.
  - intros -> clock w1. reflexivity.
  - intros w1.
    match goal with
    | |- context [CleanerThread.start ?c w1] => set (cleaner := c)
    end.
    assert (Hlen : length (CleanerThread.threads cleaner)
                   = Z.to_nat (CleanerThread.numThreads cleaner))
      by apply repeat_length.
    destruct (start_run cleaner w1 Hlen) as (threads' & w2 & E & Hrel & _).
    assert (Hlen' : length threads'
                    = Z.to_nat (CleanerThread.numThreads cleaner)).
    { rewrite <- Hlen. symmetry. eapply Forall2_length, Hrel. }
    eexists _, w2, _. split; [exact E |]. cbn [CleanerThread.threads].
    split; [exact (started_all_running _ _ Hrel) |]. split; [exact Hlen' |].
    now rewrite stop_run.
Qed.

End Threads.

(** ** The work of one thread *)

Section Workers.
Context `{CleanerThread.Runtime}.
Implicit Types (w : World External) (cleaner : CleanerThread.t)
  (c : CostBenefitComparer.t) (clock : nat -> Z) (threadNumber : Z).

Lemma toInt_small (z : Z) : 0 <= z < 2 ^ 31 -> CleanerThread.toInt z = z.
Proof.
  intros Hz. unfold CleanerThread.toInt. rewrite Z.mod_small; lia.
Qed.

(** What the first part of [doWork] can have done. *)
Lemma work_cases cleaner c clock threadNumber w
    (done : option CleanerThread.Work) w' :
  CleanerThread.work cleaner c clock threadNumber w = Ok (done, w') ->
  match done with
  | Some (CleanerThread.DiskCleaning pass) =>
      threadNumber = 0 /\
      exists (lowOnDiskSpace : bool) (w1 : World External),
        LogCleaner.doDiskCleaning (CleanerThread.config cleaner) c
          lowOnDiskSpace w1 = Ok (pass, w')
  | Some (CleanerThread.MemoryCleaning compaction) =>
      (threadNumber = 0 \/
       Z.min 99 (90 + 2 * CleanerThread.toInt threadNumber)
       <= fst (CleanerThread.allocatorMemoryUtilization
                 (CleanerThread.cleanableSegments w))) /\
      exists w1 : World External,
        LogCleaner.doMemoryCleaning (CleanerThread.config cleaner) clock w1
        = Ok (compaction, w')
  | Some (CleanerThread.Sleep _) => False
  | None => True
  end.
Proof.
  intros Hrun. unfold CleanerThread.work in Hrun. run_apart Hrun.
  all: injection Hrun as <- <-.
  all: try exact I.
  all: repeat match goal with
              | E : (_ =? _) = true |- _ => apply Z.eqb_eq in E
              | E : (_ >=? _) = true |- _ => apply Z.geb_le in E
              end.
  all: split; eauto.
Qed.

(** X20.  Disk cleaning is the privilege of the thread numbered 0: a call
    of [doWork] that ran a disk-cleaning pass was made by that thread. *)
Theorem doWork_disk_cleaning_is_thread_zero cleaner c clock threadNumber w
    (pass : option LogCleaner.DiskPass) w' :
  CleanerThread.doWork cleaner c clock threadNumber w
  = Ok (CleanerThread.DiskCleaning pass, w') ->
  threadNumber = 0 /\
  exists (lowOnDiskSpace : bool) (w1 : World External),
    LogCleaner.doDiskCleaning (CleanerThread.config cleaner) c
      lowOnDiskSpace w1 = Ok (pass, w').
Proof.
  intros Hrun. unfold CleanerThread.doWork in Hrun.
  apply bind_ok_inv in Hrun as (done & w1 & Hwork & Hrun).
  apply work_cases in Hwork.
  destruct done as [cleaning |].
  - injection Hrun as -> ->. exact Hwork.
  - unfold CleanerThread.sleep in Hrun. run_apart Hrun; discriminate Hrun.
Qed.

(** X21.  The thresholds of the other threads are staggered: the thread
    numbered [n], for [n] from 1 on, compacts only when the memory
    utilization it read first is at least [min(99, 90 + 2 n)]. *)
Theorem doWork_compaction_threshold cleaner c clock threadNumber w
    (compaction : option LogCleaner.Compaction) w' :
  0 < threadNumber < 2 ^ 30 ->
  CleanerThread.doWork cleaner c clock threadNumber w
  = Ok (CleanerThread.MemoryCleaning compaction, w') ->
  Z.min 99 (90 + 2 * threadNumber)
  <= fst (CleanerThread.allocatorMemoryUtilization
            (CleanerThread.cleanableSegments w)).
Proof.
  intros Hn Hrun. unfold CleanerThread.doWork in Hrun.
  apply bind_ok_inv in Hrun as (done & w1 & Hwork & Hrun).
  apply work_cases in Hwork.
  destruct done as [cleaning |].
  - injection Hrun as -> ->. destruct Hwork as [[Hzero | Hthreshold] _];
      [lia |].
    rewrite toInt_small in Hthreshold by lia. exact Hthreshold.
  - unfold CleanerThread.sleep in Hrun. run_apart Hrun; discriminate Hrun.
Qed.

(** X22.  From the thread numbered 5 on, all threads do the same: their
    threshold is 99. *)
Theorem doWork_threads_from_five_alike cleaner c clock threadNumber w :
  5 <= threadNumber < 2 ^ 30 ->
  CleanerThread.doWork cleaner c clock threadNumber w
  = CleanerThread.doWork cleaner c clock 5 w.
Proof.
  intros Hn. unfold CleanerThread.doWork, CleanerThread.work.
  rewrite (toInt_small threadNumber), (toInt_small 5) by lia.
  replace (Z.min 99 (90 + 2 * threadNumber)) with 99 by lia.
  replace (threadNumber =? 0) with false by (symmetry; apply Z.eqb_neq; lia).
  reflexivity.
Qed.

(** X23.  A call of [doWork] that found nothing to do has slept for the
    poll interval and at most a tenth of it more. *)
Theorem doWork_sleep_duration cleaner c clock threadNumber w (usec : Z) w' :
  0 < CleanerThread.POLL_USEC ->
  CleanerThread.POLL_USEC + CleanerThread.POLL_USEC / 10 < 2 ^ 32 ->
  CleanerThread.doWork cleaner c clock threadNumber w
  = Ok (CleanerThread.Sleep usec, w') ->
  CleanerThread.POLL_USEC <= usec
  <= CleanerThread.POLL_USEC + CleanerThread.POLL_USEC / 10 /\
  exists w1 : World External, w' = CleanerThread.usleep usec w1.
Proof.
  intros Hpoll Hfit Hrun. unfold CleanerThread.doWork in Hrun.
  apply bind_ok_inv in Hrun as (done & w1 & Hwork & Hrun).
  apply work_cases in Hwork.
  destruct done as [cleaning |].
  - injection Hrun as -> ->. contradiction.
  - unfold CleanerThread.sleep in Hrun. run_apart Hrun.
    injection Hrun as <- <-. split; [| eauto].
    set (P := CleanerThread.POLL_USEC) in *.
    pose proof (Z.mod_pos_bound (u64 z) P Hpoll) as Hmod.
    assert (HP : 0 <= P / 10) by (apply Z.div_pos; lia).
    rewrite (u32_small (u64 z mod P)) by lia.
    assert (Hr : 0 <= (u64 z mod P) / 10 <= P / 10).
    { split; [apply Z.div_pos; lia | apply Z.div_le_mono; lia]. }
    rewrite u32_small by lia. lia.
Qed.

End Workers.

(** ** The further properties at work on concrete segments *)

(** X3 at work: the segment with one seglet's worth of live bytes in ten
    seglets is returned with 8 freeable seglets, and the two seglets that
    remain hold its live bytes at no more than 90 percent. *)
Lemma getSegmentToCompact_stays_cleanable_witness :
  8 <= LogSegment.segletsAllocated Scenario.oneOfTen /\
  100 * LogSegment.liveBytes Scenario.oneOfTen
  <= 90 * ((LogSegment.segletsAllocated Scenario.oneOfTen - 8) * 65536).
Proof.
  apply (@getSegmentToCompact_stays_cleanable Scenario.cleaner
           Scenario.config Scenario.clock
           (Scenario.storeOf
              [Scenario.nineOfEleven; Scenario.oneOfTen; Scenario.noneOfNine])
           [0; 1; 2]%nat 1%nat 8 [0; 2]%nat).
  - by_computation.
  - by_computation.
  - intros p Hp. each_candidate Hp; by_computation.
  - vm_compute. reflexivity.
  - reflexivity.
Defined.

(** The bound on the product cannot be dropped: with 60,000,000 live
    bytes in 1024 seglets the 32-bit product wraps around, the code takes
    the segment to need 290 seglets and reports 734 as freeable, and the
    290 seglets that would remain do not hold the live bytes. *)
Lemma getSegmentToCompact_wrapped_product :
  @LogCleaner.getSegmentToCompact Scenario.cleaner Scenario.config
    Scenario.clock
    (Scenario.storeOf [Scenario.counters 60000000 1024 0 40 40]) [0%nat]
  = (Some (0%nat, 734), []) /\
  ~ 100 * 60000000 <= 90 * ((1024 - 734) * 65536).
Proof. split; [vm_compute; reflexivity | lia]. Qed.

(** X4 at work: the four candidates of the selection above. *)
Lemma getSegmentsToClean_keeps_candidates_witness :
  Permutation
    (fst (@LogCleaner.getSegmentsToClean Scenario.tightCleaner
            Scenario.config Scenario.comparer
            (Scenario.storeOf
               [Scenario.halfFull; Scenario.packed; Scenario.halfFull;
                Scenario.halfFull])
            [0; 1; 2; 3]%nat)
     ++ snd (@LogCleaner.getSegmentsToClean Scenario.tightCleaner
               Scenario.config Scenario.comparer
               (Scenario.storeOf
                  [Scenario.halfFull; Scenario.packed; Scenario.halfFull;
                   Scenario.halfFull])
               [0; 1; 2; 3]%nat))
    [0; 1; 2; 3]%nat.
Proof.
  apply (@getSegmentsToClean_keeps_candidates Scenario.tightCleaner
           Scenario.config Scenario.comparer).
  apply specModel_sort_contract.
Defined.

(** X5 at work: a half-full segment against one with nothing live. *)
Lemma costBenefit_at_most_empty_witness :
  0 <= @CostBenefitComparer.costBenefit Scenario.cleaner Scenario.comparer
         Scenario.halfFull
    <= @CostBenefitComparer.costBenefit Scenario.cleaner Scenario.comparer
         Scenario.noneOfNine.
Proof.
  apply (@costBenefit_at_most_empty Scenario.cleaner Scenario.comparer
           Scenario.halfFull Scenario.noneOfNine).
  reflexivity.
Defined.

(** X6 at work: of two half-full segments the one created at second 40
    ranks at least as high as the one created at second 200. *)
Lemma costBenefit_prefers_old_and_empty_witness :
  @CostBenefitComparer.costBenefit Scenario.cleaner Scenario.comparer
    Scenario.fromTheFuture
  <= @CostBenefitComparer.costBenefit Scenario.cleaner Scenario.comparer
       Scenario.halfFull.
Proof.
  apply (@costBenefit_prefers_old_and_empty Scenario.cleaner
           Scenario.comparer Scenario.halfFull Scenario.fromTheFuture);
    by_computation.
Defined.

(** X7 at work: the second of two compared segments loses all its live
    bytes, which would make its cost-benefit infinite, and the comparer
    still ranks the first in front of it. *)
Lemma call_verdict_survives_statistics_witness :
  fst (@CostBenefitComparer.call Scenario.cleaner Scenario.comparer
         Deployment.emptied 0%nat 1%nat)
  = fst (@CostBenefitComparer.call Scenario.cleaner Scenario.comparer
           Deployment.twoSegments 0%nat 1%nat).
Proof.
  apply (@call_verdict_survives_statistics Scenario.cleaner
           Scenario.comparer Deployment.twoSegments 0%nat 1%nat
           Deployment.emptied);
    reflexivity.
Defined.

(** X9 at work: the key given as a string and the same key found in a
    buffer. *)
Lemma equal_keys_have_equal_hashes_witness :
  fst (@Key.getHashCached Scenario.keys Scenario.keyK)
  = fst (@Key.getHashCached Scenario.keys Deployment.keyInBuffer).
Proof.
  apply (@equal_keys_have_equal_hashes Scenario.keys Scenario.keyK
           Deployment.keyInBuffer).
  - apply Key.reach_fromString.
  - apply Key.reach_fromBuffer.
  - reflexivity.
Defined.

(** X10 at work: the key, the key in the buffer, and the key with its
    fingerprint cached. *)
Lemma key_equality_is_equivalence_witness :
  Key.eqb Scenario.keyK Deployment.keyInBuffer
  = Key.eqb Deployment.keyInBuffer Scenario.keyK /\
  (Key.eqb Scenario.keyK Deployment.keyInBuffer = true ->
   Key.eqb Deployment.keyInBuffer
     (snd (@Key.getHashCached Scenario.keys Scenario.keyK)) = true ->
   Key.eqb Scenario.keyK
     (snd (@Key.getHashCached Scenario.keys Scenario.keyK)) = true).
Proof.
  destruct (@key_equality_is_equivalence Scenario.keys Scenario.keyK
              Deployment.keyInBuffer
              (snd (@Key.getHashCached Scenario.keys Scenario.keyK))
              (Key.reach_fromString 7 [Byte.x6b] 1)
              (Key.reach_fromBuffer 7 [Byte.x00; Byte.x6b] 1 1)
              (Key.reach_getHash _ (Key.reach_fromString 7 [Byte.x6b] 1)))
    as (_ & Hsym & Htrans & _).
  split; [exact Hsym | exact Htrans].
Defined.

(** X11 at work: the key with its fingerprint cached compares with the
    key in the buffer as it did before. *)
Lemma getHash_cache_is_transparent_witness :
  Key.eqb (snd (@Key.getHashCached Scenario.keys Scenario.keyK))
    Deployment.keyInBuffer
  = Key.eqb Scenario.keyK Deployment.keyInBuffer.
Proof.
  apply (@getHash_cache_is_transparent Scenario.keys Scenario.keyK
           Deployment.keyInBuffer).
  - apply Key.reach_fromString.
  - apply Key.reach_fromBuffer.
Defined.

(** X12 at work: the one entry of the world with the one object goes to
    one survivor, 105 bytes with its header. *)
Lemma relocateLiveEntries_survivors_witness :
  Deployment.relocationRun
  = Ok (105, [1%nat],
        Deployment.worldOf Deployment.relocationRun Scenario.oneObjectWorld) /\
  (length [1%nat] <= length [mkEntry 0%nat 0 0])%nat /\ 0 <= 105 < 2 ^ 64.
Proof.
  split; [vm_compute; reflexivity |].
  destruct (@relocateLiveEntries_survivors Scenario.smallCleaner
              [mkEntry 0%nat 0 0] Scenario.oneObjectWorld 105 [1%nat]
              (Deployment.worldOf Deployment.relocationRun
                 Scenario.oneObjectWorld)
              ltac:(vm_compute; reflexivity))
    as (Hcount & Hrange & _).
  split; [exact Hcount | exact Hrange].
Defined.

(** X13 at work: the entries of the segment with the one object. *)
Lemma getSortedEntries_complete_witness :
  Permutation
    (@LogCleaner.getSortedEntries Scenario.smallCleaner
       (store Scenario.oneObjectWorld) [0%nat])
    (concat (map (@LogCleaner.entriesOf Scenario.smallCleaner
                    (store Scenario.oneObjectWorld)) [0%nat])).
Proof.
  apply (@getSortedEntries_complete Scenario.smallCleaner
           (store Scenario.oneObjectWorld) [0%nat]).
  apply specModel_sort_contract.
Defined.

(** X14 at work: two candidates that are full in memory. *)
Lemma doDiskCleaning_nothing_cleanable_witness :
  exists w' : World SpecModel.External,
    @LogCleaner.doDiskCleaning Scenario.cleaner Scenario.config
      Scenario.comparer false Deployment.tooFull
    = Ok (None, w') /\
    Permutation (candidates w') [0; 1]%nat /\
    external w' = external Deployment.tooFull /\
    forall p : ptr,
      Aux.sameStatistics (store w' p) (store Deployment.tooFull p).
Proof.
  apply (@doDiskCleaning_nothing_cleanable Scenario.cleaner Scenario.config
           Scenario.comparer false Deployment.tooFull).
  - apply specModel_sort_contract.
  - intros p Hp. simpl in Hp. destruct Hp as [<- | [<- | []]];
      by_computation.
Defined.

(** X15 at work: the one candidate needs all of its seglets and has no
    tombstones. *)
Lemma doMemoryCleaning_no_work_witness :
  @LogCleaner.doMemoryCleaning Scenario.cleaner Scenario.config
    Scenario.clock Deployment.nothingToCompact
  = Ok (None, Deployment.nothingToCompact).
Proof.
  apply (@doMemoryCleaning_no_work Scenario.cleaner Scenario.config
           Scenario.clock Deployment.nothingToCompact).
  right. reflexivity.
Defined.


(** X17 at work: a cleaner of three threads of which the second is
    running. *)
Lemma start_fills_empty_slots_witness :
  exists (started : CleanerThread.t) (w' : World SpecModel.External),
    @CleanerThread.start Scenario.smallCleaner Deployment.busy
      Deployment.cleaner Scenario.oneObjectWorld
    = Ok (started, w') /\
    Forall2
      (fun old new =>
         match old with
         | Some thread => new = Some thread
         | None => exists thread, new = Some thread
         end)
      (CleanerThread.threads Deployment.cleaner)
      (CleanerThread.threads started) /\
    CleanerThread.numThreads started = 3 /\
    CleanerThread.config started = Scenario.smallConfig /\
    @CleanerThread.start Scenario.smallCleaner Deployment.busy started w'
    = Ok (started, w').
Proof.
  apply (@start_fills_empty_slots Scenario.smallCleaner Deployment.busy
           Deployment.cleaner Scenario.oneObjectWorld).
  reflexivity.
Defined.

(** X18 at work: the same cleaner is stopped. *)
Lemma stop_joins_running_threads_witness :
  exists stopped : CleanerThread.t,
    @CleanerThread.stop Scenario.smallCleaner Deployment.busy
      Deployment.cleaner Scenario.oneObjectWorld
    = Ok (stopped,
          @CleanerThread.joinThread Scenario.smallCleaner Deployment.busy
            5%nat Scenario.oneObjectWorld) /\
    CleanerThread.threads stopped = [None; None; None].
Proof.
  destruct (@stop_joins_running_threads Scenario.smallCleaner Deployment.busy
              Deployment.cleaner Scenario.oneObjectWorld eq_refl)
    as (stopped & Hrun & Hthreads & _).
  exists stopped. split; [exact Hrun | exact Hthreads].
Defined.

(** X19 at work: the cleaner of a server whose write cost threshold is 0
    leaves alone the segment that would be compacted otherwise. *)
Lemma constructed_cleaner_lifecycle_witness :
  CleanerThread.threads
    (Deployment.valueOf Deployment.constructionRun Deployment.cleaner)
  = [None; None; None] /\
  @LogCleaner.doMemoryCleaning Scenario.smallCleaner
    (CleanerThread.config
       (Deployment.valueOf Deployment.constructionRun Deployment.cleaner))
    Scenario.clock Scenario.oneObjectWorld
  = Ok (None, Scenario.oneObjectWorld).
Proof.
  destruct (@constructed_cleaner_lifecycle Scenario.smallCleaner
              Deployment.busy Deployment.noCompaction
              Scenario.oneObjectWorld
              (Deployment.valueOf Deployment.constructionRun
                 Deployment.cleaner)
              (Deployment.worldOf Deployment.constructionRun
                 Scenario.oneObjectWorld)
              ltac:(vm_compute; reflexivity))
    as (_ & Hthreads & Hdisabled & _).
  split; [exact Hthreads | apply Hdisabled; reflexivity].
Defined.

(** X20 at work: with the disk 96 percent full, thread 0 cleans on
    disk. *)
Lemma doWork_disk_cleaning_is_thread_zero_witness :
  Deployment.diskWork
  = Ok (CleanerThread.DiskCleaning
          (Deployment.passOf
             (Deployment.valueOf Deployment.diskWork
                (CleanerThread.Sleep 0))),
        Deployment.worldOf Deployment.diskWork Scenario.oneObjectWorld) /\
  exists (lowOnDiskSpace : bool) (w1 : World SpecModel.External),
    @LogCleaner.doDiskCleaning Scenario.smallCleaner Scenario.smallConfig
      Scenario.comparer lowOnDiskSpace w1
    = Ok (Deployment.passOf
            (Deployment.valueOf Deployment.diskWork (CleanerThread.Sleep 0)),
          Deployment.worldOf Deployment.diskWork Scenario.oneObjectWorld).
Proof.
  split; [vm_compute; reflexivity |].
  apply (@doWork_disk_cleaning_is_thread_zero Scenario.smallCleaner
           Deployment.diskFull Deployment.cleaner Scenario.comparer
           Scenario.clock 0 Scenario.oneObjectWorld).
  vm_compute. reflexivity.
Defined.

(** X21 at work: with memory 92 percent full, thread 1 compacts, its
    threshold being 92. *)
Lemma doWork_compaction_threshold_witness :
  Deployment.memoryWork
  = Ok (CleanerThread.MemoryCleaning
          (Deployment.compactionOf
             (Deployment.valueOf Deployment.memoryWork
                (CleanerThread.Sleep 0))),
        Deployment.worldOf Deployment.memoryWork Scenario.oneObjectWorld) /\
  Z.min 99 (90 + 2 * 1) <= 92.
Proof.
  split; [vm_compute; reflexivity |].
  apply (@doWork_compaction_threshold Scenario.smallCleaner Deployment.busy
           Deployment.cleaner Scenario.comparer Scenario.clock 1
           Scenario.oneObjectWorld
           (Deployment.compactionOf
              (Deployment.valueOf Deployment.memoryWork
                 (CleanerThread.Sleep 0)))
           (Deployment.worldOf Deployment.memoryWork
              Scenario.oneObjectWorld)).
  - lia.
  - vm_compute. reflexivity.
Defined.

(** X22 at work: threads 7 and 5. *)
Lemma doWork_threads_from_five_alike_witness :
  @CleanerThread.doWork Scenario.smallCleaner Deployment.busy
    Deployment.cleaner Scenario.comparer Scenario.clock 7
    Scenario.oneObjectWorld
  = @CleanerThread.doWork Scenario.smallCleaner Deployment.busy
      Deployment.cleaner Scenario.comparer Scenario.clock 5
      Scenario.oneObjectWorld.
Proof.
  apply (@doWork_threads_from_five_alike Scenario.smallCleaner
           Deployment.busy Deployment.cleaner Scenario.comparer
           Scenario.clock 7 Scenario.oneObjectWorld).
  lia.
Defined.

(** X23 at work: with memory half full and the disk 40 percent full the
    thread sleeps for 10678 microseconds, the poll interval being 10000. *)
Lemma doWork_sleep_duration_witness :
  Deployment.idleWork
  = Ok (CleanerThread.Sleep 10678,
        Deployment.worldOf Deployment.idleWork Scenario.oneObjectWorld) /\
  10000 <= 10678 <= 10000 + 10000 / 10.
Proof.
  split; [vm_compute; reflexivity |].
  apply (@doWork_sleep_duration Scenario.smallCleaner Deployment.idle
           Deployment.cleaner Scenario.comparer Scenario.clock 0
           Scenario.oneObjectWorld 10678
           (Deployment.worldOf Deployment.idleWork Scenario.oneObjectWorld)).
  - reflexivity.
  - reflexivity.
  - vm_compute. reflexivity.
Defined.

(** X24 at work: the segment with the tombstone needs more seglets than
    it has, is compacted for its tombstone, and nothing is freed. *)
Lemma doMemoryCleaning_fallback_frees_nothing_witness :
  Deployment.tombstoneRun
  = Ok (Some (LogCleaner.mkCompaction 0%nat 1%nat 0 0),
        Deployment.worldOf Deployment.tombstoneRun Deployment.tombstoneWorld) /\
  LogCleaner.bytesFreed (LogCleaner.mkCompaction 0%nat 1%nat 0 0) = 0.
Proof.
  split; [vm_compute; reflexivity |].
  apply (@doMemoryCleaning_fallback_frees_nothing Scenario.smallCleaner
           Scenario.smallConfig Scenario.clock Deployment.tombstoneWorld
           (LogCleaner.mkCompaction 0%nat 1%nat 0 0)
           (Deployment.worldOf Deployment.tombstoneRun
              Deployment.tombstoneWorld)).
  - intros [| j] q Hj; [| discriminate Hj].
    injection Hj as <-. reflexivity.
  - vm_compute. reflexivity.
Defined.

(** X25 at work: the pass over the world with one live object turns 8
    seglets into 1 and frees 7 times 8192 bytes of memory. *)
Lemma doDiskCleaning_bytes_freed_witness :
  LogCleaner.memoryBytesFreed Scenario.diskPass
  = (LogCleaner.segletsBefore Scenario.diskPass
     - LogCleaner.segletsAfter Scenario.diskPass) * 8192.
Proof.
  destruct (@doDiskCleaning_bytes_freed Scenario.smallCleaner
              Scenario.smallConfig Scenario.comparer true
              Scenario.oneObjectWorld Scenario.diskPass Scenario.diskWorld
              ltac:(by_computation) ltac:(by_computation)
              ltac:(vm_compute; reflexivity))
    as (_ & _ & _ & Hmemory & _).
  apply Hmemory. reflexivity.
Defined.
